(** * OpenSplat parameter benchmark: the experiment runner and its collaborators

    A shallow embedding of the three scripts of the repository:

    - [opensplat_param_test_quick.py]  (module [ParamTest]):  [TestCase],
      [TestResult], [OpenSplatTester.__init__], [run_single_test],
      [run_all_tests] and the failure section of [generate_report];
    - [quick_test.py]  (module [QuickTest]):  [TEST_CASES] and the round-robin
      assignment of [run_parallel];
    - [compare_results.py]  (module [CompareResults]):  [parse_ply_header] and
      the grouping of [print_comparison].

    The rest of the scripts follows: the test plan ([Plan]), the report and
    [main] of the benchmark ([Report]), the runs of the quick test
    ([QuickRun]), and the analysis, the tables and [main] of the comparison
    ([Analysis]).

    They rest on models of what the scripts import: the built-ins on strings
    and paths ([Py]), exceptions, clock and console ([Eff]), the subprocess
    and the file system ([OS]) and the thread pool ([Pool]). The properties
    follow the definitions, one module of facts per component.

    Conventions of the embedding.

    - Python [int] is [Z]; Python [str] is [string], read as a sequence of
      code points below 256; [bytes] is [list byte].
    - Readings of [time.time()] and running times are rationals ([Q]): the
      rounding of the floating-point subtraction is not modelled.
    - What the operating system does (the external tool, the file system, the
      clock) is an explicit oracle passed to the function that consults it.
    - A call that can raise returns a sum: [inl e] is the exception [e],
      [inr v] is a normal return.
    - The console is an append-only sink that accepts every line; the lines
      are kept as structured values, their text rendering is left out.
    - A loop that need not end takes fuel, one unit per iteration, and
      returns [None] when it is still running once the fuel is spent. *)

From Stdlib Require Import ZArith List String Ascii Lia QArith Permutation Bool Arith.
From Stdlib Require Import DecimalString DecimalZ DecimalPos Sorted.
From Stdlib.Strings Require Import Byte.
Import ListNotations.

Local Close Scope Q_scope.
Local Open Scope string_scope.
Local Open Scope list_scope.

(** ** Python built-ins used by the scripts *)

Module Py.

(** [s.startswith(pre)] *)
Definition startswith (pre s : string) : bool := String.prefix pre s.

(** [s.endswith(c)] for a one-character suffix *)
Fixpoint endswith_char (c : ascii) (s : string) : bool :=
  match s with
  | EmptyString => false
  | String a EmptyString => Ascii.eqb a c
  | String _ rest => endswith_char c rest
  end.

(** [pat in s] *)
Fixpoint contains (pat s : string) : bool :=
  String.prefix pat s ||
  match s with
  | EmptyString => false
  | String _ rest => contains pat rest
  end.

(** [s[:n]] *)
Definition slice_to (n : nat) (s : string) : string := String.substring 0 n s.

(** [str.isspace] on one code point below 256:
    TAB..CR, FS..US, SPACE, NEL and NBSP. *)
Definition is_space (c : ascii) : bool :=
  let n := nat_of_ascii c in
  (Nat.leb 9 n && Nat.leb n 13) || (Nat.leb 28 n && Nat.leb n 32)
  || Nat.eqb n 133 || Nat.eqb n 160.

(** [s.split()]: maximal runs of non-blank characters. [cur] is the token
    being read. *)
Fixpoint split_ws_from (cur s : string) : list string :=
  match s with
  | EmptyString => if String.eqb cur "" then [] else [cur]
  | String c rest =>
      if is_space c then
        (if String.eqb cur "" then split_ws_from "" rest
         else cur :: split_ws_from "" rest)
      else split_ws_from (cur ++ String c "") rest
  end.

Definition split_ws (s : string) : list string := split_ws_from "" s.

(** [s.split(sep)] for a one-character separator: empty fields are kept and
    the result is never empty. *)
Fixpoint split_on_from (sep : ascii) (cur s : string) : list string :=
  match s with
  | EmptyString => [cur]
  | String c rest =>
      if Ascii.eqb c sep then cur :: split_on_from sep "" rest
      else split_on_from sep (cur ++ String c "") rest
  end.

Definition split_on (sep : ascii) (s : string) : list string :=
  split_on_from sep "" s.

(** [sep.join(l)] *)
Definition join (sep : string) (l : list string) : string := String.concat sep l.

(** [str(n)] for an [int] *)
Definition str_of_int (n : Z) : string := NilZero.string_of_int (Z.to_int n).

(** [os.path.join(a, b)] of [posixpath] *)
Definition path_join (a b : string) : string :=
  if startswith "/" b then b
  else if String.eqb a "" || endswith_char "/" a then a ++ b
  else a ++ "/" ++ b.

(** A [dict] with string keys, in insertion order. [d[k] = v]: *)
Definition dict := list (string * string).

Fixpoint dict_set (k v : string) (d : dict) : dict :=
  match d with
  | [] => [(k, v)]
  | (k', v') :: rest =>
      if String.eqb k' k then (k', v) :: rest else (k', v') :: dict_set k v rest
  end.

Fixpoint dict_get (k : string) (d : dict) : option string :=
  match d with
  | [] => None
  | (k', v') :: rest => if String.eqb k' k then Some v' else dict_get k rest
  end.

End Py.

(** ** Exceptions, the clock and the console

    A computation reads the clock, prints and may raise. Its state is what
    was printed so far and how often the clock was read; both survive an
    exception, as they do in Python. *)

Module Eff.

(** An exception object: whether it is a [subprocess.TimeoutExpired], and
    its [str()]. Every exception of the model derives from [Exception]. *)
Record exception : Type := {
  timeout_expired : bool;
  message : string
}.

Definition error (msg : string) : exception :=
  {| timeout_expired := false; message := msg |}.

Section Monad.

Context {L : Type}.     (* what one printed line carries *)

Record state : Type := {
  printed : list L;
  ticks : nat
}.

Definition start : state := {| printed := []; ticks := 0 |}.

Definition M (A : Type) : Type := state -> (exception + A) * state.

Definition ret {A : Type} (a : A) : M A := fun s => (inr a, s).

Definition raise {A : Type} (e : exception) : M A := fun s => (inl e, s).

Definition bind {A B : Type} (m : M A) (k : A -> M B) : M B :=
  fun s =>
    match m s with
    | (inl e, s') => (inl e, s')
    | (inr a, s') => k a s'
    end.

(** [try: body except Exception as e: handler(e)] *)
Definition try_except {A : Type} (body : M A) (handler : exception -> M A) : M A :=
  fun s =>
    match body s with
    | (inl e, s') => handler e s'
    | (inr a, s') => (inr a, s')
    end.

(** A call of a function of the operating system. *)
Definition call {A : Type} (r : exception + A) : M A := fun s => (r, s).

(** [_safe_print(line)] *)
Definition print (line : L) : M unit :=
  fun s => (inr tt, {| printed := printed s ++ [line]; ticks := ticks s |}).

(** [time.time()], where [clock k] is the [k]-th reading. *)
Definition now (clock : nat -> Q) : M Q :=
  fun s => (inr (clock (ticks s)), {| printed := printed s; ticks := S (ticks s) |}).

End Monad.

Arguments state : clear implicits.
Arguments M : clear implicits.

Declare Scope eff_scope.
Delimit Scope eff_scope with eff.
Notation "x <- m ;; k" := (bind m (fun x => k))
  (at level 61, m at next level, right associativity) : eff_scope.
Notation "m ;; k" := (bind m (fun _ => k))
  (at level 61, right associativity) : eff_scope.

End Eff.

(** ** The operating system, as seen by one trial *)

Module OS.

Import Eff.

(** What the external tool does once it is asked to run. *)
Inductive process : Type :=
| CannotRun (msg : string)
    (* [subprocess.run] raises an exception other than [TimeoutExpired]:
       the executable is missing, permission is denied, ... *)
| Runs (runtime : option Q) (returncode : Z) (stdout stderr : string).
    (* the tool starts; it exits by itself after [runtime] seconds
       ([None]: never) with the given status and captured streams *)

(** [subprocess.CompletedProcess] *)
Record completed : Type := {
  returncode : Z;
  stdout : string;
  stderr : string
}.

(** Whether a process that needs [runtime] is over within [timeout] seconds. *)
Definition within (timeout : Z) (runtime : option Q) : bool :=
  match runtime with
  | None => false
  | Some d => Qle_bool d (inject_Z timeout)
  end.

(** [subprocess.run(cmd, capture_output=True, text=True, timeout=t, env=env)],
    given what the tool does. The text of a [TimeoutExpired] is never read
    by the scripts and is abbreviated. *)
Definition subprocess_run (timeout : Z) (p : process) : exception + completed :=
  match p with
  | CannotRun msg => inl (error msg)
  | Runs runtime rc out err =>
      if within timeout runtime
      then inr {| returncode := rc; stdout := out; stderr := err |}
      else inl {| timeout_expired := true; message := "timed out" |}
  end.

(** The surroundings of one call of the executor. *)
Record world : Type := {
  environ : Py.dict;                               (* [os.environ] *)
  execute : list string -> Py.dict -> process;     (* the tool, given argv and env *)
  getsize : string -> string + Z;                  (* [os.path.getsize] after the run;
                                                      [inl msg] is [OSError(msg)] *)
  clock : nat -> Q                                 (* k-th reading of [time.time()] *)
}.

Definition os_path_getsize (w : world) (path : string) : exception + Z :=
  match getsize w path with
  | inl msg => inl (error msg)
  | inr n => inr n
  end.

End OS.

(** ** The worker pool: [ThreadPoolExecutor] and [as_completed]

    Every submitted callable is queued. A worker that is free takes the
    oldest queued task; at most [W] tasks are active at a time. A task that
    ends leaves its future finished, holding either the value it returned or
    the exception it raised. [as_completed] hands each finished future to the
    main thread exactly once, in an order that the program does not control.
    The order of these events is the schedule, an input of the model. *)

Module Pool.

Import Eff.

Fixpoint take_nth {A : Type} (k : nat) (l : list A) {struct l}
  : option (A * list A) :=
  match l, k with
  | [], _ => None
  | x :: rest, O => Some (x, rest)
  | x :: rest, S k' =>
      match take_nth k' rest with
      | Some (y, rest') => Some (y, x :: rest')
      | None => None
      end
  end.

Inductive event : Type :=
| Start               (* a free worker takes the oldest queued task *)
| Finish (k : nat)    (* the k-th active task ends *)
| Yield (k : nat).    (* [as_completed] yields the k-th finished future *)

(** [ThreadPoolExecutor(max_workers=W)] *)
Definition create (W : Z) : exception + Z :=
  if (W <=? 0)%Z then inl (error "max_workers must be greater than 0")
  else inr W.

Section Pool.

Context {T R : Type}.

(** What a submitted task does when a worker runs it. *)
Variable work : T -> exception + R.

Definition future : Type := (T * (exception + R))%type.

Definition settle (t : T) : future := (t, work t).

Record state : Type := {
  queue : list T;
  active : list T;
  finished : list future;
  yielded : list future
}.

Definition submit_all (tasks : list T) : state :=
  {| queue := tasks; active := []; finished := []; yielded := [] |}.

Definition step (W : Z) (e : event) (s : state) : option state :=
  match e with
  | Start =>
      match queue s with
      | t :: q =>
          if (Z.of_nat (List.length (active s)) <? W)%Z
          then Some {| queue := q; active := active s ++ [t];
                       finished := finished s; yielded := yielded s |}
          else None
      | [] => None
      end
  | Finish k =>
      match take_nth k (active s) with
      | Some (t, rest) =>
          Some {| queue := queue s; active := rest;
                  finished := finished s ++ [settle t]; yielded := yielded s |}
      | None => None
      end
  | Yield k =>
      match take_nth k (finished s) with
      | Some (f, rest) =>
          Some {| queue := queue s; active := active s;
                  finished := rest; yielded := yielded s ++ [f] |}
      | None => None
      end
  end.

Fixpoint run (W : Z) (es : list event) (s : state) : option state :=
  match es with
  | [] => Some s
  | e :: es' =>
      match step W e s with
      | Some s' => run W es' s'
      | None => None
      end
  end.

Definition idle (s : state) : bool :=
  match queue s, active s, finished s with
  | [], [], [] => true
  | _, _, _ => false
  end.

(** The futures in the order [as_completed] yields them, for a schedule that
    is a complete run of the pool; [None] for a list of events that is not. *)
Definition as_completed (W : Z) (tasks : list T) (es : list event)
  : option (list future) :=
  match run W es (submit_all tasks) with
  | Some s => if idle s then Some (yielded s) else None
  | None => None
  end.

(** Work still to be done, counted in events. *)
Definition remaining (s : state) : nat :=
  3 * List.length (queue s) + 2 * List.length (active s) + List.length (finished s).

(** Every task is in exactly one of the four places, and a future holds what
    its task produced. *)
Definition accounted (tasks : list T) (s : state) : Prop :=
  Permutation (map settle (queue s ++ active s) ++ finished s ++ yielded s)
              (map settle tasks).

End Pool.

(** The schedule in which every task is started, ended and yielded before the
    next one is touched. *)
Fixpoint fifo (n : nat) : list event :=
  match n with
  | O => []
  | S n' => Start :: Finish 0 :: Yield 0 :: fifo n'
  end.

(** A schedule that ends whatever is active, yields whatever is finished
    and then serves the queue in order. *)
Definition drain {T R : Type} (s : state (T := T) (R := R)) : list event :=
  repeat (Finish 0) (List.length (active s))
    ++ repeat (Yield 0) (List.length (active s) + List.length (finished s))
    ++ fifo (List.length (queue s)).

End Pool.

(** ** [opensplat_param_test_quick.py] *)

Module ParamTest.

Import Py Eff OS.
Local Open Scope eff_scope.

(** [@dataclass TestCase] *)
Record TestCase : Type := {
  name : string;
  description : string;
  params : Py.dict
}.

(** [TestCase.get_param_str] *)
Definition get_param_str (tc : TestCase) : string :=
  join " "
    (map (fun kv : string * string =>
            let (k, v) := kv in
            if negb (startswith "-" k) then ("--" ++ k ++ " " ++ v)%string
            else (k ++ " " ++ v)%string)
         (params tc)).

(** [@dataclass TestResult] *)
Record TestResult : Type := {
  test_case : TestCase;
  success : bool;
  duration : Q;
  output_file : string;
  gpu_id : Z;
  error_msg : option string
}.

(** The attributes of an [OpenSplatTester] (the print lock apart). *)
Record OpenSplatTester : Type := {
  opensplat_path : string;
  data_path : string;
  output_dir : string;
  max_workers : Z;
  timeout : Z
}.

(** [OpenSplatTester.__init__]. [makedirs] is [os.makedirs(_, exist_ok=True)]:
    [Some msg] when it raises [OSError(msg)]. No other argument is looked
    at. *)
Definition init (makedirs : string -> option string)
    (opensplat_path data_path output_dir : string) (max_workers timeout : Z)
  : exception + OpenSplatTester :=
  match makedirs output_dir with
  | Some msg => inl (error msg)
  | None =>
      inr {| opensplat_path := opensplat_path; data_path := data_path;
             output_dir := output_dir; max_workers := max_workers;
             timeout := timeout |}
  end.

(** What [_safe_print] is asked to show, line by line. *)
Inductive console_line : Type :=
| Rule
| Started (gpu : Z) (name : string)
| Described (description : string)
| Command (gpu : Z) (cmd : string)
| Succeeded (gpu : Z) (name : string) (duration : Q) (size_bytes : Z)
| Failed (gpu : Z) (name : string) (shown : string)
| TimedOut (gpu : Z) (name : string)
| Excepted (gpu : Z) (name : string) (msg : string).

(** The local [output_file] of [run_single_test] *)
Definition output_file_of (self : OpenSplatTester) (test_case : TestCase) : string :=
  path_join (output_dir self) (name test_case ++ ".ply").

(** The local [cmd] of [run_single_test] *)
Definition cmd_of (self : OpenSplatTester) (test_case : TestCase) : list string :=
  [opensplat_path self; "-o"; output_file_of self test_case]
    ++ split_ws (get_param_str test_case)
    ++ [data_path self].

(** The local [env] of [run_single_test] *)
Definition env_of (w : world) (gpu_id : Z) : Py.dict :=
  dict_set "CUDA_VISIBLE_DEVICES" (str_of_int gpu_id) (environ w).

(** [OpenSplatTester.run_single_test] *)
Definition run_single_test (self : OpenSplatTester) (w : world)
    (test_case : TestCase) (gpu_id : Z) : M console_line TestResult :=
  let output_file := output_file_of self test_case in
  let cmd := cmd_of self test_case in
  let env := env_of w gpu_id in
  print Rule ;;
  print (Started gpu_id (name test_case)) ;;
  print (Described (description test_case)) ;;
  print (Command gpu_id (join " " cmd)) ;;
  print Rule ;;
  start_time <- now (clock w) ;;
  try_except
    (result <- call (subprocess_run (timeout self) (execute w cmd env)) ;;
     t <- now (clock w) ;;
     let duration := (t - start_time)%Q in
     if (returncode result =? 0)%Z then
       file_size <- call (os_path_getsize w output_file) ;;
       print (Succeeded gpu_id (name test_case) duration file_size) ;;
       ret {| test_case := test_case; success := true; duration := duration;
              output_file := output_file; gpu_id := gpu_id; error_msg := None |}
     else
       let error_msg :=
         if String.eqb (stderr result) "" then "Unknown error" else stderr result in
       print (Failed gpu_id (name test_case) (slice_to 200 error_msg)) ;;
       ret {| test_case := test_case; success := false; duration := duration;
              output_file := output_file; gpu_id := gpu_id;
              error_msg := Some error_msg |})
    (fun e =>
       if timeout_expired e then
         t <- now (clock w) ;;
         let duration := (t - start_time)%Q in
         print (TimedOut gpu_id (name test_case)) ;;
         ret {| test_case := test_case; success := false; duration := duration;
                output_file := output_file; gpu_id := gpu_id;
                error_msg := Some "Timeout" |}
       else
         t <- now (clock w) ;;
         let duration := (t - start_time)%Q in
         print (Excepted gpu_id (name test_case) (message e)) ;;
         ret {| test_case := test_case; success := false; duration := duration;
                output_file := output_file; gpu_id := gpu_id;
                error_msg := Some (message e) |}).

(** [[i % max_workers for i in range(n)]], for a divisor other than zero
    (with zero the first remainder raises, see [run_parallel]). *)
Definition gpu_assignments (max_workers : Z) (n : nat) : list Z :=
  map (fun i : nat => (Z.of_nat i mod max_workers)%Z) (seq 0 n).

(** [enumerate(l)] *)
Definition enumerate {A : Type} (l : list A) : list (nat * A) :=
  combine (seq 0 (List.length l)) l.

(** One submission to the pool: the position in the input, the test case and
    the device it was given. *)
Definition submission : Type := (nat * (TestCase * Z))%type.

Section Scheduler.

(** The executor the scheduler calls for the [i]-th test case: what it
    returns or raises. It is [self.run_single_test], see [executor] below,
    unless a caller replaces the method. *)
Variable exec : nat -> TestCase -> Z -> exception + TestResult.

(** The serial branch of [run_all_tests]; [i] counts the test cases done. An
    exception of the executor is not caught. *)
Fixpoint run_serial (i : nat) (test_cases : list TestCase)
    (results : list TestResult) : exception + list TestResult :=
  match test_cases with
  | [] => inr results
  | test_case :: rest =>
      match exec i test_case 0%Z with
      | inl e => inl e
      | inr result => run_serial (S i) rest (results ++ [result])
      end
  end.

(** The callable submitted for one test case. *)
Definition work (t : submission) : exception + TestResult :=
  let '(i, (test_case, gpu_id)) := t in exec i test_case gpu_id.

(** The tasks submitted by the parallel branch, in submission order. *)
Definition submitted (max_workers : Z) (test_cases : list TestCase) : list submission :=
  enumerate (combine test_cases (gpu_assignments max_workers (List.length test_cases))).

(** The body of the [for future in as_completed(...)] loop: the result that
    is appended. *)
Definition collect (gpu_assignments : list Z) (f : Pool.future (T := submission))
  : TestResult :=
  let '((index, (test_case, _)), outcome) := f in
  match outcome with
  | inr result => result
  | inl e =>
      {| test_case := test_case; success := false; duration := 0%Q;
         output_file := ""; gpu_id := nth index gpu_assignments 0%Z;
         error_msg := Some (message e) |}
  end.

(** The parallel branch of [run_all_tests]. The result is [None] when
    [schedule] is not a complete run of the pool. *)
Definition run_parallel (max_workers : Z) (schedule : list Pool.event)
    (test_cases : list TestCase) : option (exception + list TestResult) :=
  if (max_workers =? 0)%Z && negb (Nat.eqb (List.length test_cases) 0) then
    Some (inl (error "integer modulo by zero"))
  else
    let gpu_assignments := gpu_assignments max_workers (List.length test_cases) in
    match Pool.create max_workers with
    | inl e => Some (inl e)
    | inr W =>
        match Pool.as_completed work W (submitted max_workers test_cases) schedule with
        | Some futures => Some (inr (map (collect gpu_assignments) futures))
        | None => None
        end
    end.

(** [OpenSplatTester.run_all_tests], for an explicit list of test cases; the
    progress lines it prints itself are left out. [schedule] is consulted in
    the parallel branch only. The result is
    [Some (inl e)] when the call raises [e], [Some (inr results)] when it
    returns [results], and [None] when [schedule] is not a complete run of the
    pool. *)
Definition run_all_tests_with (self : OpenSplatTester)
    (schedule : list Pool.event) (test_cases : list TestCase)
  : option (exception + list TestResult) :=
  if (max_workers self <=? 1)%Z then Some (run_serial 0 test_cases [])
  else run_parallel (max_workers self) schedule test_cases.

End Scheduler.

(** What one call of [run_single_test] returns or raises. *)
Definition outcome (self : OpenSplatTester) (w : world) (test_case : TestCase)
    (gpu_id : Z) : exception + TestResult :=
  fst (run_single_test self w test_case gpu_id Eff.start).

(** [self.run_single_test] as the scheduler calls it; [worlds i] is the
    surroundings of the call for the [i]-th test case. *)
Definition executor (self : OpenSplatTester) (worlds : nat -> world)
  : nat -> TestCase -> Z -> exception + TestResult :=
  fun i test_case gpu_id => outcome self (worlds i) test_case gpu_id.

Definition run_all_tests (self : OpenSplatTester) (worlds : nat -> world)
  : list Pool.event -> list TestCase -> option (exception + list TestResult) :=
  run_all_tests_with (executor self worlds) self.


(** The failure section of [generate_report]: for each failed result, its
    name and the error text that is written. *)
Definition report_failures (results : list TestResult) : list (string * string) :=
  map (fun r =>
         (name (test_case r),
          match error_msg r with
          | Some e => if String.eqb e "" then "Unknown" else slice_to 500 e
          | None => "Unknown"
          end))
      (filter (fun r => negb (success r)) results).

(** What two runs are compared on: the name of each trial and whether it
    succeeded. *)
Definition verdict (r : TestResult) : string * bool :=
  (name (test_case r), success r).

(** The device [run_all_tests] hands to the executor for the [i]-th test
    case: 0 in the serial branch, [gpu_assignments[i]] in the parallel one. *)
Definition slot_of (max_workers : Z) (i : nat) : Z :=
  if (max_workers <=? 1)%Z then 0%Z else (Z.of_nat i mod max_workers)%Z.

(** What the parallel branch appends for the [i]-th test case, given what the
    executor did with it. *)
Definition recorded (exec : nat -> TestCase -> Z -> exception + TestResult)
    (max_workers : Z) (i : nat) (test_case : TestCase) : TestResult :=
  match exec i test_case (Z.of_nat i mod max_workers)%Z with
  | inr result => result
  | inl e =>
      {| test_case := test_case; success := false; duration := 0%Q;
         output_file := ""; gpu_id := (Z.of_nat i mod max_workers)%Z;
         error_msg := Some (message e) |}
  end.


End ParamTest.

(** ** [quick_test.py] *)

Module QuickTest.

(** One entry of [TEST_CASES]: name, description, extra arguments and an
    unused zero. *)
Definition entry : Type := (string * string * list string * Z)%type.

(** The names and arguments of [TEST_CASES]; the descriptions, which are only
    printed, are abbreviated. *)
Definition TEST_CASES : list entry :=
  [ ("baseline", "default", [], 0%Z);
    ("fast", "scale=4, iters=5000",
       ["--downscale-factor"; "4"; "--num-iters"; "5000"], 0%Z);
    ("high_res", "scale=1, iters=15000",
       ["--downscale-factor"; "1"; "--num-iters"; "15000"], 0%Z);
    ("sh1", "sh-degree=1", ["--sh-degree"; "1"; "--num-iters"; "10000"], 0%Z);
    ("ssim_high", "ssim-weight=0.5",
       ["--ssim-weight"; "0.5"; "--num-iters"; "10000"], 0%Z);
    ("frequent_refine", "refine-every=50",
       ["--refine-every"; "50"; "--num-iters"; "10000"], 0%Z);
    ("sensitive_grad", "grad-thresh=0.0001",
       ["--densify-grad-thresh"; "0.0001"; "--num-iters"; "10000"], 0%Z) ].

(** [[i % max_workers for i in range(len(TEST_CASES))]]; the remainder by
    zero raises [ZeroDivisionError]. *)
Definition gpu_assignments (max_workers : Z) : Eff.exception + list Z :=
  if (max_workers =? 0)%Z then
    match TEST_CASES with
    | [] => inr []
    | _ :: _ => inl (Eff.error "integer modulo by zero")
    end
  else
    inr (map (fun i : nat => (Z.of_nat i mod max_workers)%Z)
             (seq 0 (List.length TEST_CASES))).

(** The arguments of the [executor.submit(run_test, ...)] calls of
    [run_parallel], in submission order: name, description, arguments and
    device. *)
Definition submitted (max_workers : Z)
  : Eff.exception + list (string * string * list string * Z) :=
  match gpu_assignments max_workers with
  | inl e => inl e
  | inr gpus =>
      inr (map (fun p : entry * Z =>
                  let '((name, desc, params, _), gpu_id) := p in
                  (name, desc, params, gpu_id))
               (combine TEST_CASES gpus))
  end.

(** The device [main] passes down for the [i]-th entry: [run_parallel] is
    used above one worker, [run_serial], with device 0, otherwise. *)
Definition device_of (parallel : Z) (i : nat) : option Z :=
  if (1 <? parallel)%Z then
    match submitted parallel with
    | inr l => option_map snd (nth_error l i)
    | inl _ => None
    end
  else
    option_map (fun _ => 0%Z) (nth_error TEST_CASES i).

End QuickTest.

(** ** [compare_results.py] *)

Module CompareResults.

Import Py.

(** [@dataclass ModelInfo] *)
Record ModelInfo : Type := {
  name : string;
  file_path : string;
  size_mb : Q;
  num_points : Z
}.

(** *** [parse_ply_header] *)

Definition newline : byte := "010"%byte.

(** [f.readline()] on a binary file: the line with its newline, or what is
    left of the file, or nothing at the end of the file; and the rest of the
    file. *)
Fixpoint readline (f : list byte) : list byte * list byte :=
  match f with
  | [] => ([], [])
  | b :: rest =>
      if Byte.eqb b newline then ([b], rest)
      else let (line, rest') := readline rest in (b :: line, rest')
  end.

Fixpoint bytes_prefix (pat l : list byte) : bool :=
  match pat, l with
  | [], _ => true
  | _ :: _, [] => false
  | p :: pat', b :: l' => Byte.eqb p b && bytes_prefix pat' l'
  end.

(** [pat in l] on [bytes] *)
Fixpoint bytes_contains (pat l : list byte) : bool :=
  bytes_prefix pat l ||
  match l with
  | [] => false
  | _ :: l' => bytes_contains pat l'
  end.

Definition end_header : list byte := list_byte_of_string "end_header".

(** The [while True] loop. One unit of [fuel] is one iteration; [None] means
    that the loop is still running when the fuel is spent. *)
Fixpoint read_header (fuel : nat) (f header : list byte) : option (list byte) :=
  match fuel with
  | O => None
  | S fuel' =>
      let (line, f') := readline f in
      let header := header ++ line in
      if bytes_contains end_header line then Some header
      else if (10000 <? Z.of_nat (List.length header))%Z then Some header
      else read_header fuel' f' header
  end.

(** [header.decode('ascii', errors='ignore')] *)
Definition decode_ascii_ignore (bs : list byte) : string :=
  string_of_list_byte (filter (fun b => (Byte.to_N b <? 128)%N) bs).

Definition digit_value (c : ascii) : option Z :=
  let n := nat_of_ascii c in
  if Nat.leb 48 n && Nat.leb n 57 then Some (Z.of_nat (n - 48)) else None.

(** Digits with single underscores between them. *)
Fixpoint digits_from (acc : Z) (after_digit : bool) (s : string) : option Z :=
  match s with
  | EmptyString => if after_digit then Some acc else None
  | String c rest =>
      match digit_value c with
      | Some d => digits_from (10 * acc + d)%Z true rest
      | None =>
          if Ascii.eqb c "_" && after_digit then digits_from acc false rest
          else None
      end
  end.

(** The value of a decimal literal: an optional sign and decimal digits with
    single underscores between them; [None] for a token that is not one. *)
Definition int_literal (tok : string) : option Z :=
  match tok with
  | String "+" rest => digits_from 0%Z false rest
  | String "-" rest => option_map Z.opp (digits_from 0%Z false rest)
  | _ => digits_from 0%Z false tok
  end.

(** How many decimal digits a token has, leading zeros included; signs and
    underscores do not count. *)
Definition digit_count (tok : string) : nat :=
  List.length
    (filter (fun c => match digit_value c with Some _ => true | None => false end)
            (list_ascii_of_string tok)).

(** The most digits [int] converts: [sys.get_int_max_str_digits()], at its
    default. *)
Definition max_str_digits : Z := 4300.

(** [int(tok)] for a token without blanks, as [str.split] produces them.
    [None] is [ValueError]: the token is not a decimal literal, or it has
    more digits than the interpreter converts. *)
Definition py_int (tok : string) : option Z :=
  if (max_str_digits <? Z.of_nat (digit_count tok))%Z then None
  else int_literal tok.

Inductive raised : Type := OSError | IndexError | ValueError.

(** The [for line in header_str.split('\n')] loop: [inr (Some n)] returns
    [n], [inr None] leaves the loop without returning. *)
Fixpoint scan_lines (lines : list string) : raised + option Z :=
  match lines with
  | [] => inr None
  | line :: rest =>
      if startswith "element vertex" line then
        match nth_error (split_ws line) 2 with
        | None => inl IndexError
        | Some tok =>
            match py_int tok with
            | None => inl ValueError
            | Some n => inr (Some n)
            end
        end
      else scan_lines rest
  end.

(** The body of the [try] block. [file] is the content found at [file_path],
    [None] when [open] raises. The outer [None] is a loop that has not
    stopped within [fuel] iterations. *)
Definition try_block (fuel : nat) (file : option (list byte))
  : option (raised + option Z) :=
  match file with
  | None => Some (inl OSError)
  | Some f =>
      match read_header fuel f [] with
      | None => None
      | Some header =>
          Some (scan_lines (split_on "010"%char (decode_ascii_ignore header)))
      end
  end.

(** [parse_ply_header]: [Some n] when the call returns [n], [None] when it
    is still running after [fuel] iterations of its loop. *)
Definition parse_ply_header (fuel : nat) (file : option (list byte)) : option Z :=
  match try_block fuel file with
  | None => None
  | Some (inr (Some n)) => Some n
  | Some (inr None) => Some 0%Z
  | Some (inl _) => Some 0%Z
  end.

(** *** The grouping of [print_comparison] *)

Inductive group : Type :=
| Iterations | Resolution | SphericalHarmonics | SsimWeight
| RefineEvery | GradThreshold | SizeThreshold | Combined | Others.

(** The test each named group applies to a model name. *)
Definition rule (g : group) (n : string) : bool :=
  match g with
  | Iterations => contains "iters_" n
  | Resolution => contains "scale_" n
  | SphericalHarmonics => contains "sh_" n
  | SsimWeight => contains "ssim_" n
  | RefineEvery => contains "refine_" n
  | GradThreshold => contains "grad_" n
  | SizeThreshold => contains "size_" n
  | Combined => existsb (String.eqb n) ["baseline"; "fast_preview"; "quality"]
  | Others => false
  end.

Definition named_groups : list group :=
  [Iterations; Resolution; SphericalHarmonics; SsimWeight;
   RefineEvery; GradThreshold; SizeThreshold; Combined].

(** A model of the list, with its identity: every element of [models] is an
    object of its own, as [analyze_results] builds them, and [id(m)] is read
    as the position of [m] in the list. *)
Definition object : Type := (nat * ModelInfo)%type.

Definition objects (models : list ModelInfo) : list object :=
  combine (seq 0 (List.length models)) models.

(** The entries of the dictionary [groups] that are filled by a rule, in
    insertion order. *)
Definition named (models : list ModelInfo) : list (group * list object) :=
  map (fun g => (g, filter (fun m : object => rule g (name (snd m))) (objects models)))
      named_groups.

(** The set [assigned]: the identities of the models some rule listed. *)
Definition assigned (models : list ModelInfo) : list nat :=
  flat_map (fun gm : group * list object => map fst (snd gm)) (named models).

(** The dictionary [groups] once the entry of the remaining models is
    filled in. *)
Definition groups (models : list ModelInfo) : list (group * list object) :=
  named models ++
  [(Others,
    filter (fun m : object => negb (existsb (Nat.eqb (fst m)) (assigned models)))
           (objects models))].

Definition group_eqb (a b : group) : bool :=
  match a, b with
  | Iterations, Iterations | Resolution, Resolution
  | SphericalHarmonics, SphericalHarmonics | SsimWeight, SsimWeight
  | RefineEvery, RefineEvery | GradThreshold, GradThreshold
  | SizeThreshold, SizeThreshold | Combined, Combined | Others, Others => true
  | _, _ => false
  end.

(** [groups[g]] *)
Definition members (models : list ModelInfo) (g : group) : list object :=
  flat_map (fun gm : group * list object =>
              if group_eqb g (fst gm) then snd gm else [])
           (groups models).

(** In how many groups an object is listed. *)
Definition appearances (models : list ModelInfo) (m : object) : nat :=
  List.length
    (filter (fun gm : group * list object =>
               existsb (fun m' : object => Nat.eqb (fst m') (fst m)) (snd gm))
            (groups models)).

(** How many of the rules fit a name. *)
Definition matches (n : string) : nat :=
  List.length (filter (fun g => rule g n) named_groups).

End CompareResults.

(** ** Sample inputs *)

Module Samples.

Import Py Eff OS ParamTest.

Definition tester (W : Z) : OpenSplatTester :=
  {| opensplat_path := "./opensplat"; data_path := "./banana";
     output_dir := "./output"; max_workers := W; timeout := 3600 |}.

Definition baseline : TestCase :=
  {| name := "baseline"; description := "baseline configuration";
     params := [("num-iters", "1000")] |}.

Definition scale_2 : TestCase :=
  {| name := "scale_2"; description := "half resolution";
     params := [("downscale-factor", "2"); ("num-iters", "1000")] |}.

Definition sh_1 : TestCase :=
  {| name := "sh_1"; description := "SH degree 1";
     params := [("sh-degree", "1"); ("num-iters", "1000")] |}.

Definition seconds (k : nat) : Q := inject_Z (Z.of_nat (100 + 7 * k)).

(** The tool exits with [status] after twelve seconds, having written
    [errors] to its error stream; the artifact, if asked for, has one
    mebibyte. *)
Definition exits (status : Z) (errors : string) : world :=
  {| environ := [("PATH", "/usr/bin")];
     execute := fun _ _ => Runs (Some (12 # 1)%Q) status "" errors;
     getsize := fun _ => inr 1048576%Z;
     clock := seconds |}.

(** The tool exits with status zero but leaves no artifact. *)
Definition no_artifact : world :=
  {| environ := [("PATH", "/usr/bin")];
     execute := fun _ _ => Runs (Some (12 # 1)%Q) 0 "" "";
     getsize := fun _ => inl "[Errno 2] No such file or directory";
     clock := seconds |}.

(** The tool never exits. *)
Definition hangs : world :=
  {| environ := [];
     execute := fun _ _ => Runs None 0 "" "";
     getsize := fun _ => inl "[Errno 2] No such file or directory";
     clock := seconds |}.

(** The tool is not there. *)
Definition missing_tool : world :=
  {| environ := [];
     execute := fun _ _ => CannotRun "[Errno 2] No such file or directory: './opensplat'";
     getsize := fun _ => inl "[Errno 2] No such file or directory";
     clock := seconds |}.

(** A machine with one device: the tool works on device 0 only. *)
Definition one_device : world :=
  {| environ := [("PATH", "/usr/bin")];
     execute := fun _ env =>
       match dict_get "CUDA_VISIBLE_DEVICES" env with
       | Some "0" => Runs (Some (12 # 1)%Q) 0 "" ""
       | _ => Runs (Some (1 # 1)%Q) 1 "" "no CUDA-capable device is detected"
       end;
     getsize := fun _ => inr 1048576%Z;
     clock := seconds |}.

(** 501 characters of diagnostics. *)
Definition long_errors : string :=
  string_of_list_ascii (repeat "x"%char 501).

(** The start of an artifact with a well-formed header. *)
Definition well_formed : list byte :=
  list_byte_of_string
    ("ply" ++ String "010" "format binary_little_endian 1.0" ++
     String "010" "element vertex 12345" ++
     String "010" "property float x" ++
     String "010" "end_header" ++
     String "010" "....").

(** A header that declares seven points, goes on for 10001 bytes on one
    line and has no terminator. *)
Definition unterminated : list byte :=
  list_byte_of_string ("element vertex 7" ++ String "010" "")
    ++ repeat "x"%byte (Z.to_nat 10001).

(** A header that stops after two lines. *)
Definition truncated : list byte :=
  list_byte_of_string
    ("ply" ++ String "010" "format binary_little_endian 1.0" ++ String "010" "").

Definition model (n : string) : CompareResults.ModelInfo :=
  {| CompareResults.name := n; CompareResults.file_path := "./output/" ++ n ++ ".ply";
     CompareResults.size_mb := (3 # 2)%Q; CompareResults.num_points := 12345%Z |}.

(** Artifacts of a run in which two parameters were varied together, a
    renamed one, and a plain one. *)
Definition varied : list CompareResults.ModelInfo :=
  [model "scale_2_sh_1"; model "my_sh_1"; model "baseline"; model "draft"].

End Samples.

(** ** More of the library: paths, replacement, sorting, extrema *)

Module PyLib.

Fixpoint has_char (c : ascii) (s : string) : bool :=
  match s with
  | EmptyString => false
  | String a rest => Ascii.eqb a c || has_char c rest
  end.

(** [os.path.basename(p)]: what follows the last slash. *)
Fixpoint basename (p : string) : string :=
  match p with
  | EmptyString => ""
  | String _ rest => if has_char "/" p then basename rest else p
  end.

(** What [os.path.basename] leaves out: [p] up to and including its last
    slash. *)
Fixpoint head_of (p : string) : string :=
  match p with
  | EmptyString => ""
  | String c rest => if has_char "/" p then String c (head_of rest) else ""
  end.

(** The first occurrence of [c] in [l]: what precedes it and what follows. *)
Fixpoint break_at (c : ascii) (l : list ascii) : option (list ascii * list ascii) :=
  match l with
  | [] => None
  | a :: rest =>
      if Ascii.eqb a c then Some ([], rest)
      else match break_at c rest with
           | Some (before, after) => Some (a :: before, after)
           | None => None
           end
  end.

(** [os.path.splitext(p)] of [posixpath]: the split is at the last dot of the
    base name, unless that name has nothing but dots before it. *)
Definition splitext (p : string) : string * string :=
  match break_at "." (rev (list_ascii_of_string (basename p))) with
  | None => (p, "")
  | Some (ext_rev, root_rev) =>
      if forallb (Ascii.eqb ".") root_rev then (p, "")
      else ((head_of p ++ string_of_list_ascii (rev root_rev))%string,
            string_of_list_ascii ("."%char :: rev ext_rev))
  end.

(** [s.replace(c, by)] for a one-character [c] *)
Fixpoint replace_char (c : ascii) (by_ : string) (s : string) : string :=
  match s with
  | EmptyString => ""
  | String a rest =>
      if Ascii.eqb a c then (by_ ++ replace_char c by_ rest)%string
      else String a (replace_char c by_ rest)
  end.

(** [s.lstrip()], [s.rstrip()], [s.strip()] *)
Fixpoint lstrip (s : string) : string :=
  match s with
  | EmptyString => ""
  | String c rest => if Py.is_space c then lstrip rest else s
  end.

Fixpoint rstrip (s : string) : string :=
  match s with
  | EmptyString => ""
  | String c rest =>
      match rstrip rest with
      | EmptyString => if Py.is_space c then "" else String c ""
      | kept => String c kept
      end
  end.

Definition strip (s : string) : string := rstrip (lstrip s).

(** [s.lower()], on code points below 256: the letters A to Z and the
    capital letters of Latin-1. *)
Definition lower_char (c : ascii) : ascii :=
  let n := nat_of_ascii c in
  if (Nat.leb 65 n && Nat.leb n 90)
     || (Nat.leb 192 n && Nat.leb n 222 && negb (Nat.eqb n 215))
  then ascii_of_nat (n + 32) else c.

Fixpoint lower (s : string) : string :=
  match s with
  | EmptyString => ""
  | String c rest => String (lower_char c) (lower rest)
  end.

(** A word: a string that is not empty and has no blank. *)
Definition word (s : string) : bool :=
  negb (String.eqb s "") &&
  forallb (fun c => negb (Py.is_space c)) (list_ascii_of_string s).

(** Whether a string has nothing but dots (the empty string has). *)
Definition only_dots (s : string) : bool :=
  forallb (Ascii.eqb ".") (list_ascii_of_string s).

Section Ordering.

Context {A : Type}.

(** [x <= y] on the keys by which a list is ordered. *)
Variable leb : A -> A -> bool.

Fixpoint insert (x : A) (l : list A) : list A :=
  match l with
  | [] => [x]
  | y :: rest => if leb x y then x :: l else y :: insert x rest
  end.

(** [sorted(l)], or [sorted(l, key=...)]: the stable ascending order. An
    element is put before the first one that is not smaller, so that equal
    elements keep their order. *)
Definition sorted (l : list A) : list A := fold_right insert [] l.

(** [max(l, key=...)] and [min(l, key=...)] on a list that is not empty: the
    first of the largest, the first of the smallest. *)
Fixpoint max_from (best : A) (l : list A) : A :=
  match l with
  | [] => best
  | x :: rest => max_from (if leb x best then best else x) rest
  end.

Fixpoint min_from (best : A) (l : list A) : A :=
  match l with
  | [] => best
  | x :: rest => min_from (if leb best x then best else x) rest
  end.

End Ordering.

End PyLib.

(** ** Notions used to state the properties of the command line *)

Module Command.

(** The option a key of [params] becomes in [get_param_str]. *)
Definition flag (k : string) : string :=
  if Py.startswith "-" k then k else ("--" ++ k)%string.

(** One option and its value per parameter, in insertion order. *)
Definition options (params : Py.dict) : list string :=
  flat_map (fun kv : string * string => [flag (fst kv); snd kv]) params.

End Command.

(** ** The test plan of [opensplat_param_test_quick.py] *)

Module Plan.

Import ParamTest.

Definition case (name description : string) (params : Py.dict) : TestCase :=
  {| name := name; description := description; params := params |}.

(** [OpenSplatTester.define_test_cases]. The descriptions are kept as the
    bytes of their UTF-8 encoding; they are only printed. *)
Definition define_test_cases : list TestCase :=
  [ case "baseline" "基准配置（3000次迭代，快速测试）" [("num-iters", "1000")];
    case "scale_1" "原始分辨率（高质量，慢速）"
         [("downscale-factor", "1"); ("num-iters", "1000")];
    case "scale_2" "1/2 分辨率（平衡）"
         [("downscale-factor", "2"); ("num-iters", "1000")];
    case "scale_4" "1/4 分辨率（快速预览）"
         [("downscale-factor", "4"); ("num-iters", "1000")];
    case "sh_1" "SH Degree 1（基础光照，最快）"
         [("sh-degree", "1"); ("num-iters", "1000")];
    case "sh_2" "SH Degree 2（中等光照）"
         [("sh-degree", "2"); ("num-iters", "1000")];
    case "sh_3" "SH Degree 3（默认，完整光照）"
         [("sh-degree", "3"); ("num-iters", "1000")];
    case "ssim_0" "SSIM权重0（纯L1损失）"
         [("ssim-weight", "0"); ("num-iters", "1000")];
    case "ssim_0.2" "SSIM权重0.2（默认平衡）"
         [("ssim-weight", "0.2"); ("num-iters", "1000")];
    case "ssim_0.5" "SSIM权重0.5（更强调结构相似性）"
         [("ssim-weight", "0.5"); ("num-iters", "1000")];
    case "refine_50" "每50步细化（更频繁，更多高斯）"
         [("refine-every", "50"); ("num-iters", "1000")];
    case "refine_100" "每100步细化（默认）"
         [("refine-every", "100"); ("num-iters", "1000")];
    case "refine_200" "每200步细化（更稀疏，更少高斯）"
         [("refine-every", "200"); ("num-iters", "1000")];
    case "grad_0.0001" "梯度阈值0.0001（更敏感，更多分裂）"
         [("densify-grad-thresh", "0.0001"); ("num-iters", "1000")];
    case "grad_0.0002" "梯度阈值0.0002（默认）"
         [("densify-grad-thresh", "0.0002"); ("num-iters", "1000")];
    case "grad_0.0004" "梯度阈值0.0004（较不敏感，较少分裂）"
         [("densify-grad-thresh", "0.0004"); ("num-iters", "1000")];
    case "size_0.005" "尺寸阈值0.005（更多复制）"
         [("densify-size-thresh", "0.005"); ("num-iters", "1000")];
    case "size_0.01" "尺寸阈值0.01（默认）"
         [("densify-size-thresh", "0.01"); ("num-iters", "1000")];
    case "size_0.02" "尺寸阈值0.02（更多分裂）"
         [("densify-size-thresh", "0.02"); ("num-iters", "1000")];
    case "fast_preview" "快速预览配置（牺牲质量换取速度）"
         [("downscale-factor", "4"); ("num-iters", "1000");
          ("sh-degree", "1"); ("refine-every", "200")] ].

(** [run_all_tests(test_cases)] with its default: [None] stands for the
    whole plan. *)
Definition run_all_tests_default (self : OpenSplatTester) (worlds : nat -> OS.world)
    (schedule : list Pool.event) (test_cases : option (list TestCase))
  : option (Eff.exception + list TestResult) :=
  run_all_tests self worlds schedule
    (match test_cases with
     | None => define_test_cases
     | Some l => l
     end).

End Plan.

(** ** The report and [main] of [opensplat_param_test_quick.py] *)

Module Report.

Import Py Eff OS ParamTest PyLib.

(** What [generate_report] does to a table cell: [s.replace("|", "\\|")]
    and then [.replace("\n", " ")]. *)
Definition escape (s : string) : string :=
  replace_char "010" " " (replace_char "|" "\|" s).

(** Whether a bar occurs that does not directly follow a backslash. *)
Fixpoint bare_bar (after_backslash : bool) (s : string) : bool :=
  match s with
  | EmptyString => false
  | String c rest =>
      (Ascii.eqb c "|" && negb after_backslash) || bare_bar (Ascii.eqb c "\") rest
  end.

(** One line of the summary table. [row_params] is [None] where the report
    has the fixed word for a test case without parameters. The duration is
    kept as the number that is then rounded to one decimal. *)
Record row : Type := {
  row_name : string;
  row_description : string;
  row_params : option string;
  row_success : bool;
  row_gpu : Z;
  row_duration : Q;
  row_output : string
}.

Definition table_row (r : TestResult) : row :=
  {| row_name := name (test_case r);
     row_description := escape (description (test_case r));
     row_params :=
       match params (test_case r) with
       | [] => None
       | _ :: _ => Some (escape (get_param_str (test_case r)))
       end;
     row_success := success r;
     row_gpu := gpu_id r;
     row_duration := duration r;
     row_output := basename (output_file r) |}.

(** [generate_report]: the rows of the table and the section of failures;
    the text around them is fixed. *)
Definition generate_report (results : list TestResult)
  : list row * list (string * string) :=
  (map table_row results, report_failures results).

(** The arguments of the command line. *)
Record arguments : Type := {
  parallel : Z;
  output : string;
  yes : bool;
  timeout_seconds : Z;
  only : option string
}.

(** [[n.strip() for n in args.only.split(",")]] *)
Definition only_names (only : string) : list string :=
  map strip (split_on "," only).

(** [tc.name in only_names] *)
Definition named_in (names : list string) (tc : TestCase) : bool :=
  existsb (String.eqb (name tc)) names.

(** The test cases [main] goes on with; [inl 1] is [sys.exit(1)]. An empty
    [--only] counts as none. *)
Definition selection (only : option string) (all : list TestCase)
  : Z + list TestCase :=
  match only with
  | None => inr all
  | Some "" => inr all
  | Some text =>
      match filter (named_in (only_names text)) all with
      | [] => inl 1%Z
      | chosen => inr chosen
      end
  end.

(** [response and response not in ('y', 'yes')], where [response] is
    [input(...).strip().lower()]. *)
Definition declines (typed : string) : bool :=
  let response := lower (strip typed) in
  negb (String.eqb response "") &&
  negb (String.eqb response "y" || String.eqb response "yes").

(** [sum(r.duration for r in results)] *)
Definition total_of (results : list TestResult) : Q :=
  fold_left (fun acc r => (acc + duration r)%Q) results 0%Q.

(** The closing lines of [main]: the number of successes, the sum of the
    durations and, when the run took less than that sum, their quotient.
    The quotient by zero raises. *)
Definition summary (results : list TestResult) (total_duration : Q)
  : exception + (nat * Q * option Q) :=
  let count := List.length (filter success results) in
  let serial := total_of results in
  if negb (Qle_bool serial total_duration) then
    if Qeq_bool total_duration 0 then inl (error "float division by zero")
    else inr (count, serial, Some (serial / total_duration)%Q)
  else inr (count, serial, None).

(** How [main] ends. *)
Inductive ending : Type :=
| Exit (code : Z)
| Uncaught (e : exception)
| Done (results : list TestResult)
       (report : list row * list (string * string))
       (closing : nat * Q * option Q).

(** What [main] finds around it: [present] is [os.path.exists], [makedirs]
    is [os.makedirs], [typed] is what [input] returns or raises, read only
    without [--yes], [writable] is [Some msg] when the report file cannot be
    opened for writing, and [total_duration] is the time measured around
    [run_all_tests]. *)
Record surroundings : Type := {
  present : string -> bool;
  makedirs : string -> option string;
  typed : exception + string;
  writable : string -> option string;
  total_duration : Q
}.

(** [main]. The result is [None] when [schedule] is not a complete run of
    the pool. *)
Definition main (around : surroundings) (args : arguments) (worlds : nat -> world)
    (schedule : list Pool.event) : option ending :=
  if negb (present around "./opensplat") then Some (Exit 1)
  else if negb (present around "./banana") then Some (Exit 1)
  else
    match init (makedirs around) "./opensplat" "./banana" (output args)
               (parallel args) (timeout_seconds args) with
    | inl e => Some (Uncaught e)
    | inr tester =>
        match selection (only args) Plan.define_test_cases with
        | inl code => Some (Exit code)
        | inr test_cases =>
            match (if yes args then inr false
                   else match typed around with
                        | inl e => inl e
                        | inr text => inr (declines text)
                        end) with
            | inl e => Some (Uncaught e)
            | inr true => Some (Exit 0)
            | inr false =>
                match run_all_tests tester worlds schedule test_cases with
                | None => None
                | Some (inl e) => Some (Uncaught e)
                | Some (inr results) =>
                    match writable around (path_join (output_dir tester) "report.md") with
                    | Some msg => Some (Uncaught (error msg))
                    | None =>
                        match summary results (total_duration around) with
                        | inl e => Some (Uncaught e)
                        | inr closing =>
                            Some (Done results (generate_report results) closing)
                        end
                    end
                end
            end
        end
    end.

End Report.

(** ** The runs of [quick_test.py] *)

Module QuickRun.

Import Py Eff OS QuickTest.
Local Open Scope eff_scope.

(** What a call does: it may never return, raise or return. *)
Inductive behaviour (A : Type) : Type :=
| NeverReturns
| Raises (e : exception)
| Returns (a : A).

Arguments NeverReturns {A}.
Arguments Raises {A} e.
Arguments Returns {A} a.

(** [subprocess.run(cmd, capture_output=True, text=True, env=env)]: without
    a time-out the call waits for the tool, however long. [None] is a call
    that never returns. *)
Definition subprocess_wait (p : process) : option (exception + completed) :=
  match p with
  | CannotRun msg => Some (inl (error msg))
  | Runs None _ _ _ => None
  | Runs (Some _) rc out err =>
      Some (inr {| returncode := rc; stdout := out; stderr := err |})
  end.

(** The tuple [run_test] returns: name, description, success, duration,
    size in mebibytes and device. *)
Definition result : Type := (string * string * bool * Q * Q * Z)%type.

Inductive console_line : Type :=
| Rule
| Title (gpu : Z) (name : string)
| Described (description : string)
| Command (gpu : Z) (cmd : string)
| Succeeded (gpu : Z) (name : string) (duration size_mb : Q)
| Failed (gpu : Z) (name : string) (shown : string).

(** [run_test], with the global [OUTPUT_DIR] as an argument. [None] is a
    call that never returns. Nothing is caught. *)
Definition run_test (OUTPUT_DIR : string) (w : world) (name desc : string)
    (params : list string) (gpu_id : Z) : option (M console_line result) :=
  let output_file := path_join OUTPUT_DIR (name ++ ".ply") in
  let cmd := ["./opensplat"; "-o"; output_file] ++ params ++ ["./banana"] in
  let env := dict_set "CUDA_VISIBLE_DEVICES" (str_of_int gpu_id) (environ w) in
  match subprocess_wait (execute w cmd env) with
  | None => None
  | Some ran =>
      Some
        (print Rule ;;
         print (Title gpu_id name) ;;
         print (Described desc) ;;
         print (Command gpu_id (join " " cmd)) ;;
         print Rule ;;
         start <- now (clock w) ;;
         result <- call ran ;;
         t <- now (clock w) ;;
         let duration := (t - start)%Q in
         if (returncode result =? 0)%Z then
           size <- call (os_path_getsize w output_file) ;;
           let size_mb := (inject_Z size / inject_Z (1024 * 1024))%Q in
           print (Succeeded gpu_id name duration size_mb) ;;
           ret (name, desc, true, duration, size_mb, gpu_id)
         else
           let error :=
             if String.eqb (stderr result) "" then "Unknown"
             else slice_to 200 (stderr result) in
           print (Failed gpu_id name error) ;;
           ret (name, desc, false, duration, 0%Q, gpu_id))
  end.

(** What one call of [run_test] does, seen from its caller. *)
Definition attempt (OUTPUT_DIR : string) (w : world) (e : entry) (gpu_id : Z)
  : behaviour result :=
  let '(name, desc, params, _) := e in
  match run_test OUTPUT_DIR w name desc params gpu_id with
  | None => NeverReturns
  | Some m =>
      match fst (m Eff.start) with
      | inl e => Raises e
      | inr r => Returns r
      end
  end.

(** The loop of [run_serial], from the [i]-th entry on. *)
Fixpoint run_serial_from (OUTPUT_DIR : string) (worlds : nat -> world) (i : nat)
    (cases : list entry) (results : list result) : behaviour (list result) :=
  match cases with
  | [] => Returns results
  | e :: rest =>
      match attempt OUTPUT_DIR (worlds i) e 0%Z with
      | NeverReturns => NeverReturns
      | Raises x => Raises x
      | Returns r => run_serial_from OUTPUT_DIR worlds (S i) rest (results ++ [r])
      end
  end.

(** [run_serial] *)
Definition run_serial (OUTPUT_DIR : string) (worlds : nat -> world)
  : behaviour (list result) :=
  run_serial_from OUTPUT_DIR worlds 0 TEST_CASES [].

(** One submission of [run_parallel]: the position, the entry, the device. *)
Definition task : Type := (nat * (entry * Z))%type.

Definition attempt_of (OUTPUT_DIR : string) (worlds : nat -> world) (t : task)
  : behaviour result :=
  let '(i, (e, gpu_id)) := t in attempt OUTPUT_DIR (worlds i) e gpu_id.

(** What the future of a submission holds once its call is over. A call
    that never returns leaves no future to look at: the run that has one is
    set apart in [run_parallel] and this value is not read. *)
Definition work (OUTPUT_DIR : string) (worlds : nat -> world) (t : task)
  : exception + result :=
  match attempt_of OUTPUT_DIR worlds t with
  | Returns r => inr r
  | Raises e => inl e
  | NeverReturns => inl (error "")
  end.

(** The body of the [for future in as_completed(...)] loop: the tuple that
    is appended. *)
Definition collect (gpu_assignments : list Z) (f : Pool.future (T := task))
  : result :=
  let '((index, ((name, _, _, _), _)), outcome) := f in
  match outcome with
  | inr r => r
  | inl _ =>
      (name,
       match nth_error TEST_CASES index with
       | Some (_, desc, _, _) => desc
       | None => ""
       end,
       false, 0%Q, 0%Q, nth index gpu_assignments 0%Z)
  end.

(** What the loop of [run_parallel] appends for the [i]-th entry: the tuple
    [run_test] returned with the device [i mod max_workers], or a failure
    without duration and size in place of the exception it raised. *)
Definition recorded (OUTPUT_DIR : string) (worlds : nat -> world)
    (max_workers : Z) (p : nat * entry) : result :=
  let '(i, (name, desc, params, unused)) := p in
  let gpu_id := (Z.of_nat i mod max_workers)%Z in
  match attempt OUTPUT_DIR (worlds i) (name, desc, params, unused) gpu_id with
  | Returns r => r
  | _ => (name, desc, false, 0%Q, 0%Q, gpu_id)
  end.

(** Whether the call of [run_test] for a submission never returns. *)
Definition hangs (OUTPUT_DIR : string) (worlds : nat -> world) (t : task) : bool :=
  match attempt_of OUTPUT_DIR worlds t with
  | NeverReturns => true
  | _ => false
  end.

(** [run_parallel]. The result is [None] when [schedule] is not a complete
    run of the pool. The loop over [as_completed] ends only when every call
    is over. *)
Definition run_parallel (OUTPUT_DIR : string) (worlds : nat -> world)
    (max_workers : Z) (schedule : list Pool.event)
  : option (behaviour (list result)) :=
  match QuickTest.gpu_assignments max_workers with
  | inl e => Some (Raises e)
  | inr gpu_assignments =>
      match Pool.create max_workers with
      | inl e => Some (Raises e)
      | inr W =>
          let tasks := ParamTest.enumerate (combine TEST_CASES gpu_assignments) in
          if existsb (hangs OUTPUT_DIR worlds) tasks
          then Some NeverReturns
          else
            match Pool.as_completed (work OUTPUT_DIR worlds) W tasks schedule with
            | Some futures => Some (Returns (map (collect gpu_assignments) futures))
            | None => None
            end
      end
  end.

(** The part of [main] that produces the results: the directory is made,
    then one of the two runs is chosen. *)
Definition main_results (makedirs : string -> option string) (output : string)
    (parallel : Z) (worlds : nat -> world) (schedule : list Pool.event)
  : option (behaviour (list result)) :=
  match makedirs output with
  | Some msg => Some (Raises (error msg))
  | None =>
      if (1 <? parallel)%Z then run_parallel output worlds parallel schedule
      else Some (run_serial output worlds)
  end.

(** The counts of the summary of [main]. *)
Definition success_count (results : list result) : nat :=
  List.length (filter (fun r : result => let '(_, _, ok, _, _, _) := r in ok) results).

End QuickRun.

(** ** The analysis of [compare_results.py] *)

Module Analysis.

Import Py Eff PyLib CompareResults.

(** What the file system answers about the files of the output directory.
    [size_of] is [os.path.getsize]: the size in bytes, or the message of the
    [OSError] it raises. [opened] is what [open(p, 'rb')] gives to read,
    [None] where it raises. The two are asked one after the other and need
    not agree: a file can have a size and refuse to be opened, and it can
    change in between. *)
Record files : Type := {
  size_of : string -> string + N;
  opened : string -> option (list byte)
}.

(** [os.path.getsize(p) / (1024 * 1024)] for a file of [n] bytes. The
    quotient of the two integers is exact here: a size is a multiple of one
    byte and far below the sizes at which the division would overflow or
    round. *)
Definition megabytes (n : N) : Q :=
  (inject_Z (Z.of_N n) / inject_Z (1024 * 1024))%Q.

(** The loop of [analyze_results] over the sorted paths. [None] is a call of
    [parse_ply_header] that is still running after [fuel] iterations of its
    loop; [inl] is the [OSError] of [os.path.getsize], which nothing
    catches. *)
Fixpoint analyze_each (fuel : nat) (fs : files) (paths : list string)
    (models : list ModelInfo) : option (exception + list ModelInfo) :=
  match paths with
  | [] => Some (inr models)
  | file_path :: rest =>
      let name := fst (splitext (basename file_path)) in
      match size_of fs file_path with
      | inl msg => Some (inl (error msg))
      | inr size =>
          match parse_ply_header fuel (opened fs file_path) with
          | None => None
          | Some num_points =>
              analyze_each fuel fs rest
                (models ++ [{| name := name; file_path := file_path;
                               size_mb := megabytes size;
                               num_points := num_points |}])
          end
      end
  end.

(** [analyze_results], given what [glob.glob] returned. *)
Definition analyze_results (fuel : nat) (ply_files : list string) (fs : files)
  : option (exception + list ModelInfo) :=
  analyze_each fuel fs (sorted String.leb ply_files) [].

Definition smaller (a b : ModelInfo) : bool := Qle_bool (size_mb a) (size_mb b).

(** The group tables that are printed: a group without members is skipped,
    the others list their members by ascending size. *)
Definition shown_groups (models : list ModelInfo) : list (group * list ModelInfo) :=
  filter (fun gm : group * list ModelInfo =>
            match snd gm with
            | [] => false
            | _ :: _ => true
            end)
         (map (fun gm : group * list object =>
                 (fst gm, sorted smaller (map snd (snd gm))))
              (groups models)).

(** *** The divisions of [print_comparison] *)

(** [a / b] for two [float]s: only a zero divisor raises. *)
Definition float_div (a b : Q) : exception + Q :=
  if Qeq_bool b 0 then inl (error "float division by zero")
  else inr (a / b)%Q.

(** The largest [float] is [2^1024 - 2^971]; a number at or above
    [2^1024 - 2^970], half-way to [2^1024], does not round to a [float]. *)
Definition overflow_bound : Z := (2 ^ 1024 - 2 ^ 970)%Z.

(** [a / b] for two [int]s: the quotient is computed exactly and then
    rounded, and a quotient that does not round to a [float] raises
    [OverflowError]. *)
Definition int_div (a b : Z) : exception + Q :=
  if (b =? 0)%Z then inl (error "division by zero")
  else
    let q := (inject_Z a / inject_Z b)%Q in
    if Qle_bool (inject_Z overflow_bound) q || Qle_bool q (inject_Z (- overflow_bound))
    then inl (error "integer division result too large for a float")
    else inr q.

(** [(m.size_mb / (m.num_points / 10000)) if m.num_points > 0 else 0] *)
Definition efficiency (m : ModelInfo) : exception + Q :=
  if (0 <? num_points m)%Z then
    match int_div (num_points m) 10000 with
    | inl e => inl e
    | inr ten_thousands => float_div (size_mb m) ten_thousands
    end
  else inr 0%Q.

(** The rows of one table, each model with its efficiency; the first
    exception ends the loop. *)
Fixpoint table_rows (ms : list ModelInfo) : exception + list (ModelInfo * Q) :=
  match ms with
  | [] => inr []
  | m :: rest =>
      match efficiency m with
      | inl e => inl e
      | inr eff =>
          match table_rows rest with
          | inl e => inl e
          | inr rows => inr ((m, eff) :: rows)
          end
      end
  end.

Fixpoint tables (shown : list (group * list ModelInfo))
  : exception + list (group * list (ModelInfo * Q)) :=
  match shown with
  | [] => inr []
  | (g, ms) :: rest =>
      match table_rows ms with
      | inl e => inl e
      | inr rows =>
          match tables rest with
          | inl e => inl e
          | inr others => inr ((g, rows) :: others)
          end
      end
  end.

(** [sum(l)]: from zero, left to right. *)
Definition sum_Q (l : list Q) : Q := fold_left Qplus l 0%Q.

Definition sum_Z (l : list Z) : Z := fold_left Z.add l 0%Z.

(** The overall statistics: the number of models, the least, the largest and
    the mean size and, when some model has points, the least, the largest
    and the mean number of points. *)
Record statistics : Type := {
  models_count : nat;
  least_size : Q;
  largest_size : Q;
  mean_size : Q;
  points_range : option (Z * Z * Q)
}.

Definition overall (models : list ModelInfo) : exception + option statistics :=
  match map size_mb models with
  | [] => inr None
  | s :: sizes =>
      match float_div (sum_Q (s :: sizes))
                      (inject_Z (Z.of_nat (List.length (s :: sizes)))) with
      | inl e => inl e
      | inr mean =>
          let summary range :=
            {| models_count := List.length models;
               least_size := min_from Qle_bool s sizes;
               largest_size := max_from Qle_bool s sizes;
               mean_size := mean;
               points_range := range |} in
          match filter (fun n => (0 <? n)%Z) (map num_points models) with
          | [] => inr (Some (summary None))
          | p :: points =>
              match int_div (sum_Z (p :: points))
                            (Z.of_nat (List.length (p :: points))) with
              | inl e => inl e
              | inr mean_points =>
                  inr (Some (summary (Some (min_from Z.leb p points,
                                            max_from Z.leb p points,
                                            mean_points))))
              end
          end
      end
  end.

(** The extremal analysis: the largest and the smallest model and the
    quotient of their sizes; nothing for an empty list. *)
Definition extremes (models : list ModelInfo)
  : exception + option (ModelInfo * ModelInfo * Q) :=
  match models with
  | [] => inr None
  | m :: rest =>
      let largest := max_from smaller m rest in
      let smallest := min_from smaller m rest in
      match float_div (size_mb largest) (size_mb smallest) with
      | inl e => inl e
      | inr ratio => inr (Some (largest, smallest, ratio))
      end
  end.

(** What [print_comparison] shows when it returns. *)
Definition view : Type :=
  (list (group * list (ModelInfo * Q)) * option statistics
   * option (ModelInfo * ModelInfo * Q))%type.

(** [print_comparison]: what is shown, or the exception that ends it. *)
Definition print_comparison (models : list ModelInfo) : exception + view :=
  match tables (shown_groups models) with
  | inl e => inl e
  | inr shown =>
      match overall models with
      | inl e => inl e
      | inr stats =>
          match extremes models with
          | inl e => inl e
          | inr found => inr (shown, stats, found)
          end
      end
  end.

(** How [main] ends. *)
Inductive ending : Type :=
| Exit (code : Z)
| Uncaught (e : exception)
| Shown (models : list ModelInfo) (shown : view).

(** [main], given whether the directory is there and what is in it; [None]
    is a call that is still running after [fuel] iterations of a parser
    loop. *)
Definition main (present : bool) (fuel : nat) (ply_files : list string) (fs : files)
  : option ending :=
  if negb present then Some (Exit 1)
  else
    match analyze_results fuel ply_files fs with
    | None => None
    | Some (inl e) => Some (Uncaught e)
    | Some (inr []) => Some (Exit 1)
    | Some (inr models) =>
        match print_comparison models with
        | inl e => Some (Uncaught e)
        | inr shown => Some (Shown models shown)
        end
    end.

End Analysis.

(** ** More sample data *)

Module Scenes.

Import Py Eff OS ParamTest.

(** What [print] raises on a console with strict UTF-8 output for the line
    that shows a description with a lone surrogate. *)
Definition refused : string :=
  "'utf-8' codec can't encode character '\udcff' in position 4: surrogates not allowed".

(** An executor whose call for the second test case raises, as
    [run_single_test] does when the console refuses what it prints before
    its [try] block; the other calls are those of [run_single_test] with a
    tool that exits with status zero. *)
Definition faulty (self : OpenSplatTester)
  : nat -> TestCase -> Z -> exception + TestResult :=
  fun i test_case gpu_id =>
    if Nat.eqb i 1 then inl (error refused)
    else outcome self (Samples.exits 0 "") test_case gpu_id.

(** Everything [main] needs is there and the user agrees. *)
Definition ready : Report.surroundings :=
  {| Report.present := fun _ => true;
     Report.makedirs := fun _ => None;
     Report.typed := inr "Y ";
     Report.writable := fun _ => None;
     Report.total_duration := (20 # 1)%Q |}.

(** [-p 1 --only baseline] *)
Definition one_test : Report.arguments :=
  {| Report.parallel := 1; Report.output := "./output"; Report.yes := false;
     Report.timeout_seconds := 3600; Report.only := Some "baseline" |}.

(** The size [os.path.getsize] reports for a file that holds [bytes]. *)
Definition size (bytes : list byte) : string + N :=
  inr (N.of_nat (List.length bytes)).

(** An output directory with two artifacts: one with a well-formed header
    and one whose header has no terminator. *)
Definition artifacts : Analysis.files :=
  {| Analysis.size_of := fun p =>
       if String.eqb p "./output/baseline.ply" then size Samples.well_formed
       else if String.eqb p "./output/sh_1.ply" then size Samples.unterminated
       else inl "[Errno 2] No such file or directory";
     Analysis.opened := fun p =>
       if String.eqb p "./output/baseline.ply" then Some Samples.well_formed
       else if String.eqb p "./output/sh_1.ply" then Some Samples.unterminated
       else None |}.

(** What [glob] found there, in some order. *)
Definition found : list string := ["./output/sh_1.ply"; "./output/baseline.ply"].

(** The same directory after a trial was interrupted while it wrote its
    artifact. *)
Definition interrupted : Analysis.files :=
  {| Analysis.size_of := fun p =>
       if String.eqb p "./output/scale_2.ply" then size Samples.truncated
       else Analysis.size_of artifacts p;
     Analysis.opened := fun p =>
       if String.eqb p "./output/scale_2.ply" then Some Samples.truncated
       else Analysis.opened artifacts p |}.

(** The same directory with an empty artifact that its owner alone may
    read: it has a size and cannot be opened. *)
Definition unreadable : Analysis.files :=
  {| Analysis.size_of := fun p =>
       if String.eqb p "./output/scale_2.ply" then inr 0%N
       else Analysis.size_of artifacts p;
     Analysis.opened := fun p =>
       if String.eqb p "./output/scale_2.ply" then None
       else Analysis.opened artifacts p |}.

(** A model whose header declares [10^313] points. *)
Definition huge : CompareResults.ModelInfo :=
  {| CompareResults.name := "scale_1";
     CompareResults.file_path := "./output/scale_1.ply";
     CompareResults.size_mb := (3 # 2)%Q;
     CompareResults.num_points := (10 ^ 313)%Z |}.

End Scenes.

(** ** Well-formed headers of artifacts *)

Module Ply.

Import Py PyLib CompareResults.

(** The bytes of a line of text, with its newline. *)
Definition line (l : string) : list byte := list_byte_of_string l ++ [newline].

(** A line of ASCII text, without newline, that does not contain the
    terminator. *)
Definition plain (l : string) : bool :=
  forallb (fun c => Nat.ltb (nat_of_ascii c) 128) (list_ascii_of_string l)
  && negb (has_char "010" l)
  && negb (contains "end_header" l).

(** The declaration of the number of points, the count in decimal. *)
Definition element_vertex (count : Z) : string :=
  "element vertex " ++ str_of_int count.

(** A header that declares [count] points: any plain lines, none of which
    begins as the declaration does, the declaration, more plain lines, and
    the terminator. *)
Definition header (before : list string) (count : Z) (after : list string)
  : list byte :=
  List.concat (map line (before ++ element_vertex count :: after)) ++ line "end_header".

Definition well_formed (before after : list string) : bool :=
  forallb plain before && forallb plain after
  && forallb (fun l => negb (startswith "element vertex" l)) before.

End Ply.

(** * Properties *)

(** ** The worker pool *)

Module PoolFacts.

Import Pool.

Lemma take_nth_perm {A : Type} (k : nat) (l : list A) (x : A) (rest : list A) :
  take_nth k l = Some (x, rest) -> Permutation l (x :: rest).
Proof.
  revert k x rest.
  induction l as [|a l IH]; intros k x rest H; simpl in H.
  - discriminate.
  - destruct k as [|k].
    + injection H as <- <-. reflexivity.
    + destruct (take_nth k l) as [[y rest']|] eqn:E; [|discriminate].
      injection H as <- <-.
      rewrite (IH _ _ _ E). apply perm_swap.
Qed.

Lemma take_nth_length {A : Type} (k : nat) (l : list A) (x : A) (rest : list A) :
  take_nth k l = Some (x, rest) -> List.length l = S (List.length rest).
Proof.
  intros H. apply take_nth_perm in H.
  apply Permutation_length in H. exact H.
Qed.

Section Facts.

Context {T R : Type}.
Variable work : T -> Eff.exception + R.

#[local] Abbreviation state := (Pool.state (T := T) (R := R)).

Lemma step_accounted (W : Z) (e : event) (s s' : state) (tasks : list T) :
  step work W e s = Some s' -> accounted work tasks s -> accounted work tasks s'.
Proof.
  unfold accounted. intros Hstep Hacc.
  rewrite <- Hacc. clear Hacc.
  destruct e as [|k|k]; simpl in Hstep.
  - destruct (queue s) as [|t q]; [discriminate|].
    destruct (Z.of_nat (List.length (active s)) <? W)%Z; [|discriminate].
    injection Hstep as <-. cbn [queue active finished yielded].
    apply Permutation_app_tail, Permutation_map.
    rewrite app_assoc. symmetry. apply Permutation_cons_append.
  - destruct (take_nth k (active s)) as [[t rest]|] eqn:E; [|discriminate].
    injection Hstep as <-. cbn [queue active finished yielded].
    apply take_nth_perm in E.
    rewrite !map_app, <- !app_assoc.
    apply Permutation_app_head.
    rewrite E. cbn [map app].
    rewrite !app_assoc. symmetry. apply Permutation_middle.
  - destruct (take_nth k (finished s)) as [[f rest]|] eqn:E; [|discriminate].
    injection Hstep as <-. cbn [queue active finished yielded].
    apply take_nth_perm in E.
    apply Permutation_app_head.
    rewrite E. cbn [app].
    rewrite app_assoc. symmetry. apply Permutation_cons_append.
Qed.

Lemma step_remaining (W : Z) (e : event) (s s' : state) :
  step work W e s = Some s' -> remaining s = S (remaining s').
Proof.
  unfold remaining. intros Hstep.
  destruct e as [|k|k]; simpl in Hstep.
  - destruct (queue s) as [|t q]; [discriminate|].
    destruct (Z.of_nat (List.length (active s)) <? W)%Z; [|discriminate].
    injection Hstep as <-. simpl. rewrite length_app. simpl. lia.
  - destruct (take_nth k (active s)) as [[t rest]|] eqn:E; [|discriminate].
    injection Hstep as <-. simpl.
    apply take_nth_length in E. rewrite length_app, E. simpl. lia.
  - destruct (take_nth k (finished s)) as [[f rest]|] eqn:E; [|discriminate].
    injection Hstep as <-. simpl.
    apply take_nth_length in E. rewrite E. lia.
Qed.

Lemma run_app (W : Z) (es1 es2 : list event) (s : state) :
  run work W (es1 ++ es2) s =
  match run work W es1 s with
  | Some s' => run work W es2 s'
  | None => None
  end.
Proof.
  revert s. induction es1 as [|e es1 IH]; intros s; simpl.
  - reflexivity.
  - destruct (step work W e s); [apply IH | reflexivity].
Qed.

Lemma run_accounted (W : Z) (es : list event) (s s' : state) (tasks : list T) :
  run work W es s = Some s' -> accounted work tasks s -> accounted work tasks s'.
Proof.
  revert s. induction es as [|e es IH]; intros s Hrun Hacc; simpl in Hrun.
  - injection Hrun as <-. exact Hacc.
  - destruct (step work W e s) as [s1|] eqn:E; [|discriminate].
    eapply IH; [exact Hrun|]. eapply step_accounted; eauto.
Qed.

Lemma run_remaining (W : Z) (es : list event) (s s' : state) :
  run work W es s = Some s' -> remaining s = List.length es + remaining s'.
Proof.
  revert s. induction es as [|e es IH]; intros s Hrun; simpl in Hrun.
  - injection Hrun as <-. reflexivity.
  - destruct (step work W e s) as [s1|] eqn:E; [|discriminate].
    apply step_remaining in E. apply IH in Hrun. simpl. lia.
Qed.

Lemma idle_true (s : state) :
  idle s = true -> queue s = [] /\ active s = [] /\ finished s = [].
Proof.
  unfold idle.
  destruct (queue s), (active s), (finished s); intros H;
    try discriminate; auto.
Qed.

Lemma submit_all_accounted (tasks : list T) :
  accounted work tasks (submit_all tasks).
Proof.
  unfold accounted, submit_all. simpl. rewrite !app_nil_r. reflexivity.
Qed.

(** What [as_completed] yields is, up to order, one future per submitted
    task, holding what that task produced. *)
Lemma as_completed_perm (W : Z) (tasks : list T) (es : list event)
    (fs : list (future (T := T) (R := R))) :
  as_completed work W tasks es = Some fs ->
  Permutation fs (map (settle work) tasks).
Proof.
  unfold as_completed. intros H.
  destruct (run work W es (submit_all tasks)) as [s|] eqn:E; [|discriminate].
  destruct (idle s) eqn:I; [|discriminate].
  injection H as <-.
  pose proof (run_accounted _ _ _ _ tasks E (submit_all_accounted tasks)) as Hacc.
  apply idle_true in I. destruct I as (Hq & Ha & Hf).
  unfold accounted in Hacc. rewrite Hq, Ha, Hf in Hacc. simpl in Hacc.
  exact Hacc.
Qed.

(** A complete run takes three events per task. *)
Lemma as_completed_events (W : Z) (tasks : list T) (es : list event)
    (fs : list (future (T := T) (R := R))) :
  as_completed work W tasks es = Some fs ->
  List.length es = 3 * List.length tasks.
Proof.
  unfold as_completed. intros H.
  destruct (run work W es (submit_all tasks)) as [s|] eqn:E; [|discriminate].
  destruct (idle s) eqn:I; [|discriminate].
  apply run_remaining in E.
  apply idle_true in I. destruct I as (Hq & Ha & Hf).
  unfold remaining in E. rewrite Hq, Ha, Hf in E. simpl in E. lia.
Qed.

Lemma run_fifo (W : Z) (q : list T) (ys : list (future (T := T) (R := R))) :
  (1 <= W)%Z ->
  run work W (fifo (List.length q))
      {| queue := q; active := []; finished := []; yielded := ys |}
  = Some {| queue := []; active := []; finished := [];
            yielded := ys ++ map (settle work) q |}.
Proof.
  intros HW. revert ys.
  induction q as [|t q IH]; intros ys; simpl.
  - rewrite app_nil_r. reflexivity.
  - destruct (0 <? W)%Z eqn:E; [|apply Z.ltb_ge in E; lia].
    simpl. rewrite IH. rewrite <- app_assoc. reflexivity.
Qed.

Lemma as_completed_fifo (W : Z) (tasks : list T) :
  (1 <= W)%Z ->
  as_completed work W tasks (fifo (List.length tasks))
  = Some (map (settle work) tasks).
Proof.
  intros HW. unfold as_completed, submit_all.
  rewrite run_fifo by exact HW. reflexivity.
Qed.

Lemma run_finish_all (W : Z) (q a : list T)
    (f ys : list (future (T := T) (R := R))) :
  run work W (repeat (Finish 0) (List.length a))
      {| queue := q; active := a; finished := f; yielded := ys |}
  = Some {| queue := q; active := []; finished := f ++ map (settle work) a;
            yielded := ys |}.
Proof.
  revert f. induction a as [|t a IH]; intros f; simpl.
  - rewrite app_nil_r. reflexivity.
  - rewrite IH. rewrite <- app_assoc. reflexivity.
Qed.

Lemma run_yield_all (W : Z) (q : list T)
    (f ys : list (future (T := T) (R := R))) :
  run work W (repeat (Yield 0) (List.length f))
      {| queue := q; active := []; finished := f; yielded := ys |}
  = Some {| queue := q; active := []; finished := []; yielded := ys ++ f |}.
Proof.
  revert ys. induction f as [|x f IH]; intros ys; simpl.
  - rewrite app_nil_r. reflexivity.
  - rewrite IH. rewrite <- app_assoc. reflexivity.
Qed.

(** However far the pool has got, it can finish: no state is stuck. *)
Lemma run_drain (W : Z) (s : state) :
  (1 <= W)%Z ->
  exists s', run work W (drain s) s = Some s' /\ idle s' = true.
Proof.
  intros HW. destruct s as [q a f ys]. unfold drain. simpl.
  rewrite run_app, run_finish_all.
  replace (List.length a + List.length f)
    with (List.length (f ++ map (settle work) a))
    by (rewrite length_app, length_map; lia).
  rewrite run_app, run_yield_all, run_fifo by exact HW.
  eexists. split; reflexivity.
Qed.

(** Every partial run of the pool extends to a complete one. *)
Lemma as_completed_extends (W : Z) (tasks : list T) (es : list event) (s : state) :
  (1 <= W)%Z ->
  run work W es (submit_all tasks) = Some s ->
  exists fs, as_completed work W tasks (es ++ drain s) = Some fs.
Proof.
  intros HW Hrun.
  destruct (run_drain W s HW) as (s' & Hd & Hi).
  exists (yielded s'). unfold as_completed.
  rewrite run_app, Hrun, Hd, Hi. reflexivity.
Qed.

End Facts.

End PoolFacts.

(** ** The executor: [run_single_test] *)

Module ExecutorFacts.

Import Py Eff OS ParamTest.

Lemma startswith_slash_ply (n : string) :
  startswith "/" (n ++ ".ply") = startswith "/" n.
Proof.
  destruct n as [|c n]; [reflexivity|].
  unfold startswith. cbn [String.append String.prefix].
  destruct (ascii_dec "/" c); [|reflexivity].
  destruct n; reflexivity.
Qed.

Lemma slice_to_length (n : nat) (s : string) :
  String.length (slice_to n s) <= n.
Proof.
  unfold slice_to. revert s.
  induction n as [|n IH]; intros s.
  - destruct s; simpl; lia.
  - destruct s as [|c s]; simpl; [lia|].
    specialize (IH s). lia.
Qed.

(** The four ways out of [run_single_test], and a fifth: a zero status
    whose artifact cannot be measured. Each of them is a normal return. *)
Lemma run_single_test_cases (self : OpenSplatTester) (w : world)
    (tc : TestCase) (gpu : Z) (s : state console_line) :
  exists r s',
    run_single_test self w tc gpu s = (inr r, s') /\
    test_case r = tc /\
    output_file r = output_file_of self tc /\
    gpu_id r = gpu /\
    match subprocess_run (timeout self) (execute w (cmd_of self tc) (env_of w gpu)) with
    | inl e =>
        success r = false /\
        error_msg r = Some (if timeout_expired e then "Timeout" else message e) /\
        duration r = (clock w (S (ticks s)) - clock w (ticks s))%Q
    | inr c =>
        if (returncode c =? 0)%Z then
          match getsize w (output_file_of self tc) with
          | inr _ =>
              success r = true /\ error_msg r = None /\
              duration r = (clock w (S (ticks s)) - clock w (ticks s))%Q
          | inl msg =>
              success r = false /\ error_msg r = Some msg /\
              duration r = (clock w (S (S (ticks s))) - clock w (ticks s))%Q
          end
        else
          success r = false /\
          error_msg r =
            Some (if String.eqb (stderr c) "" then "Unknown error" else stderr c) /\
          duration r = (clock w (S (ticks s)) - clock w (ticks s))%Q
    end.
Proof.
  unfold run_single_test, bind, try_except, call, print, now, ret.
  cbn [fst snd printed ticks].
  destruct (subprocess_run (timeout self)
              (execute w (cmd_of self tc) (env_of w gpu))) as [e|c].
  - destruct (timeout_expired e); do 2 eexists; repeat split.
  - destruct (returncode c =? 0)%Z.
    + unfold os_path_getsize.
      destruct (getsize w (output_file_of self tc)) as [msg|n];
        do 2 eexists; repeat split.
    + do 2 eexists; repeat split.
Qed.

(** The executor never raises. *)
Lemma outcome_returns (self : OpenSplatTester) (w : world) (tc : TestCase) (gpu : Z) :
  exists r, outcome self w tc gpu = inr r /\
            test_case r = tc /\ output_file r = output_file_of self tc /\
            gpu_id r = gpu.
Proof.
  destruct (run_single_test_cases self w tc gpu Eff.start)
    as (r & s' & Hrun & Htc & Hout & Hgpu & _).
  exists r. unfold outcome. rewrite Hrun. auto.
Qed.

(** C10. Whatever way [run_single_test] ends (zero status, non-zero status,
    time-out, exception at launch, or a zero status whose artifact cannot be
    measured), it returns a result whose [output_file] is the derived path
    [os.path.join(output_dir, name + ".ply")], that is
    [output_dir/name.ply] unless the directory is empty or ends with a slash
    or the name is absolute, and whose [gpu_id] is the device slot it was
    called with. *)
Theorem run_single_test_records_path_and_slot
    (self : OpenSplatTester) (w : world) (tc : TestCase) (gpu : Z)
    (s : state console_line) :
  exists r s',
    run_single_test self w tc gpu s = (inr r, s') /\
    output_file r = path_join (output_dir self) (name tc ++ ".ply") /\
    output_file r =
      (if startswith "/" (name tc) then name tc ++ ".ply"
       else if String.eqb (output_dir self) "" || endswith_char "/" (output_dir self)
            then output_dir self ++ name tc ++ ".ply"
            else output_dir self ++ "/" ++ name tc ++ ".ply")%string /\
    gpu_id r = gpu.
Proof.
  destruct (run_single_test_cases self w tc gpu s)
    as (r & s' & Hrun & _ & Hout & Hgpu & _).
  exists r, s'. repeat split; try assumption.
  rewrite Hout. unfold output_file_of, path_join.
  rewrite startswith_slash_ply. reflexivity.
Qed.



(** C5, as the code has it. When the tool exits with status zero within the
    time-out, the result depends on whether the size of the artifact can be
    read at the derived path. If it can, the result is a success that carries
    the derived path, the slot, no error text, and as duration the difference
    of the clock readings taken around [subprocess.run]. If
    [os.path.getsize] raises, the result is a failure whose error text is the
    message of that exception. *)
Theorem zero_exit_succeeds_when_artifact_is_measurable
    (self : OpenSplatTester) (w : world) (tc : TestCase) (gpu : Z)
    (s : state console_line) (runtime : option Q) (out err : string) :
  execute w (cmd_of self tc) (env_of w gpu) = Runs runtime 0 out err ->
  within (timeout self) runtime = true ->
  exists r s',
    run_single_test self w tc gpu s = (inr r, s') /\
    match getsize w (output_file_of self tc) with
    | inr size =>
        r = {| test_case := tc; success := true;
               duration := (clock w (S (ticks s)) - clock w (ticks s))%Q;
               output_file := output_file_of self tc; gpu_id := gpu;
               error_msg := None |}
    | inl msg =>
        r = {| test_case := tc; success := false;
               duration := (clock w (S (S (ticks s))) - clock w (ticks s))%Q;
               output_file := output_file_of self tc; gpu_id := gpu;
               error_msg := Some msg |}
    end.
Proof.
  intros Hp Hin.
  destruct (run_single_test_cases self w tc gpu s)
    as (r & s' & Hrun & Htc & Hout & Hgpu & Hcase).
  exists r, s'. split; [exact Hrun|].
  rewrite Hp in Hcase. simpl in Hcase. rewrite Hin in Hcase. simpl in Hcase.
  destruct r as [tc' ok d f g e]. simpl in *.
  destruct (getsize w (output_file_of self tc));
    destruct Hcase as (-> & -> & ->); subst; reflexivity.
Qed.

Lemma zero_exit_succeeds_when_artifact_is_measurable_witness :
  execute (Samples.exits 0 "") (cmd_of (Samples.tester 1) Samples.baseline)
          (env_of (Samples.exits 0 "") 0)
    = Runs (Some (12 # 1)%Q) 0 "" "" /\
  within (timeout (Samples.tester 1)) (Some (12 # 1)%Q) = true /\
  exists r, outcome (Samples.tester 1) (Samples.exits 0 "") Samples.baseline 0 = inr r /\
            success r = true /\ output_file r = "./output/baseline.ply" /\
            error_msg r = None.
Proof.
  split; [reflexivity|]. split; [reflexivity|].
  destruct (zero_exit_succeeds_when_artifact_is_measurable
              (Samples.tester 1) (Samples.exits 0 "") Samples.baseline 0 Eff.start
              (Some (12 # 1)%Q) "" "" eq_refl eq_refl)
    as (r & s' & Hrun & Hr).
  exists r. simpl in Hr. subst r.
  unfold outcome. rewrite Hrun. repeat split.
Defined.

(** C5, as the spec has it, fails: the tool exits with status zero within the
    time-out, leaves no artifact, and the trial is recorded as failed. *)
Lemma zero_exit_without_artifact_is_a_failure :
  subprocess_run (timeout (Samples.tester 1))
    (execute Samples.no_artifact (cmd_of (Samples.tester 1) Samples.baseline)
             (env_of Samples.no_artifact 0))
    = inr {| returncode := 0; stdout := ""; stderr := "" |} /\
  exists r, outcome (Samples.tester 1) Samples.no_artifact Samples.baseline 0 = inr r /\
            success r = false /\
            error_msg r = Some "[Errno 2] No such file or directory".
Proof.
  split; [reflexivity|].
  eexists. split; [reflexivity|]. split; reflexivity.
Qed.

(** C6, as the code has it. When the tool exits with a non-zero status within
    the time-out, the result is a failure whose error text is the whole
    captured error stream, or ["Unknown error"] when that stream is empty.
    Nothing is cut from what is stored: the first 200 characters are what the
    console line shows, and the first 500 are what the report shows. *)
Theorem nonzero_exit_stores_the_whole_error_text
    (self : OpenSplatTester) (w : world) (tc : TestCase) (gpu : Z)
    (s : state console_line) (runtime : option Q) (rc : Z) (out err : string) :
  execute w (cmd_of self tc) (env_of w gpu) = Runs runtime rc out err ->
  within (timeout self) runtime = true ->
  rc <> 0%Z ->
  let text := if String.eqb err "" then "Unknown error" else err in
  exists r s',
    run_single_test self w tc gpu s = (inr r, s') /\
    success r = false /\
    error_msg r = Some text /\
    printed s' =
      printed s ++
        [Rule; Started gpu (name tc); Described (description tc);
         Command gpu (join " " (cmd_of self tc)); Rule;
         Failed gpu (name tc) (slice_to 200 text)] /\
    report_failures [r] = [(name tc, slice_to 500 text)] /\
    String.length (slice_to 200 text) <= 200 /\
    String.length (slice_to 500 text) <= 500.
Proof.
  intros Hp Hin Hrc text.
  assert (Hnz : (rc =? 0)%Z = false) by (apply Z.eqb_neq; exact Hrc).
  assert (Hne : String.eqb text "" = false).
  { unfold text. destruct (String.eqb err "") eqn:E; [reflexivity|exact E]. }
  unfold run_single_test, bind, try_except, call, print, now, ret.
  cbn [fst snd printed ticks].
  rewrite Hp. cbn [subprocess_run]. rewrite Hin. cbn [returncode stderr].
  rewrite Hnz. fold text.
  do 2 eexists. split; [reflexivity|].
  cbn [success error_msg printed test_case].
  split; [reflexivity|]. split; [reflexivity|]. split.
  { rewrite <- !app_assoc. reflexivity. }
  split.
  { unfold report_failures. cbn [filter success negb map test_case error_msg].
    rewrite Hne. reflexivity. }
  split; apply slice_to_length.
Qed.

Lemma nonzero_exit_stores_the_whole_error_text_witness :
  execute (Samples.exits 1 Samples.long_errors)
          (cmd_of (Samples.tester 1) Samples.baseline)
          (env_of (Samples.exits 1 Samples.long_errors) 0)
    = Runs (Some (12 # 1)%Q) 1 "" Samples.long_errors /\
  within (timeout (Samples.tester 1)) (Some (12 # 1)%Q) = true /\
  1%Z <> 0%Z /\
  exists r, outcome (Samples.tester 1) (Samples.exits 1 Samples.long_errors)
                    Samples.baseline 0 = inr r /\
            error_msg r = Some Samples.long_errors /\
            report_failures [r] = [("baseline", slice_to 500 Samples.long_errors)].
Proof.
  split; [reflexivity|]. split; [reflexivity|]. split; [discriminate|].
  destruct (nonzero_exit_stores_the_whole_error_text
              (Samples.tester 1) (Samples.exits 1 Samples.long_errors)
              Samples.baseline 0 Eff.start (Some (12 # 1)%Q) 1 "" Samples.long_errors
              eq_refl eq_refl)
    as (r & s' & Hrun & _ & Herr & _ & Hrep & _).
  { discriminate. }
  exists r. unfold outcome. rewrite Hrun. repeat split; assumption.
Defined.

(** C6, as the spec has it, fails: 501 characters of diagnostics are stored
    whole, beyond the 200 of the console line and the 500 of the report. *)
Lemma long_error_text_is_stored_whole :
  subprocess_run (timeout (Samples.tester 1))
    (execute (Samples.exits 1 Samples.long_errors)
             (cmd_of (Samples.tester 1) Samples.baseline)
             (env_of (Samples.exits 1 Samples.long_errors) 0))
    = inr {| returncode := 1; stdout := ""; stderr := Samples.long_errors |} /\
  exists r e,
    outcome (Samples.tester 1) (Samples.exits 1 Samples.long_errors)
            Samples.baseline 0 = inr r /\
    success r = false /\ error_msg r = Some e /\ String.length e = 501.
Proof.
  split; [reflexivity|].
  do 2 eexists. split; [reflexivity|].
  split; [reflexivity|]. split; reflexivity.
Qed.

(** No bound at all holds for the stored text. *)
Lemma stored_error_text_is_unbounded (bound : nat) :
  exists w r e,
    outcome (Samples.tester 1) w Samples.baseline 0 = inr r /\
    error_msg r = Some e /\ bound < String.length e.
Proof.
  exists (Samples.exits 1 (string_of_list_ascii (repeat "x"%char (S bound)))).
  do 2 eexists. split; [reflexivity|].
  cbn [error_msg Samples.exits OS.stderr].
  split; [reflexivity|].
  cbn [repeat string_of_list_ascii String.eqb].
  cbn [String.length].
  assert (H : forall n, String.length (string_of_list_ascii (repeat "x"%char n)) = n).
  { induction n as [|n IH]; simpl; [reflexivity|]. rewrite IH. reflexivity. }
  rewrite H. lia.
Qed.

End ExecutorFacts.

(** ** The scheduler: [run_all_tests] *)

Module SchedulerFacts.

Import Py Eff OS ParamTest ExecutorFacts.

Lemma in_combine_seq {A : Type} (l : list A) (a i : nat) (x : A) :
  In (i, x) (combine (seq a (List.length l)) l) <->
  a <= i /\ nth_error l (i - a) = Some x.
Proof.
  revert a. induction l as [|y l IH]; intros a; simpl.
  - split; [tauto|]. intros [_ H]. destruct (i - a); discriminate.
  - rewrite IH. split.
    + intros [H | [Hle Hn]].
      * injection H as <- <-. rewrite Nat.sub_diag. split; [lia|reflexivity].
      * split; [lia|]. replace (i - a) with (S (i - S a)) by lia. exact Hn.
    + intros [Hle Hn].
      destruct (Nat.eq_dec a i) as [<-|Hne].
      * left. rewrite Nat.sub_diag in Hn. simpl in Hn. congruence.
      * right. split; [lia|].
        replace (i - a) with (S (i - S a)) in Hn by lia. exact Hn.
Qed.

Lemma in_enumerate {A : Type} (l : list A) (i : nat) (x : A) :
  In (i, x) (enumerate l) <-> nth_error l i = Some x.
Proof.
  unfold enumerate. rewrite in_combine_seq, Nat.sub_0_r.
  split; [tauto|]. intros H. split; [lia|exact H].
Qed.

Lemma length_enumerate {A : Type} (l : list A) :
  List.length (enumerate l) = List.length l.
Proof.
  unfold enumerate. rewrite length_combine, length_seq. apply Nat.min_id.
Qed.

Lemma map_snd_combine_seq {A : Type} (l : list A) (a : nat) :
  map snd (combine (seq a (List.length l)) l) = l.
Proof.
  revert a. induction l as [|x l IH]; intros a; simpl; [reflexivity|].
  rewrite IH. reflexivity.
Qed.

Lemma nth_gpu_assignments (W : Z) (n i : nat) :
  i < n -> nth i (gpu_assignments W n) 0%Z = (Z.of_nat i mod W)%Z.
Proof.
  intros H. apply nth_error_nth. unfold gpu_assignments.
  rewrite nth_error_map, nth_error_seq.
  destruct (Nat.ltb_spec i n); [reflexivity|lia].
Qed.

Lemma combine_with_slots {A : Type} (g : nat -> Z) (l : list A) (a : nat) :
  combine (seq a (List.length l)) (combine l (map g (seq a (List.length l)))) =
  map (fun p : nat * A => (fst p, (snd p, g (fst p))))
      (combine (seq a (List.length l)) l).
Proof.
  revert a. induction l as [|x l IH]; intros a; simpl; [reflexivity|].
  rewrite IH. reflexivity.
Qed.

(** The [i]-th submission carries the [i]-th test case and the slot
    [i mod W]. *)
Lemma submitted_slots (W : Z) (tcs : list TestCase) :
  submitted W tcs =
  map (fun p : nat * TestCase => (fst p, (snd p, (Z.of_nat (fst p) mod W)%Z)))
      (enumerate tcs).
Proof.
  unfold submitted, enumerate, gpu_assignments.
  rewrite length_combine, length_map, length_seq, Nat.min_id.
  apply (combine_with_slots (fun i : nat => (Z.of_nat i mod W)%Z)).
Qed.

Section AnyExecutor.

Variable exec : nat -> TestCase -> Z -> exception + TestResult.

(** The serial branch stops at the first exception of the executor. *)
Lemma run_serial_propagates (i : nat) (tc : TestCase) (rest : list TestCase)
    (acc : list TestResult) (e : exception) :
  exec i tc 0%Z = inl e -> run_serial exec i (tc :: rest) acc = inl e.
Proof. intros H. simpl. rewrite H. reflexivity. Qed.

Lemma run_serial_returns (a : nat) (tcs : list TestCase) (acc rs : list TestResult) :
  Forall2 (fun p r => exec (fst p) (snd p) 0%Z = inr r)
          (combine (seq a (List.length tcs)) tcs) rs ->
  run_serial exec a tcs acc = inr (acc ++ rs).
Proof.
  revert a acc rs. induction tcs as [|tc tcs IH]; intros a acc rs H; simpl in *.
  - inversion H. rewrite app_nil_r. reflexivity.
  - inversion H as [|p r ps rs' Hhd Htl]; subst. simpl in Hhd.
    rewrite Hhd. rewrite (IH _ _ _ Htl). rewrite <- app_assoc. reflexivity.
Qed.

(** The parallel branch returns, for every complete run of the pool, one
    result per test case: what the executor returned for it with the slot
    [i mod W], or a failed result in place of the exception it raised. *)
Lemma run_parallel_results (W : Z) (sched : list Pool.event)
    (tcs : list TestCase) (res : exception + list TestResult) :
  (1 <= W)%Z ->
  run_parallel exec W sched tcs = Some res ->
  exists results,
    res = inr results /\
    Permutation results
      (map (fun p => recorded exec W (fst p) (snd p)) (enumerate tcs)).
Proof.
  intros HW. unfold run_parallel, Pool.create.
  destruct (W =? 0)%Z eqn:E0; [apply Z.eqb_eq in E0; lia|]. cbn [andb].
  destruct (W <=? 0)%Z eqn:E; [apply Z.leb_le in E; lia|].
  destruct (Pool.as_completed (work exec) W (submitted W tcs) sched)
    as [fs|] eqn:Hfs; [|discriminate].
  intros H. injection H as <-.
  eexists. split; [reflexivity|].
  apply PoolFacts.as_completed_perm in Hfs.
  rewrite (Permutation_map _ Hfs).
  rewrite submitted_slots, !map_map.
  erewrite map_ext_in; [reflexivity|].
  intros [i tc] Hin. cbn [fst snd].
  unfold Pool.settle, collect, work, recorded.
  destruct (exec i tc (Z.of_nat i mod W)%Z); [|reflexivity].
  rewrite nth_gpu_assignments; [reflexivity|].
  apply in_enumerate in Hin.
  apply nth_error_Some. congruence.
Qed.

(** The parallel branch always has a complete run, and a run that has begun
    can always be completed. *)
Lemma run_parallel_fifo (W : Z) (tcs : list TestCase) :
  (1 <= W)%Z ->
  run_parallel exec W (Pool.fifo (List.length tcs)) tcs =
  Some (inr (map (fun p => recorded exec W (fst p) (snd p)) (enumerate tcs))).
Proof.
  intros HW. unfold run_parallel, Pool.create.
  destruct (W =? 0)%Z eqn:E0; [apply Z.eqb_eq in E0; lia|]. cbn [andb].
  destruct (W <=? 0)%Z eqn:E; [apply Z.leb_le in E; lia|].
  replace (List.length tcs) with (List.length (submitted W tcs)) at 1.
  2:{ rewrite submitted_slots, length_map. apply length_enumerate. }
  rewrite PoolFacts.as_completed_fifo by exact HW.
  rewrite submitted_slots, !map_map.
  do 2 f_equal. apply map_ext_in.
  intros [i tc] Hin. cbn [fst snd].
  unfold Pool.settle, collect, work, recorded.
  destruct (exec i tc (Z.of_nat i mod W)%Z); [|reflexivity].
  rewrite nth_gpu_assignments; [reflexivity|].
  apply in_enumerate in Hin.
  apply nth_error_Some. congruence.
Qed.

Lemma run_parallel_never_stuck (W : Z) (tcs : list TestCase)
    (es : list Pool.event) (s : Pool.state) :
  (1 <= W)%Z ->
  Pool.run (work exec) W es (Pool.submit_all (submitted W tcs)) = Some s ->
  exists results,
    run_parallel exec W (es ++ Pool.drain s) tcs = Some (inr results).
Proof.
  intros HW Hrun.
  destruct (PoolFacts.as_completed_extends (work exec) W _ es s HW Hrun) as (fs & Hfs).
  unfold run_parallel, Pool.create.
  destruct (W =? 0)%Z eqn:E0; [apply Z.eqb_eq in E0; lia|]. cbn [andb].
  destruct (W <=? 0)%Z eqn:E; [apply Z.leb_le in E; lia|].
  rewrite Hfs. eexists. reflexivity.
Qed.

End AnyExecutor.

Lemma slot_of_mod (W : Z) (i : nat) :
  (1 <= W)%Z -> slot_of W i = (Z.of_nat i mod W)%Z.
Proof.
  intros HW. unfold slot_of.
  destruct (W <=? 1)%Z eqn:E; [|reflexivity].
  apply Z.leb_le in E. replace W with 1%Z by lia.
  symmetry. apply Z.mod_1_r.
Qed.

(** The real executor returns a result for every submission. *)
Lemma executor_results (self : OpenSplatTester) (worlds : nat -> world)
    (slot : nat -> Z) (ps : list (nat * TestCase)) :
  exists rs,
    Forall2 (fun p r => outcome self (worlds (fst p)) (snd p) (slot (fst p)) = inr r)
            ps rs.
Proof.
  induction ps as [|[i tc] ps (rs & IH)].
  - exists []. constructor.
  - destruct (outcome_returns self (worlds i) tc (slot i)) as (r & Hr & _).
    exists (r :: rs). constructor; assumption.
Qed.

Lemma results_line_up (self : OpenSplatTester) (worlds : nat -> world)
    (slot : nat -> Z) (ps : list (nat * TestCase)) (rs : list TestResult) :
  Forall2 (fun p r => outcome self (worlds (fst p)) (snd p) (slot (fst p)) = inr r)
          ps rs ->
  map test_case rs = map snd ps /\ map gpu_id rs = map (fun p => slot (fst p)) ps.
Proof.
  induction 1 as [|[i tc] r ps rs Hr _ (IH1 & IH2)]; simpl; [auto|].
  destruct (outcome_returns self (worlds i) tc (slot i)) as (r' & Hr' & Htc & _ & Hgpu).
  simpl in Hr. rewrite Hr in Hr'. injection Hr' as <-.
  rewrite Htc, Hgpu, IH1, IH2. auto.
Qed.

(** Every return of [run_all_tests] is a list of results that is, up to
    order, the list of what [run_single_test] returned for each test case in
    its own surroundings and with its own slot. *)
Lemma run_all_tests_results (self : OpenSplatTester) (worlds : nat -> world)
    (sched : list Pool.event) (tcs : list TestCase)
    (res : exception + list TestResult) :
  run_all_tests self worlds sched tcs = Some res ->
  exists results rs,
    res = inr results /\
    Permutation results rs /\
    (max_workers self <= 1 -> results = rs)%Z /\
    Forall2 (fun p r => outcome self (worlds (fst p)) (snd p)
                                (slot_of (max_workers self) (fst p)) = inr r)
            (enumerate tcs) rs.
Proof.
  unfold run_all_tests, run_all_tests_with.
  destruct (executor_results self worlds (slot_of (max_workers self)) (enumerate tcs))
    as (rs & Hrs).
  unfold slot_of in *.
  destruct (max_workers self <=? 1)%Z eqn:E.
  - intros H. injection H as <-.
    exists rs, rs. split; [|split; [reflexivity|split; [reflexivity|exact Hrs]]].
    rewrite (run_serial_returns (executor self worlds) 0 tcs [] rs); [reflexivity|].
    exact Hrs.
  - apply Z.leb_gt in E. intros H.
    apply run_parallel_results in H; [|lia].
    destruct H as (results & -> & Hperm).
    exists results, rs. split; [reflexivity|]. split; [|split; [lia|exact Hrs]].
    rewrite Hperm. clear Hperm.
    assert (Heq : map (fun p => recorded (executor self worlds) (max_workers self)
                                         (fst p) (snd p)) (enumerate tcs) = rs).
    { clear E. induction Hrs as [|[i tc] r ps rs' Hr _ IH]; simpl; [reflexivity|].
      rewrite IH. unfold recorded, executor at 1. simpl in Hr. rewrite Hr.
      reflexivity. }
    rewrite Heq. reflexivity.
Qed.

(** [run_all_tests] has a return for every pool size. *)
Lemma run_all_tests_has_a_run (self : OpenSplatTester) (worlds : nat -> world)
    (tcs : list TestCase) :
  exists results,
    run_all_tests self worlds (Pool.fifo (List.length tcs)) tcs = Some (inr results).
Proof.
  unfold run_all_tests, run_all_tests_with.
  destruct (max_workers self <=? 1)%Z eqn:E.
  - destruct (executor_results self worlds (fun _ => 0%Z) (enumerate tcs)) as (rs & Hrs).
    exists rs.
    rewrite (run_serial_returns (executor self worlds) 0 tcs [] rs); [reflexivity|].
    exact Hrs.
  - apply Z.leb_gt in E. rewrite run_parallel_fifo by lia. eexists. reflexivity.
Qed.

Lemma Forall2_nth_error {A B : Type} (P : A -> B -> Prop) (l : list A) (l' : list B)
    (i : nat) (x : A) :
  Forall2 P l l' -> nth_error l i = Some x ->
  exists y, nth_error l' i = Some y /\ P x y.
Proof.
  intros H. revert i. induction H as [|a b l l' Hab _ IH]; intros i Hi.
  - destruct i; discriminate.
  - destruct i as [|i]; simpl in *.
    + injection Hi as <-. eauto.
    + apply IH. exact Hi.
Qed.

(** C1. With one worker the loop of [run_all_tests] calls the executor
    without a handler: when the call for the second of three test cases
    raises, [run_all_tests] raises the same exception and the result of the
    first trial is lost. The branch for several workers has the handler: the
    same executor with two workers gives three results, a failed one with
    the text of the exception for the second test case and the two others
    as they were returned. *)
Theorem an_exception_of_the_executor_aborts_the_serial_run :
  run_all_tests_with (Scenes.faulty (Samples.tester 1)) (Samples.tester 1) []
    [Samples.baseline; Samples.scale_2; Samples.sh_1]
  = Some (inl (error Scenes.refused)) /\
  exists r0 r1 r2,
    run_all_tests_with (Scenes.faulty (Samples.tester 2)) (Samples.tester 2)
      (Pool.fifo 3) [Samples.baseline; Samples.scale_2; Samples.sh_1]
    = Some (inr [r0; r1; r2]) /\
    test_case r0 = Samples.baseline /\ success r0 = true /\
    test_case r1 = Samples.scale_2 /\ success r1 = false /\
    error_msg r1 = Some Scenes.refused /\
    test_case r2 = Samples.sh_1 /\ success r2 = true.
Proof.
  split; [vm_compute; reflexivity|].
  eexists. eexists. eexists. split; [vm_compute; reflexivity|].
  repeat split; reflexivity.
Qed.

(** X23. For every pool size [W >= 1] and every list of [N] test cases,
    [run_all_tests] with [run_single_test] as it is written returns, and
    whatever the tool does in each trial (zero
    status, non-zero status, time-out, exception at launch) and in whatever
    order the pool completes the trials, what it returns is a list of exactly
    [N] results, one per submitted test case: up to order it is the list of
    what [run_single_test] returned for each test case in its own
    surroundings. An exception in one trial is turned into a failed result of
    that trial by [run_single_test]; above one worker, an executor that
    raises all the same is given a failed result by the collection loop, and
    the other trials are not affected. *)
Theorem run_all_tests_one_outcome_per_spec
    (self : OpenSplatTester) (worlds : nat -> world) (tcs : list TestCase) :
  (1 <= max_workers self)%Z ->
  (exists sched results, run_all_tests self worlds sched tcs = Some (inr results)) /\
  (forall sched res,
      run_all_tests self worlds sched tcs = Some res ->
      exists results rs,
        res = inr results /\
        List.length results = List.length tcs /\
        Permutation (map test_case results) tcs /\
        Permutation results rs /\
        Forall2 (fun p r => outcome self (worlds (fst p)) (snd p)
                              (Z.of_nat (fst p) mod max_workers self)%Z = inr r)
                (enumerate tcs) rs) /\
  (forall exec sched res,
      (1 < max_workers self)%Z ->
      run_all_tests_with exec self sched tcs = Some res ->
      exists results,
        res = inr results /\
        List.length results = List.length tcs /\
        Permutation results
          (map (fun p => recorded exec (max_workers self) (fst p) (snd p))
               (enumerate tcs))).
Proof.
  intros HW. split; [|split].
  - exists (Pool.fifo (List.length tcs)). apply run_all_tests_has_a_run.
  - intros sched res Hrun.
    destruct (run_all_tests_results _ _ _ _ _ Hrun)
      as (results & rs & -> & Hperm & _ & Hrs).
    exists results, rs.
    destruct (results_line_up _ _ _ _ _ Hrs) as (Htc & _).
    assert (Hlen : List.length rs = List.length tcs).
    { rewrite <- (Forall2_length Hrs). apply length_enumerate. }
    split; [reflexivity|]. split; [|split; [|split]].
    + rewrite (Permutation_length Hperm). exact Hlen.
    + rewrite (Permutation_map test_case Hperm), Htc.
      unfold enumerate. rewrite map_snd_combine_seq. reflexivity.
    + exact Hperm.
    + eapply Forall2_impl; [|exact Hrs].
      intros [i tc] r Hr. cbn [fst snd] in *.
      rewrite <- slot_of_mod by exact HW. exact Hr.
  - intros exec sched res HW1. unfold run_all_tests_with.
    destruct (max_workers self <=? 1)%Z eqn:E; [apply Z.leb_le in E; lia|].
    intros Hrun. apply run_parallel_results in Hrun; [|lia].
    destruct Hrun as (results & -> & Hperm).
    exists results. split; [reflexivity|]. split; [|exact Hperm].
    rewrite (Permutation_length Hperm), length_map. apply length_enumerate.
Qed.

Lemma run_all_tests_one_outcome_per_spec_witness :
  (1 <= max_workers (Samples.tester 2))%Z /\
  exists results,
    run_all_tests (Samples.tester 2)
      (fun i => match i with
                | 0 => Samples.exits 0 ""
                | 1 => Samples.hangs
                | _ => Samples.missing_tool
                end)
      [Pool.Start; Pool.Start; Pool.Finish 1; Pool.Start; Pool.Finish 1;
       Pool.Finish 0; Pool.Yield 2; Pool.Yield 0; Pool.Yield 0]
      [Samples.baseline; Samples.scale_2; Samples.sh_1] = Some (inr results) /\
    List.length results = 3 /\
    Permutation (map test_case results)
                [Samples.baseline; Samples.scale_2; Samples.sh_1].
Proof.
  split; [simpl; lia|].
  destruct (run_all_tests_one_outcome_per_spec (Samples.tester 2)
              (fun i => match i with
                        | 0 => Samples.exits 0 ""
                        | 1 => Samples.hangs
                        | _ => Samples.missing_tool
                        end)
              [Samples.baseline; Samples.scale_2; Samples.sh_1])
    as (_ & Hall & _); [simpl; lia|].
  destruct (Hall [Pool.Start; Pool.Start; Pool.Finish 1; Pool.Start; Pool.Finish 1;
                  Pool.Finish 0; Pool.Yield 2; Pool.Yield 0; Pool.Yield 0] _ eq_refl)
    as (results & rs & Heq & Hlen & Hperm & _).
  exists results. injection Heq as <-. repeat split; assumption.
Defined.

(** C3. For every pool size [W >= 1] and every index [i], the slot of the
    [i]-th trial is [i mod W], a number of [[0, W)]: it is the [i]-th entry
    of the list of assignments, which is computed from the number of test
    cases alone before anything is submitted; in whatever order the trials
    complete, the result of the [i]-th test case is the one [run_single_test]
    returned with the slot [i mod W], and it records that slot. The same
    holds for the assignment of [quick_test.py]. *)
Theorem device_slot_is_index_mod_pool_size (W : Z) (n i : nat) :
  (1 <= W)%Z ->
  i < n ->
  nth_error (gpu_assignments W n) i = Some (Z.of_nat i mod W)%Z /\
  (0 <= Z.of_nat i mod W < W)%Z /\
  (forall self worlds sched tcs tc results,
      max_workers self = W -> List.length tcs = n -> nth_error tcs i = Some tc ->
      run_all_tests self worlds sched tcs = Some (inr results) ->
      exists rs r,
        Permutation results rs /\ nth_error rs i = Some r /\
        outcome self (worlds i) tc (Z.of_nat i mod W)%Z = inr r /\
        gpu_id r = (Z.of_nat i mod W)%Z) /\
  (n <= List.length QuickTest.TEST_CASES ->
   QuickTest.device_of W i = Some (Z.of_nat i mod W)%Z).
Proof.
  intros HW Hi. split; [|split; [|split]].
  - unfold gpu_assignments. rewrite nth_error_map, nth_error_seq.
    destruct (Nat.ltb_spec i n); [reflexivity|lia].
  - apply Z.mod_pos_bound. lia.
  - intros self worlds sched tcs tc results HWs Hlen Htc Hrun.
    destruct (run_all_tests_results _ _ _ _ _ Hrun)
      as (results' & rs & Heq & Hperm & _ & Hrs).
    injection Heq as <-.
    assert (Hin : nth_error (enumerate tcs) i = Some (i, tc)).
    { unfold enumerate.
      assert (H : In (i, tc) (enumerate tcs)) by (apply in_enumerate; exact Htc).
      destruct (nth_error (combine (seq 0 (List.length tcs)) tcs) i)
        as [[j tc']|] eqn:E.
      - assert (Hj : In (j, tc') (enumerate tcs)) by (eapply nth_error_In; exact E).
        apply in_enumerate in Hj.
        assert (Hfst : nth_error (map fst (combine (seq 0 (List.length tcs)) tcs)) i
                       = Some j) by (rewrite nth_error_map, E; reflexivity).
        assert (Hmf : forall (l : list TestCase) a,
                   map fst (combine (seq a (List.length l)) l) = seq a (List.length l)).
        { induction l as [|x l IH]; intros a; simpl; [reflexivity|].
          rewrite IH. reflexivity. }
        rewrite Hmf, nth_error_seq in Hfst.
        destruct (Nat.ltb_spec i (List.length tcs)); [|discriminate].
        injection Hfst as <-. simpl in Hj. congruence.
      - apply nth_error_None in E. fold (enumerate tcs) in E.
        rewrite length_enumerate in E. lia. }
    destruct (Forall2_nth_error _ _ _ _ _ Hrs Hin) as (r & Hr & Hout).
    cbn [fst snd] in Hout. rewrite HWs, slot_of_mod in Hout by exact HW.
    exists rs, r. repeat split; try assumption.
    destruct (outcome_returns self (worlds i) tc (Z.of_nat i mod W)%Z)
      as (r' & Hr' & _ & _ & Hgpu).
    congruence.
  - intros Hn. unfold QuickTest.device_of, QuickTest.submitted, QuickTest.gpu_assignments.
    assert (Hi7 : i < 7) by (simpl in Hn; lia).
    destruct (1 <? W)%Z eqn:E.
    + apply Z.ltb_lt in E.
      destruct (W =? 0)%Z eqn:E0; [apply Z.eqb_eq in E0; lia|].
      do 7 (destruct i as [|i]; [reflexivity|]). lia.
    + apply Z.ltb_ge in E. replace W with 1%Z by lia.
      rewrite Z.mod_1_r.
      do 7 (destruct i as [|i]; [reflexivity|]). lia.
Qed.

Lemma device_slot_is_index_mod_pool_size_witness :
  (1 <= 2)%Z /\ 2 < 3 /\
  nth_error (gpu_assignments 2 3) 2 = Some 0%Z /\
  QuickTest.device_of 2 2 = Some 0%Z.
Proof.
  split; [lia|]. split; [lia|].
  destruct (device_slot_is_index_mod_pool_size 2 3 2) as (H1 & _ & _ & H4);
    [lia|lia|].
  split; [exact H1|]. apply H4. simpl. lia.
Defined.





(** No order of completion repairs it. *)
Lemma verdicts_differ_for_every_schedule (sched : list Pool.event)
    (r4 : list TestResult) :
  run_all_tests (Samples.tester 4) (fun _ => Samples.one_device) sched
    [Samples.baseline; Samples.scale_2] = Some (inr r4) ->
  In ("scale_2", false) (map verdict r4).
Proof.
  intros Hrun.
  destruct (run_all_tests_results _ _ _ _ _ Hrun)
    as (r4' & rs & Heq & Hperm & _ & Hrs).
  injection Heq as <-.
  eapply Permutation_in; [symmetry; apply (Permutation_map verdict Hperm)|].
  inversion Hrs as [|p0 a ps0 rs0 Ha Htl]; subst.
  inversion Htl as [|p1 b ps1 rs1 Hb Htl']; subst.
  inversion Htl'; subst.
  cbn in Ha, Hb. injection Ha as <-. injection Hb as <-.
  simpl. right. left. reflexivity.
Qed.


End SchedulerFacts.

(** ** The header parser: [parse_ply_header] *)

Module HeaderFacts.

Import Py CompareResults.

Lemma bytes_prefix_app (pat l1 l2 : list byte) :
  bytes_prefix pat l1 = true -> bytes_prefix pat (l1 ++ l2) = true.
Proof.
  revert l1. induction pat as [|p pat IH]; intros l1 H; [reflexivity|].
  destruct l1 as [|b l1]; simpl in *; [discriminate|].
  apply andb_true_iff in H. destruct H as (Hb & H).
  rewrite Hb. simpl. apply IH. exact H.
Qed.

Lemma bytes_contains_app_l (pat l1 l2 : list byte) :
  bytes_contains pat l1 = true -> bytes_contains pat (l1 ++ l2) = true.
Proof.
  induction l1 as [|b l1 IH]; simpl; intros H.
  - rewrite orb_false_r in H. destruct pat; [|discriminate].
    destruct l2; reflexivity.
  - apply orb_true_iff in H. apply orb_true_iff. destruct H as [H | H].
    + left. apply (bytes_prefix_app pat (b :: l1) l2). exact H.
    + right. apply IH. exact H.
Qed.

Lemma bytes_contains_app_r (pat l1 l2 : list byte) :
  bytes_contains pat l2 = true -> bytes_contains pat (l1 ++ l2) = true.
Proof.
  intros H. induction l1 as [|b l1 IH]; simpl; [exact H|].
  rewrite IH. apply orb_true_r.
Qed.

(** A pattern without a newline does not straddle the end of a line. *)
Lemma bytes_prefix_within_line (pat body rest : list byte) :
  ~ In newline pat ->
  bytes_prefix pat (body ++ newline :: rest) = true ->
  bytes_prefix pat (body ++ [newline]) = true.
Proof.
  revert body. induction pat as [|p pat IH]; intros body Hnl H; [reflexivity|].
  destruct body as [|b body]; simpl in *.
  - apply andb_true_iff in H. destruct H as (Hp & _).
    apply Byte.byte_dec_bl in Hp. subst p. exfalso. apply Hnl. left. reflexivity.
  - apply andb_true_iff in H. destruct H as (Hb & H).
    rewrite Hb. simpl. apply IH; [|exact H].
    intros Hin. apply Hnl. right. exact Hin.
Qed.

Lemma bytes_contains_split_at_newline (pat body rest : list byte) :
  ~ In newline pat -> pat <> [] ->
  bytes_contains pat (body ++ newline :: rest) = true ->
  bytes_contains pat (body ++ [newline]) = true \/ bytes_contains pat rest = true.
Proof.
  intros Hnl Hne. induction body as [|b body IH]; intros H.
  - simpl in H. apply orb_true_iff in H. destruct H as [H | H]; [|right; exact H].
    destruct pat as [|p pat]; [contradiction|].
    simpl in H. apply andb_true_iff in H. destruct H as (Hp & _).
    apply Byte.byte_dec_bl in Hp. subst p. exfalso. apply Hnl. left. reflexivity.
  - change ((b :: body) ++ newline :: rest) with (b :: (body ++ newline :: rest)) in H.
    cbn [bytes_contains] in H. apply orb_true_iff in H. destruct H as [H | H].
    + left. change ((b :: body) ++ [newline]) with (b :: (body ++ [newline])).
      cbn [bytes_contains]. apply orb_true_iff. left.
      apply (bytes_prefix_within_line pat (b :: body) rest Hnl H).
    + destruct (IH H) as [H' | H']; [left|right; exact H'].
      change ((b :: body) ++ [newline]) with (b :: (body ++ [newline])).
      cbn [bytes_contains]. rewrite H'. apply orb_true_r.
Qed.

(** [readline] splits the file; the line is not empty unless the file is, and
    it ends with a newline unless it reaches the end of the file. *)
Lemma readline_spec (f line rest : list byte) :
  readline f = (line, rest) ->
  f = line ++ rest /\
  (f <> [] -> line <> []) /\
  (rest <> [] -> exists body, line = body ++ [newline]).
Proof.
  revert line rest. induction f as [|b f IH]; intros line rest H; simpl in H.
  - injection H as <- <-. repeat split; try congruence.
  - destruct (Byte.eqb b newline) eqn:E.
    + injection H as <- <-. apply Byte.byte_dec_bl in E. subst b.
      repeat split; try congruence. intros _. exists []. reflexivity.
    + destruct (readline f) as [line' rest'] eqn:R.
      injection H as <- <-.
      destruct (IH _ _ eq_refl) as (Hf & _ & Hnl).
      repeat split; try congruence.
      * simpl. congruence.
      * intros Hr. destruct (Hnl Hr) as (body & ->). exists (b :: body). reflexivity.
Qed.

Lemma end_header_has_no_newline : ~ In newline end_header.
Proof.
  unfold end_header. simpl. intros H.
  repeat (destruct H as [H|H]; [discriminate|]). exact H.
Qed.

Lemma end_header_not_empty : end_header <> [].
Proof. discriminate. Qed.

(** More fuel does not change a loop that has stopped. *)
Lemma read_header_mono (n m : nat) (f h x : list byte) :
  read_header n f h = Some x -> n <= m -> read_header m f h = Some x.
Proof.
  revert m f h. induction n as [|n IH]; intros m f h H Hle; [discriminate|].
  destruct m as [|m]; [lia|].
  simpl in *. destruct (readline f) as [line f'].
  destruct (bytes_contains end_header line); [exact H|].
  destruct (10000 <? Z.of_nat (List.length (h ++ line)))%Z; [exact H|].
  apply IH; [exact H|lia].
Qed.

(** The loop stops when the file has the terminator somewhere or is longer
    than the budget. It reads whole lines, up to the first one that contains
    the terminator or brings the header above 10000 bytes. *)
Lemma read_header_stops (n : nat) (f h : list byte) :
  List.length f <= n ->
  (Z.of_nat (List.length h) <= 10000)%Z ->
  bytes_contains end_header f = true
  \/ (10000 < Z.of_nat (List.length h + List.length f))%Z ->
  exists read rest before line,
    f = read ++ rest /\
    h ++ read = before ++ line /\
    (Z.of_nat (List.length before) <= 10000)%Z /\
    readline (line ++ rest) = (line, rest) /\
    (bytes_contains end_header line = true
     \/ (10000 < Z.of_nat (List.length (before ++ line)))%Z) /\
    forall fuel, List.length f <= fuel -> read_header fuel f h = Some (h ++ read).
Proof.
  revert f h. induction n as [|n IH]; intros f h Hn Hh Hstop.
  - destruct f; [|simpl in Hn; lia].
    destruct Hstop as [Hc | Hlen]; [discriminate|simpl in Hlen; lia].
  - destruct (readline f) as [line f'] eqn:R.
    destruct (readline_spec _ _ _ R) as (Hf & Hne & Hnl).
    assert (Hfne : f <> []).
    { intros ->. destruct Hstop as [Hc|Hlen]; [discriminate|simpl in *; lia]. }
    assert (Hpos : 0 < List.length f) by (destruct f; [congruence|simpl; lia]).
    destruct (bytes_contains end_header line) eqn:C.
    { exists line, f', h, line. subst f.
      split; [reflexivity|]. split; [reflexivity|]. split; [exact Hh|].
      split; [exact R|]. split; [left; exact C|].
      intros [|fuel] Hfuel; [lia|]. simpl. rewrite R, C. reflexivity. }
    destruct (10000 <? Z.of_nat (List.length (h ++ line)))%Z eqn:B.
    { apply Z.ltb_lt in B.
      exists line, f', h, line. subst f.
      split; [reflexivity|]. split; [reflexivity|]. split; [exact Hh|].
      split; [exact R|]. split; [right; exact B|].
      intros [|fuel] Hfuel; [lia|]. simpl. rewrite R, C.
      destruct (10000 <? Z.of_nat (List.length (h ++ line)))%Z eqn:B';
        [reflexivity|apply Z.ltb_ge in B'; lia]. }
    apply Z.ltb_ge in B. rewrite length_app in B.
    assert (Hline : line <> []) by (apply Hne; exact Hfne).
    assert (Hshort : List.length f' < List.length f).
    { subst f. rewrite length_app. destruct line; [congruence|simpl; lia]. }
    assert (Hstop' : bytes_contains end_header f' = true
                     \/ (10000 < Z.of_nat (List.length (h ++ line) + List.length f'))%Z).
    { destruct Hstop as [Hc|Hlen].
      - destruct f' as [|b f'].
        + subst f. rewrite app_nil_r in Hc. congruence.
        + destruct Hnl as (body & ->); [discriminate|].
          subst f. rewrite <- app_assoc in Hc. simpl in Hc.
          destruct (bytes_contains_split_at_newline _ _ _
                      end_header_has_no_newline end_header_not_empty Hc) as [H|H];
            [congruence|left; exact H].
      - right. subst f. rewrite !length_app in *. lia. }
    destruct (IH f' (h ++ line)) as (read & rest & before & last & Hf' & Hhead & Hb & Hr & Hend & Hrun);
      [lia|rewrite length_app; lia|exact Hstop'|].
    exists (line ++ read), rest, before, last.
    split; [|split; [|split; [exact Hb|split; [exact Hr|split; [exact Hend|]]]]].
    + subst f f'. rewrite app_assoc. reflexivity.
    + rewrite app_assoc. exact Hhead.
    + intros [|fuel] Hfuel; [lia|]. simpl. rewrite R, C.
      destruct (10000 <? Z.of_nat (List.length (h ++ line)))%Z eqn:B';
        [apply Z.ltb_lt in B'; rewrite length_app in B'; lia|].
      rewrite Hrun by lia. rewrite app_assoc. reflexivity.
Qed.

(** The loop never stops on a file of at most 10000 bytes without the
    terminator: at the end of the file [readline] returns nothing, the header
    stops growing and neither exit is taken. *)
Lemma read_header_runs_forever (fuel : nat) (f h : list byte) :
  bytes_contains end_header f = false ->
  (Z.of_nat (List.length h + List.length f) <= 10000)%Z ->
  read_header fuel f h = None.
Proof.
  revert f h. induction fuel as [|fuel IH]; intros f h Hc Hlen; [reflexivity|].
  simpl. destruct (readline f) as [line f'] eqn:R.
  destruct (readline_spec _ _ _ R) as (Hf & _ & _).
  assert (Hl : bytes_contains end_header line = false).
  { destruct (bytes_contains end_header line) eqn:E; [|reflexivity].
    rewrite Hf, (bytes_contains_app_l _ _ _ E) in Hc. discriminate. }
  assert (Hr : bytes_contains end_header f' = false).
  { destruct (bytes_contains end_header f') eqn:E; [|reflexivity].
    rewrite Hf, (bytes_contains_app_r _ _ _ E) in Hc. discriminate. }
  rewrite Hl.
  assert (Hsum : (Z.of_nat (List.length (h ++ line) + List.length f') <= 10000)%Z).
  { rewrite length_app. rewrite Hf, length_app in Hlen. lia. }
  destruct (10000 <? Z.of_nat (List.length (h ++ line)))%Z eqn:B;
    [apply Z.ltb_lt in B; lia|].
  apply IH; assumption.
Qed.

(** On such a file [parse_ply_header] does not return. *)
Lemma parse_ply_header_hangs_on_short_file_without_terminator
    (fuel : nat) (f : list byte) :
  bytes_contains end_header f = false ->
  (Z.of_nat (List.length f) <= 10000)%Z ->
  parse_ply_header fuel (Some f) = None.
Proof.
  intros Hc Hlen. unfold parse_ply_header, try_block.
  rewrite read_header_runs_forever; [reflexivity|exact Hc|simpl; lia].
Qed.

Example parse_ply_header_hangs_on_empty_file (fuel : nat) :
  parse_ply_header fuel (Some []) = None.
Proof.
  apply parse_ply_header_hangs_on_short_file_without_terminator.
  - reflexivity.
  - simpl. lia.
Qed.

Example parse_ply_header_hangs_on_truncated_file (fuel : nat) :
  parse_ply_header fuel (Some Samples.truncated) = None.
Proof.
  apply parse_ply_header_hangs_on_short_file_without_terminator.
  - reflexivity.
  - simpl. lia.
Qed.

(** C4, as the spec has it, fails: a header longer than the budget and
    without terminator does not yield 0 when a line read before the budget
    was reached declares a count. *)
Lemma over_budget_header_yields_its_count :
  bytes_contains end_header Samples.unterminated = false /\
  (10000 < Z.of_nat (List.length Samples.unterminated))%Z /\
  parse_ply_header 2 (Some Samples.unterminated) = Some 7%Z.
Proof.
  split; [vm_compute; reflexivity|].
  split; vm_compute; reflexivity.
Qed.

End HeaderFacts.

(** ** The grouping of [print_comparison] *)

Module GroupingFacts.

Import Py CompareResults.

Lemma in_objects (models : list ModelInfo) (i : nat) (x : ModelInfo) :
  In (i, x) (objects models) <-> nth_error models i = Some x.
Proof.
  unfold objects. rewrite SchedulerFacts.in_combine_seq, Nat.sub_0_r.
  split; [tauto|]. intros H. split; [lia|exact H].
Qed.

(** Two listed objects with the same identity are the same object. *)
Lemma objects_identity (models : list ModelInfo) (m m' : object) :
  In m (objects models) -> In m' (objects models) -> fst m' = fst m -> m' = m.
Proof.
  destruct m as [i x], m' as [j y]. simpl. intros Hm Hm' ->.
  apply in_objects in Hm, Hm'. congruence.
Qed.

Lemma objects_NoDup (models : list ModelInfo) : NoDup (objects models).
Proof.
  unfold objects. generalize 0 as a.
  induction models as [|x l IH]; intros a; simpl; constructor.
  - intros H. apply SchedulerFacts.in_combine_seq in H. lia.
  - apply IH.
Qed.

(** Whether an object is listed in a group. *)
Lemma listed_in_filter (models : list ModelInfo) (p : object -> bool) (m : object) :
  In m (objects models) ->
  existsb (fun m' : object => Nat.eqb (fst m') (fst m)) (filter p (objects models))
  = p m.
Proof.
  intros Hm. destruct (p m) eqn:E.
  - apply existsb_exists. exists m. split.
    + apply filter_In. split; assumption.
    + apply Nat.eqb_refl.
  - apply not_true_is_false. intros H.
    apply existsb_exists in H. destruct H as (m' & Hin & Heq).
    apply filter_In in Hin. destruct Hin as (Hin & Hp).
    apply Nat.eqb_eq in Heq.
    rewrite (objects_identity models m m' Hm Hin Heq) in Hp. congruence.
Qed.

Lemma members_named (models : list ModelInfo) (g : group) :
  In g named_groups ->
  members models g = filter (fun m : object => rule g (name (snd m))) (objects models).
Proof.
  intros Hg. unfold members, groups, named, named_groups in *.
  simpl in Hg.
  repeat (destruct Hg as [<-|Hg];
          [cbn [map flat_map app fst snd group_eqb]; rewrite ?app_nil_r; reflexivity|]).
  contradiction.
Qed.

Lemma members_others (models : list ModelInfo) :
  members models Others =
  filter (fun m : object => negb (existsb (Nat.eqb (fst m)) (assigned models)))
         (objects models).
Proof.
  unfold members, groups, assigned, named, named_groups.
  cbn [map flat_map app fst snd group_eqb]. rewrite ?app_nil_r. reflexivity.
Qed.

Lemma assigned_iff (models : list ModelInfo) (m : object) :
  In m (objects models) ->
  existsb (Nat.eqb (fst m)) (assigned models) = true <->
  exists g, In g named_groups /\ rule g (name (snd m)) = true.
Proof.
  intros Hm. rewrite existsb_exists. unfold assigned, named. split.
  - intros (i & Hin & Heq). apply Nat.eqb_eq in Heq. subst i.
    apply in_flat_map in Hin. destruct Hin as ((g & ms) & Hg & Hi).
    apply in_map_iff in Hg. destruct Hg as (g' & Heq & Hg').
    injection Heq as -> <-. simpl in Hi.
    apply in_map_iff in Hi. destruct Hi as (m' & Hfst & Hin).
    apply filter_In in Hin. destruct Hin as (Hin & Hr).
    rewrite (objects_identity models m m' Hm Hin Hfst) in Hr.
    exists g. split; assumption.
  - intros (g & Hg & Hr). exists (fst m). split; [|apply Nat.eqb_refl].
    apply in_flat_map.
    exists (g, filter (fun m0 : object => rule g (name (snd m0))) (objects models)).
    split.
    + apply in_map_iff. exists g. split; [reflexivity|exact Hg].
    + simpl. apply in_map. apply filter_In. split; assumption.
Qed.

Lemma matches_zero (n : string) :
  matches n = 0 <-> forall g, In g named_groups -> rule g n = false.
Proof.
  unfold matches. split.
  - intros H g Hg. destruct (rule g n) eqn:E; [|reflexivity].
    assert (Hin : In g (filter (fun g => rule g n) named_groups))
      by (apply filter_In; split; assumption).
    destruct (filter (fun g => rule g n) named_groups); [contradiction|discriminate].
  - intros H. rewrite (proj2 (List.length_zero_iff_nil _)); [reflexivity|].
    destruct (filter (fun g => rule g n) named_groups) as [|g l] eqn:E; [reflexivity|].
    assert (Hin : In g (filter (fun g => rule g n) named_groups))
      by (rewrite E; left; reflexivity).
    apply filter_In in Hin. destruct Hin as (Hg & Hr).
    rewrite (H g Hg) in Hr. discriminate.
Qed.

Lemma group_cases (g : group) : In g named_groups \/ g = Others.
Proof. destruct g; simpl; tauto. Qed.

Lemma listed_in_named (models : list ModelInfo) (m : object) (gs : list group) :
  In m (objects models) ->
  List.length
    (filter (fun gm : group * list object =>
               existsb (fun m' : object => Nat.eqb (fst m') (fst m)) (snd gm))
            (map (fun g => (g, filter (fun m0 : object => rule g (name (snd m0)))
                                      (objects models))) gs))
  = List.length (filter (fun g => rule g (name (snd m))) gs).
Proof.
  intros Hm. induction gs as [|g gs IH]; [reflexivity|].
  cbn [map filter snd].
  rewrite (listed_in_filter models (fun m0 => rule g (name (snd m0))) m Hm).
  destruct (rule g (name (snd m))); simpl; rewrite IH; reflexivity.
Qed.

(** C8, as the code has it. The rules test whether a key occurs anywhere in
    the name, and each rule fills its group on its own. A model is listed in
    every group whose rule fits its name, and in the catch-all group exactly
    when no rule fits. So every model is listed somewhere, a group lists only
    models of the input and lists none twice, and a model is listed in as
    many groups as rules fit its name, in one group when none does. *)
Theorem every_model_is_listed_in_each_group_it_fits
    (models : list ModelInfo) (m : object) :
  In m (objects models) ->
  (forall g, In g named_groups ->
             (In m (members models g) <-> rule g (name (snd m)) = true)) /\
  (In m (members models Others) <->
   forall g, In g named_groups -> rule g (name (snd m)) = false) /\
  (exists g, In m (members models g)) /\
  (forall g, NoDup (members models g) /\ incl (members models g) (objects models)) /\
  appearances models m = Nat.max 1 (matches (name (snd m))).
Proof.
  intros Hm.
  assert (Hnamed : forall g, In g named_groups ->
             (In m (members models g) <-> rule g (name (snd m)) = true)).
  { intros g Hg. rewrite (members_named models g Hg), filter_In. tauto. }
  assert (Hothers : In m (members models Others) <->
             forall g, In g named_groups -> rule g (name (snd m)) = false).
  { rewrite members_others, filter_In, negb_true_iff. split.
    - intros (_ & Hno) g Hg.
      destruct (rule g (name (snd m))) eqn:E; [|reflexivity].
      assert (Hyes : existsb (Nat.eqb (fst m)) (assigned models) = true)
        by (apply assigned_iff; [exact Hm|exists g; split; assumption]).
      congruence.
    - intros Hno. split; [exact Hm|].
      apply not_true_is_false. intros Hyes.
      apply assigned_iff in Hyes; [|exact Hm].
      destruct Hyes as (g & Hg & Hr). rewrite (Hno g Hg) in Hr. discriminate. }
  split; [exact Hnamed|]. split; [exact Hothers|]. split; [|split].
  - destruct (matches (name (snd m))) eqn:E.
    + exists Others. apply Hothers, matches_zero, E.
    + unfold matches in E.
      destruct (filter (fun g => rule g (name (snd m))) named_groups) as [|g l] eqn:F;
        [discriminate|].
      assert (Hin : In g (filter (fun g => rule g (name (snd m))) named_groups))
        by (rewrite F; left; reflexivity).
      apply filter_In in Hin. destruct Hin as (Hg & Hr).
      exists g. apply Hnamed; assumption.
  - intros g. destruct (group_cases g) as [Hg | ->].
    + rewrite (members_named models g Hg). split.
      * apply NoDup_filter, objects_NoDup.
      * apply incl_filter.
    + rewrite members_others. split.
      * apply NoDup_filter, objects_NoDup.
      * apply incl_filter.
  - unfold appearances, groups. rewrite filter_app, length_app.
    unfold named. rewrite (listed_in_named models m named_groups Hm).
    fold (matches (name (snd m))).
    cbn [filter snd].
    rewrite (listed_in_filter models
               (fun m0 => negb (existsb (Nat.eqb (fst m0)) (assigned models))) m Hm).
    destruct (matches (name (snd m))) eqn:E.
    + pose proof (proj2 Hothers (proj1 (matches_zero _) E)) as Hin.
      rewrite members_others, filter_In in Hin. destruct Hin as (_ & ->). reflexivity.
    + assert (Hyes : existsb (Nat.eqb (fst m)) (assigned models) = true).
      { apply assigned_iff; [exact Hm|].
        unfold matches in E.
        destruct (filter (fun g => rule g (name (snd m))) named_groups) as [|g l] eqn:F;
          [discriminate|].
        assert (Hin : In g (filter (fun g => rule g (name (snd m))) named_groups))
          by (rewrite F; left; reflexivity).
        apply filter_In in Hin. exists g. exact Hin. }
      rewrite Hyes. simpl. lia.
Qed.

Lemma every_model_is_listed_in_each_group_it_fits_witness :
  In (3, Samples.model "draft") (objects Samples.varied) /\
  In (3, Samples.model "draft") (members Samples.varied Others) /\
  appearances Samples.varied (3, Samples.model "draft") = 1.
Proof.
  assert (H : In (3, Samples.model "draft") (objects Samples.varied))
    by (simpl; tauto).
  split; [exact H|].
  destruct (every_model_is_listed_in_each_group_it_fits Samples.varied _ H)
    as (_ & Hothers & _ & _ & Hcount).
  split; [|exact Hcount].
  apply Hothers. intros g Hg. simpl in Hg.
  repeat (destruct Hg as [<-|Hg]; [reflexivity|]). contradiction.
Defined.

(** C8, as the spec has it, fails. A model whose name has the keys of two
    rules is listed in both groups, so the first fitting rule does not win;
    and a key is looked for anywhere in the name, not at its start. *)
Lemma a_model_is_listed_in_two_groups :
  In (0, Samples.model "scale_2_sh_1") (objects Samples.varied) /\
  In (0, Samples.model "scale_2_sh_1") (members Samples.varied Resolution) /\
  In (0, Samples.model "scale_2_sh_1") (members Samples.varied SphericalHarmonics) /\
  appearances Samples.varied (0, Samples.model "scale_2_sh_1") = 2 /\
  startswith "sh_" "my_sh_1" = false /\
  In (1, Samples.model "my_sh_1") (members Samples.varied SphericalHarmonics).
Proof.
  split; [simpl; tauto|]. split; [simpl; tauto|]. split; [simpl; tauto|].
  split; [reflexivity|]. split; [reflexivity|]. simpl; tauto.
Qed.

End GroupingFacts.

(** * Further properties *)

(** ** The library and the command line *)

Module LibFacts.

Import Py PyLib.

Lemma append_assoc (a b c : string) : ((a ++ b) ++ c = a ++ (b ++ c))%string.
Proof. induction a as [|x a IH]; simpl; [reflexivity|]. rewrite IH. reflexivity. Qed.

Lemma append_nil_r (a : string) : (a ++ "" = a)%string.
Proof. induction a as [|x a IH]; simpl; [reflexivity|]. rewrite IH. reflexivity. Qed.

Lemma has_char_app (c : ascii) (a b : string) :
  has_char c (a ++ b) = has_char c a || has_char c b.
Proof.
  induction a as [|x a IH]; simpl; [reflexivity|].
  rewrite IH. apply orb_assoc.
Qed.

Lemma basename_without_slash (s : string) :
  has_char "/" s = false -> basename s = s.
Proof. intros H. destruct s as [|c s]; [reflexivity|]. cbn [basename]. rewrite H. reflexivity. Qed.

Lemma basename_after_slash (a b : string) :
  basename (a ++ String "/" b) = basename b.
Proof.
  induction a as [|c a IH].
  - cbn [append basename has_char]. rewrite Ascii.eqb_refl. reflexivity.
  - cbn [append basename]. 
    replace (has_char "/" (String c (a ++ String "/" b))) with true.
    + exact IH.
    + symmetry. cbn [has_char]. rewrite has_char_app. cbn [has_char].
      rewrite Ascii.eqb_refl. rewrite !orb_true_r. reflexivity.
Qed.

Lemma head_of_without_slash (s : string) :
  has_char "/" s = false -> head_of s = "".
Proof. intros H. destruct s as [|c s]; [reflexivity|]. cbn [head_of]. rewrite H. reflexivity. Qed.

Lemma endswith_char_split (c : ascii) (a : string) :
  endswith_char c a = true -> exists a', a = (a' ++ String c "")%string.
Proof.
  induction a as [|x a IH]; [discriminate|].
  destruct a as [|y a].
  - simpl. intros H. apply Ascii.eqb_eq in H. subst x. exists "". reflexivity.
  - intros H. change (endswith_char c (String y a) = true) in H.
    destruct (IH H) as (a' & Ha). exists (String x a'). simpl. rewrite <- Ha. reflexivity.
Qed.


Lemma list_ascii_of_string_app (a b : string) :
  list_ascii_of_string (a ++ b) = list_ascii_of_string a ++ list_ascii_of_string b.
Proof. induction a as [|x a IH]; simpl; [reflexivity|]. rewrite IH. reflexivity. Qed.

Lemma break_at_absent (c : ascii) (l : list ascii) :
  forallb (fun a => negb (Ascii.eqb a c)) l = true -> break_at c l = None.
Proof.
  induction l as [|a l IH]; simpl; [reflexivity|].
  intros H. apply andb_true_iff in H. destruct H as (Ha & Hl).
  apply negb_true_iff in Ha. rewrite Ha, (IH Hl). reflexivity.
Qed.

Lemma break_at_first (c : ascii) (before after : list ascii) :
  forallb (fun a => negb (Ascii.eqb a c)) before = true ->
  break_at c (before ++ c :: after) = Some (before, after).
Proof.
  induction before as [|a l IH]; simpl.
  - intros _. rewrite Ascii.eqb_refl. reflexivity.
  - intros H. apply andb_true_iff in H. destruct H as (Ha & Hl).
    apply negb_true_iff in Ha. rewrite Ha, (IH Hl). reflexivity.
Qed.

Lemma forallb_rev {A : Type} (p : A -> bool) (l : list A) :
  forallb p (rev l) = forallb p l.
Proof.
  induction l as [|x l IH]; simpl; [reflexivity|].
  rewrite forallb_app, IH. simpl. rewrite andb_true_r. apply andb_comm.
Qed.

(** The extension [.ply] comes off a name again, unless the name has nothing
    but dots. *)
Lemma splitext_ply (n : string) :
  has_char "/" n = false ->
  splitext (n ++ ".ply") = if only_dots n then ((n ++ ".ply")%string, "") else (n, ".ply").
Proof.
  intros Hn. unfold splitext, only_dots.
  assert (Hs : has_char "/" (n ++ ".ply") = false)
    by (rewrite has_char_app, Hn; reflexivity).
  rewrite (basename_without_slash _ Hs), (head_of_without_slash _ Hs).
  rewrite list_ascii_of_string_app, rev_app_distr.
  change (rev (list_ascii_of_string ".ply"))
    with (["y"; "l"; "p"]%char ++ "."%char :: []).
  rewrite <- app_assoc. cbn [app].
  change ("y"%char :: "l"%char :: "p"%char :: "."%char :: rev (list_ascii_of_string n))
    with (["y"; "l"; "p"]%char ++ "."%char :: rev (list_ascii_of_string n)).
  rewrite break_at_first by reflexivity.
  rewrite forallb_rev.
  destruct (forallb (Ascii.eqb ".") (list_ascii_of_string n)); [reflexivity|].
  rewrite rev_involutive, string_of_list_ascii_of_string. reflexivity.
Qed.

Lemma startswith_slash_has_char (s : string) :
  has_char "/" s = false -> startswith "/" s = false.
Proof.
  destruct s as [|c s]; [reflexivity|].
  cbn [has_char]. intros H. apply orb_false_iff in H. destruct H as (Hc & _).
  unfold startswith. cbn [String.prefix].
  destruct (ascii_dec "/" c) as [<-|]; [|reflexivity].
  rewrite Ascii.eqb_refl in Hc. discriminate.
Qed.

(** The base name of a joined path is the name that was joined. *)
Lemma basename_path_join (dir n : string) :
  has_char "/" n = false -> basename (path_join dir n) = n.
Proof.
  intros Hn. unfold path_join.
  rewrite (startswith_slash_has_char _ Hn).
  destruct (String.eqb dir "") eqn:E.
  - apply String.eqb_eq in E. subst dir. cbn [orb append].
    apply basename_without_slash, Hn.
  - cbn [orb]. destruct (endswith_char "/" dir) eqn:F.
    + destruct (endswith_char_split _ _ F) as (a & ->).
      rewrite append_assoc.
      change (String "/" "" ++ n)%string with (String "/" n).
      rewrite (basename_after_slash a n). apply basename_without_slash, Hn.
    + change ("/" ++ n)%string with (String "/" n).
      rewrite (basename_after_slash dir n). apply basename_without_slash, Hn.
Qed.

(** Splitting at blanks. *)
Lemma split_ws_from_nil (cur : string) :
  split_ws_from cur "" = if String.eqb cur "" then [] else [cur].
Proof. reflexivity. Qed.

Lemma split_ws_from_word (cur w rest : string) :
  forallb (fun c => negb (is_space c)) (list_ascii_of_string w) = true ->
  split_ws_from cur (w ++ rest) = split_ws_from (cur ++ w) rest.
Proof.
  revert cur. induction w as [|c w IH]; intros cur H.
  - rewrite append_nil_r. reflexivity.
  - cbn [list_ascii_of_string forallb] in H.
    apply andb_true_iff in H. destruct H as (Hc & Hw).
    apply negb_true_iff in Hc.
    cbn [append split_ws_from]. rewrite Hc.
    rewrite (IH _ Hw). rewrite append_assoc. reflexivity.
Qed.

Lemma split_ws_from_blank (cur a b : string) :
  split_ws_from cur (a ++ String " " b) = split_ws_from cur a ++ split_ws b.
Proof.
  revert cur. induction a as [|c a IH]; intros cur.
  - cbn [append split_ws_from]. change (is_space " ") with true. cbv iota.
    unfold split_ws. destruct (String.eqb cur ""); reflexivity.
  - cbn [append split_ws_from].
    destruct (is_space c).
    + destruct (String.eqb cur ""); [apply IH|].
      rewrite IH. reflexivity.
    + apply IH.
Qed.

Lemma split_ws_blank (a b : string) :
  split_ws (a ++ String " " b) = split_ws a ++ split_ws b.
Proof. apply split_ws_from_blank. Qed.

Lemma split_ws_word (w : string) : word w = true -> split_ws w = [w].
Proof.
  unfold word, split_ws. intros H. apply andb_true_iff in H. destruct H as (Hne & Hw).
  rewrite <- (append_nil_r w) at 1.
  rewrite (split_ws_from_word "" w "" Hw). cbn [append split_ws_from].
  apply negb_true_iff in Hne. rewrite Hne. reflexivity.
Qed.

(** Dictionaries: what is set is found, the other keys keep their value. *)
Lemma dict_get_set_same (k v : string) (d : dict) :
  dict_get k (dict_set k v d) = Some v.
Proof.
  induction d as [|[k' v'] d IH]; simpl.
  - rewrite String.eqb_refl. reflexivity.
  - destruct (String.eqb k' k) eqn:E; simpl; rewrite E; [reflexivity|exact IH].
Qed.

Lemma dict_get_set_other (k k0 v : string) (d : dict) :
  k0 <> k -> dict_get k0 (dict_set k v d) = dict_get k0 d.
Proof.
  intros Hne. induction d as [|[k' v'] d IH]; simpl.
  - destruct (String.eqb k k0) eqn:E; [apply String.eqb_eq in E; congruence|reflexivity].
  - destruct (String.eqb k' k) eqn:E; simpl.
    + apply String.eqb_eq in E. subst k'.
      destruct (String.eqb k k0) eqn:E0; [apply String.eqb_eq in E0; congruence|reflexivity].
    + destruct (String.eqb k' k0); [reflexivity|exact IH].
Qed.

End LibFacts.

Module CommandFacts.

Import Py PyLib OS CompareResults ParamTest Command LibFacts.

(** *** [int(str(n))] *)

Ltac eval_digit :=
  match goal with
  | |- context [digit_value ?c] =>
      let v := eval vm_compute in (digit_value c) in
      change (digit_value c) with v
  end.

Lemma digits_from_acc (d : Decimal.uint) (acc : positive) :
  digits_from (Z.pos acc) true (NilEmpty.string_of_uint d)
  = Some (Z.pos (Pos.of_uint_acc d acc)).
Proof.
  revert acc. induction d as [|d IH|d IH|d IH|d IH|d IH|d IH|d IH|d IH|d IH|d IH];
    intros acc; cbn [NilEmpty.string_of_uint Pos.of_uint_acc];
    [reflexivity| ..];
    (cbn [digits_from]; eval_digit; cbv iota beta;
     rewrite <- IH; f_equal; lia).
Qed.

Lemma digits_from_zero (d : Decimal.uint) :
  digits_from 0 true (NilEmpty.string_of_uint d) = Some (Z.of_N (Pos.of_uint d)).
Proof.
  induction d as [|d IH|d IH|d IH|d IH|d IH|d IH|d IH|d IH|d IH|d IH];
    cbn [NilEmpty.string_of_uint Pos.of_uint]; [reflexivity| ..];
    (cbn [digits_from]; eval_digit; cbv iota beta;
     cbn [Z.mul Z.add Z.of_N]; first [exact IH | apply digits_from_acc]).
Qed.

(** A numeral without sign reads back as its value. *)
Lemma digits_from_numeral (d : Decimal.uint) :
  d <> Decimal.Nil ->
  digits_from 0 false (NilEmpty.string_of_uint d) = Some (Z.of_N (Pos.of_uint d)) /\
  int_literal (NilEmpty.string_of_uint d) = Some (Z.of_N (Pos.of_uint d)).
Proof.
  intros Hd.
  assert (H : digits_from 0 false (NilEmpty.string_of_uint d)
              = digits_from 0 true (NilEmpty.string_of_uint d)).
  { destruct d; [congruence| ..];
      cbn [NilEmpty.string_of_uint digits_from]; eval_digit; reflexivity. }
  split; [rewrite H; apply digits_from_zero|].
  rewrite <- digits_from_zero, <- H.
  destruct d; [congruence| ..]; reflexivity.
Qed.

Lemma numeral_of_positive (p : positive) :
  Pos.to_uint p <> Decimal.Nil /\
  NilZero.string_of_uint (Pos.to_uint p) = NilEmpty.string_of_uint (Pos.to_uint p).
Proof.
  pose proof (Unsigned.of_to p) as Hp.
  assert (Hd : Pos.to_uint p <> Decimal.Nil)
    by (intros E; rewrite E in Hp; discriminate Hp).
  split; [exact Hd|].
  unfold NilZero.string_of_uint. destruct (Pos.to_uint p); [congruence| ..]; reflexivity.
Qed.

(** The literal [str(n)] has the value [n]. *)
Lemma int_literal_str_of_int (z : Z) : int_literal (str_of_int z) = Some z.
Proof.
  unfold str_of_int. destruct z as [|p|p]; [reflexivity| |];
    cbn [Z.to_int NilZero.string_of_int];
    destruct (numeral_of_positive p) as (Hd & ->);
    pose proof (Unsigned.of_to p) as Hp.
  - rewrite (proj2 (digits_from_numeral _ Hd)), Hp. reflexivity.
  - cbn [int_literal]. rewrite (proj1 (digits_from_numeral _ Hd)), Hp. reflexivity.
Qed.

Lemma str_of_int_injective (a b : Z) : str_of_int a = str_of_int b -> a = b.
Proof.
  intros H. pose proof (int_literal_str_of_int a) as Ha.
  rewrite H, int_literal_str_of_int in Ha. congruence.
Qed.

(** *** The digits of [str(n)] *)

Lemma digit_count_numeral (d : Decimal.uint) :
  digit_count (NilEmpty.string_of_uint d) = Decimal.nb_digits d.
Proof.
  unfold digit_count.
  induction d; cbn [NilEmpty.string_of_uint list_ascii_of_string Decimal.nb_digits];
    [reflexivity| ..];
    (cbn [filter]; eval_digit; cbv iota beta; cbn [List.length]; rewrite IHd; reflexivity).
Qed.

(** A numeral read from the left, after digits worth [acc], is worth at
    least [acc] shifted by its length. *)
Lemma of_uint_acc_lower (d : Decimal.uint) (acc : positive) :
  (Z.pos acc * 10 ^ Z.of_nat (Decimal.nb_digits d) <= Z.pos (Pos.of_uint_acc d acc))%Z.
Proof.
  revert acc.
  induction d as [|d IH|d IH|d IH|d IH|d IH|d IH|d IH|d IH|d IH|d IH]; intros acc;
    cbn [Pos.of_uint_acc Decimal.nb_digits];
    [rewrite Z.pow_0_r; lia| ..];
    (rewrite Nat2Z.inj_succ, Z.pow_succ_r by lia;
     eapply Z.le_trans; [|apply IH];
     pose proof (Z.pow_pos_nonneg 10 (Z.of_nat (Decimal.nb_digits d))
                   ltac:(lia) ltac:(lia));
     nia).
Qed.

(** The numeral of a positive number has no leading zero. *)
Lemma to_uint_leading (p : positive) :
  exists acc d,
    N.pos p = N.pos (Pos.of_uint_acc d acc) /\
    Decimal.nb_digits (Pos.to_uint p) = S (Decimal.nb_digits d).
Proof.
  pose proof (Unsigned.of_to p) as Hof.
  pose proof (DecimalPos.Unsigned.to_of (Pos.to_uint p)) as Hto.
  rewrite Hof in Hto. cbn [N.to_uint] in Hto.
  pose proof (Unsigned.to_uint_nonzero p) as Hnz.
  destruct (Pos.to_uint p) as [|d|d|d|d|d|d|d|d|d|d] eqn:E.
  - discriminate Hof.
  - exfalso. rewrite DecimalFacts.unorm_D0 in Hto.
    destruct (Nat.eq_dec (Decimal.nb_digits d) 0) as [H0|H0].
    + apply DecimalFacts.nb_digits_0 in H0. subst d. apply Hnz. reflexivity.
    + pose proof (DecimalFacts.nb_digits_unorm d (DecimalFacts.nb_digits_n0 d H0)) as Hle.
      rewrite <- Hto in Hle. cbn [Decimal.nb_digits] in Hle. lia.
  - exists 1%positive, d. cbn [Pos.of_uint] in Hof. split; [symmetry; exact Hof|reflexivity].
  - exists 2%positive, d. cbn [Pos.of_uint] in Hof. split; [symmetry; exact Hof|reflexivity].
  - exists 3%positive, d. cbn [Pos.of_uint] in Hof. split; [symmetry; exact Hof|reflexivity].
  - exists 4%positive, d. cbn [Pos.of_uint] in Hof. split; [symmetry; exact Hof|reflexivity].
  - exists 5%positive, d. cbn [Pos.of_uint] in Hof. split; [symmetry; exact Hof|reflexivity].
  - exists 6%positive, d. cbn [Pos.of_uint] in Hof. split; [symmetry; exact Hof|reflexivity].
  - exists 7%positive, d. cbn [Pos.of_uint] in Hof. split; [symmetry; exact Hof|reflexivity].
  - exists 8%positive, d. cbn [Pos.of_uint] in Hof. split; [symmetry; exact Hof|reflexivity].
  - exists 9%positive, d. cbn [Pos.of_uint] in Hof. split; [symmetry; exact Hof|reflexivity].
Qed.

(** A positive number below [10^n] has at most [n] digits. *)
Lemma digits_of_positive (p : positive) (n : Z) :
  (0 <= n)%Z -> (Z.pos p < 10 ^ n)%Z ->
  (Z.of_nat (Decimal.nb_digits (Pos.to_uint p)) <= n)%Z.
Proof.
  intros Hn Hp. destruct (to_uint_leading p) as (acc & d & Hv & Hlen).
  rewrite Hlen. injection Hv as Hv.
  pose proof (of_uint_acc_lower d acc) as Hlow. rewrite <- Hv in Hlow.
  destruct (Z_le_gt_dec (Z.of_nat (S (Decimal.nb_digits d))) n) as [H|H]; [exact H|].
  exfalso.
  assert (Hpow : (10 ^ n <= 10 ^ Z.of_nat (Decimal.nb_digits d))%Z)
    by (apply Z.pow_le_mono_r; lia).
  pose proof (Z.pow_pos_nonneg 10 (Z.of_nat (Decimal.nb_digits d))
                ltac:(lia) ltac:(lia)).
  nia.
Qed.

Lemma digit_count_str_of_int (z : Z) (n : Z) :
  (1 <= n)%Z -> (Z.abs z < 10 ^ n)%Z ->
  (Z.of_nat (digit_count (str_of_int z)) <= n)%Z.
Proof.
  intros Hn Hz. unfold str_of_int. destruct z as [|p|p].
  - change (digit_count (NilZero.string_of_int (Z.to_int 0))) with 1. lia.
  - cbn [Z.to_int NilZero.string_of_int].
    destruct (numeral_of_positive p) as (_ & ->).
    rewrite digit_count_numeral. apply digits_of_positive; [lia|exact Hz].
  - cbn [Z.to_int NilZero.string_of_int].
    destruct (numeral_of_positive p) as (_ & ->).
    change (digit_count (String "-" (NilEmpty.string_of_uint (Pos.to_uint p))))
      with (digit_count (NilEmpty.string_of_uint (Pos.to_uint p))).
    rewrite digit_count_numeral. apply digits_of_positive; [lia|exact Hz].
Qed.

(** [int(str(n)) == n], for a number of at most 4300 digits. *)
Lemma py_int_str_of_int (z : Z) :
  (Z.abs z < 10 ^ 4300)%Z -> py_int (str_of_int z) = Some z.
Proof.
  intros Hz. unfold py_int, max_str_digits.
  pose proof (digit_count_str_of_int z 4300 ltac:(lia) Hz) as Hd.
  destruct (4300 <? Z.of_nat (digit_count (str_of_int z)))%Z eqn:E;
    [apply Z.ltb_lt in E; lia|].
  apply int_literal_str_of_int.
Qed.


(** *** The command line *)

Lemma param_text (k v : string) :
  (if negb (startswith "-" k) then ("--" ++ k ++ " " ++ v)%string
   else (k ++ " " ++ v)%string)
  = (flag k ++ String " " v)%string.
Proof. unfold flag. destruct (startswith "-" k); reflexivity. Qed.

Lemma split_ws_concat (l : list string) :
  split_ws (String.concat " " l) = flat_map split_ws l.
Proof.
  induction l as [|x l IH]; [reflexivity|].
  destruct l as [|y l].
  - cbn [String.concat flat_map]. rewrite app_nil_r. reflexivity.
  - change (String.concat " " (x :: y :: l))
      with (x ++ String " " (String.concat " " (y :: l)))%string.
    rewrite split_ws_blank, IH. reflexivity.
Qed.

Lemma split_ws_params (ps : Py.dict) :
  split_ws
    (join " "
       (map (fun kv : string * string =>
               let (k, v) := kv in
               if negb (startswith "-" k) then ("--" ++ k ++ " " ++ v)%string
               else (k ++ " " ++ v)%string) ps))
  = flat_map (fun kv : string * string => split_ws (flag (fst kv)) ++ split_ws (snd kv)) ps.
Proof.
  unfold join. rewrite split_ws_concat.
  induction ps as [|[k v] ps IH]; [reflexivity|].
  cbn [map flat_map fst snd]. rewrite IH, param_text, split_ws_blank. reflexivity.
Qed.

Lemma word_flag (k : string) : word k = true -> word (flag k) = true.
Proof.
  unfold flag. destruct (startswith "-" k); [tauto|].
  unfold word. intros H. apply andb_true_iff in H. destruct H as (_ & H).
  cbn [append list_ascii_of_string forallb String.eqb]. exact H.
Qed.

(** X1. The arguments [run_single_test] passes between the output file and
    the data path are the words of the options and of the values of the test
    case, in insertion order: a value without words adds no argument and a
    value of several words adds several. When every key and every value is
    one word, the command line is the tool, [-o], the output file, one
    option and one value per parameter, and the data path. *)
Theorem command_line_carries_the_parameters (self : OpenSplatTester) (tc : TestCase) :
  split_ws (get_param_str tc)
  = flat_map (fun kv : string * string => split_ws (flag (fst kv)) ++ split_ws (snd kv))
             (params tc) /\
  (forallb (fun kv : string * string => word (fst kv) && word (snd kv)) (params tc) = true ->
   cmd_of self tc
   = [opensplat_path self; "-o"; output_file_of self tc]
       ++ options (params tc) ++ [data_path self] /\
   List.length (cmd_of self tc) = 4 + 2 * List.length (params tc)).
Proof.
  assert (H : split_ws (get_param_str tc)
              = flat_map (fun kv : string * string =>
                            split_ws (flag (fst kv)) ++ split_ws (snd kv)) (params tc))
    by apply split_ws_params.
  split; [exact H|]. intros Hw.
  assert (Ho : split_ws (get_param_str tc) = options (params tc)).
  { rewrite H. unfold options. clear H.
    induction (params tc) as [|[k v] ps IH]; [reflexivity|].
    cbn [forallb fst snd] in Hw. apply andb_true_iff in Hw. destruct Hw as (Hkv & Hps).
    apply andb_true_iff in Hkv. destruct Hkv as (Hk & Hv).
    cbn [flat_map fst snd].
    rewrite (split_ws_word _ (word_flag _ Hk)), (split_ws_word _ Hv), (IH Hps).
    reflexivity. }
  unfold cmd_of. rewrite Ho. split; [reflexivity|].
  cbn [app List.length]. rewrite length_app. cbn [List.length].
  assert (Hl : List.length (options (params tc)) = 2 * List.length (params tc)).
  { unfold options. generalize (params tc) as ps. clear.
    induction ps as [|kv ps IH]; [reflexivity|].
    cbn [flat_map app List.length]. rewrite IH. lia. }
  rewrite Hl. lia.
Qed.

Lemma command_line_carries_the_parameters_witness :
  forallb (fun kv : string * string => word (fst kv) && word (snd kv))
          (params Samples.scale_2) = true /\
  cmd_of (Samples.tester 1) Samples.scale_2
  = ["./opensplat"; "-o"; "./output/scale_2.ply";
     "--downscale-factor"; "2"; "--num-iters"; "1000"; "./banana"].
Proof.
  split; [reflexivity|].
  destruct (command_line_carries_the_parameters (Samples.tester 1) Samples.scale_2)
    as (_ & H).
  destruct (H eq_refl) as (Hcmd & _). rewrite Hcmd. reflexivity.
Defined.

(** X2. The environment of the tool has [CUDA_VISIBLE_DEVICES] set to the
    decimal numeral of the slot and every other variable as the scheduler
    found it; different slots give different values of the variable. *)
Theorem child_environment_names_the_slot (w : world) (gpu : Z) :
  dict_get "CUDA_VISIBLE_DEVICES" (env_of w gpu) = Some (str_of_int gpu) /\
  (forall k, k <> "CUDA_VISIBLE_DEVICES" ->
             dict_get k (env_of w gpu) = dict_get k (environ w)) /\
  (forall gpu', dict_get "CUDA_VISIBLE_DEVICES" (env_of w gpu')
                = dict_get "CUDA_VISIBLE_DEVICES" (env_of w gpu) -> gpu' = gpu).
Proof.
  unfold env_of. split; [apply dict_get_set_same|]. split.
  - intros k Hk. apply dict_get_set_other. exact Hk.
  - intros gpu'. rewrite !dict_get_set_same. intros H.
    apply str_of_int_injective. congruence.
Qed.

Lemma append_inv_head (p a b : string) : (p ++ a = p ++ b)%string -> a = b.
Proof. induction p as [|c p IH]; simpl; intros H; [exact H|]. apply IH. congruence. Qed.

Lemma append_inv_tail (a b t : string) : (a ++ t = b ++ t)%string -> a = b.
Proof.
  intros H. apply (f_equal list_ascii_of_string) in H.
  rewrite !list_ascii_of_string_app in H. apply app_inv_tail in H.
  rewrite <- (string_of_list_ascii_of_string a), <- (string_of_list_ascii_of_string b).
  congruence.
Qed.

Lemma head_of_after_slash (a b : string) :
  head_of (a ++ String "/" b) = (a ++ String "/" (head_of b))%string.
Proof.
  induction a as [|c a IH].
  - cbn [append head_of has_char]. rewrite Ascii.eqb_refl. reflexivity.
  - cbn [append head_of].
    replace (has_char "/" (String c (a ++ String "/" b))) with true.
    + rewrite IH. reflexivity.
    + symmetry. cbn [has_char]. rewrite has_char_app. cbn [has_char].
      rewrite Ascii.eqb_refl. rewrite !orb_true_r. reflexivity.
Qed.

(** The directory part of a joined path does not depend on the name that
    was joined. *)
Lemma head_of_path_join (dir n : string) :
  has_char "/" n = false ->
  head_of (path_join dir n)
  = if String.eqb dir "" || endswith_char "/" dir then dir else (dir ++ "/")%string.
Proof.
  intros Hn. unfold path_join.
  rewrite (startswith_slash_has_char _ Hn).
  destruct (String.eqb dir "") eqn:E.
  - apply String.eqb_eq in E. subst dir. cbn [orb append].
    apply head_of_without_slash, Hn.
  - cbn [orb]. destruct (endswith_char "/" dir) eqn:F.
    + destruct (endswith_char_split _ _ F) as (a & ->).
      rewrite append_assoc.
      change (String "/" "" ++ n)%string with (String "/" n).
      rewrite (head_of_after_slash a n), (head_of_without_slash _ Hn). reflexivity.
    + change ("/" ++ n)%string with (String "/" n).
      rewrite (head_of_after_slash dir n), (head_of_without_slash _ Hn). reflexivity.
Qed.

(** X3. Test cases whose names have no slash get output paths with one
    and the same directory part, which is all of the path up to its last
    slash, and with the file name [name.ply]; when the names differ from
    each other, so do the file names, and so do the paths. *)
Theorem distinct_names_give_distinct_file_names_in_one_directory
    (self : OpenSplatTester) (tcs : list TestCase) :
  forallb (fun tc => negb (has_char "/" (name tc))) tcs = true ->
  NoDup (map name tcs) ->
  (exists directory,
      forall tc, In tc tcs ->
        head_of (output_file_of self tc) = directory /\
        basename (output_file_of self tc) = (name tc ++ ".ply")%string /\
        output_file_of self tc = (directory ++ name tc ++ ".ply")%string) /\
  NoDup (map (fun tc => basename (output_file_of self tc)) tcs) /\
  NoDup (map (output_file_of self) tcs).
Proof.
  intros Hslash Hnd. rewrite forallb_forall in Hslash.
  assert (Hply : forall tc, In tc tcs -> has_char "/" (name tc ++ ".ply") = false).
  { intros tc Hin. rewrite has_char_app.
    specialize (Hslash tc Hin). apply negb_true_iff in Hslash.
    rewrite Hslash. reflexivity. }
  assert (Hparts : forall tc, In tc tcs ->
            head_of (output_file_of self tc)
            = (if String.eqb (output_dir self) "" || endswith_char "/" (output_dir self)
               then output_dir self else (output_dir self ++ "/")%string) /\
            basename (output_file_of self tc) = (name tc ++ ".ply")%string).
  { intros tc Hin. unfold output_file_of. split.
    - apply head_of_path_join, Hply, Hin.
    - apply basename_path_join, Hply, Hin. }
  assert (Hbase : NoDup (map (fun tc => basename (output_file_of self tc)) tcs)).
  { induction tcs as [|tc tcs IH]; [constructor|].
    cbn [map] in *. inversion Hnd as [|x l Hnotin Hnd']; subst.
    constructor.
    - intros Hin. apply Hnotin. apply in_map_iff in Hin.
      destruct Hin as (tc' & Heq & Hin').
      rewrite (proj2 (Hparts tc (or_introl eq_refl))) in Heq.
      rewrite (proj2 (Hparts tc' (or_intror Hin'))) in Heq.
      apply append_inv_tail in Heq. rewrite <- Heq. apply in_map. exact Hin'.
    - apply IH; [|exact Hnd'| |].
      + intros x Hx. apply Hslash. right. exact Hx.
      + intros x Hx. apply Hply. right. exact Hx.
      + intros x Hx. apply Hparts. right. exact Hx. }
  split; [|split; [exact Hbase|]].
  - eexists. intros tc Hin. destruct (Hparts tc Hin) as (Hh & Hb).
    split; [exact Hh|]. split; [exact Hb|].
    unfold output_file_of, path_join.
    assert (Hs : startswith "/" (name tc ++ ".ply") = false)
      by (apply startswith_slash_has_char, Hply, Hin).
    rewrite Hs.
    destruct (String.eqb (output_dir self) "" || endswith_char "/" (output_dir self));
      [reflexivity|]. rewrite append_assoc. reflexivity.
  - clear Hparts Hply Hslash Hnd.
    induction tcs as [|tc tcs IH]; [constructor|].
    cbn [map] in *. inversion Hbase as [|x l Hnotin Hb']; subst.
    constructor; [|apply IH; exact Hb'].
    intros Hin. apply Hnotin. apply in_map_iff in Hin.
    destruct Hin as (tc' & Heq & Hin'). apply in_map_iff.
    exists tc'. split; [rewrite Heq; reflexivity|exact Hin'].
Qed.

Lemma distinct_names_give_distinct_file_names_in_one_directory_witness :
  forallb (fun tc => negb (has_char "/" (name tc)))
          [Samples.baseline; Samples.scale_2; Samples.sh_1] = true /\
  NoDup (map name [Samples.baseline; Samples.scale_2; Samples.sh_1]) /\
  NoDup ["baseline.ply"; "scale_2.ply"; "sh_1.ply"] /\
  NoDup ["./output/baseline.ply"; "./output/scale_2.ply"; "./output/sh_1.ply"].
Proof.
  assert (Hn : NoDup (map name [Samples.baseline; Samples.scale_2; Samples.sh_1])).
  { repeat constructor; simpl; intros H;
      repeat (destruct H as [H|H]; [discriminate|]); exact H. }
  split; [reflexivity|]. split; [exact Hn|].
  exact (proj2 (distinct_names_give_distinct_file_names_in_one_directory
                  (Samples.tester 1)
                  [Samples.baseline; Samples.scale_2; Samples.sh_1] eq_refl Hn)).
Defined.

End CommandFacts.

(** ** More on the executor and the scheduler *)

Module ResultFacts.

Import Py Eff OS ParamTest ExecutorFacts SchedulerFacts.

Lemma nth_error_combine_seq {A : Type} (l : list A) (a i : nat) (x : A) :
  nth_error l i = Some x ->
  nth_error (combine (seq a (List.length l)) l) i = Some (a + i, x).
Proof.
  revert i a. induction l as [|y l IH]; intros i a H; [destruct i; discriminate|].
  destruct i as [|i]; simpl in *.
  - injection H as <-. rewrite Nat.add_0_r. reflexivity.
  - rewrite (IH i (S a) H). f_equal. f_equal. lia.
Qed.

Lemma nth_error_enumerate {A : Type} (l : list A) (i : nat) (x : A) :
  nth_error l i = Some x -> nth_error (enumerate l) i = Some (i, x).
Proof. intros H. unfold enumerate. rewrite (nth_error_combine_seq l 0 i x H). reflexivity. Qed.

(** What one call of the executor leaves in its result. *)
Lemma outcome_facts (self : OpenSplatTester) (w : world) (tc : TestCase) (gpu : Z)
    (r : TestResult) :
  outcome self w tc gpu = inr r ->
  test_case r = tc /\
  output_file r = output_file_of self tc /\
  gpu_id r = gpu /\
  (success r = true <-> error_msg r = None) /\
  (success r = true <->
   exists c size,
     subprocess_run (timeout self) (execute w (cmd_of self tc) (env_of w gpu)) = inr c /\
     returncode c = 0%Z /\
     getsize w (output_file_of self tc) = inr size) /\
  (exists k, 1 <= k <= 2 /\ duration r = (clock w k - clock w 0)%Q).
Proof.
  intros Hout.
  destruct (run_single_test_cases self w tc gpu Eff.start)
    as (r' & s' & Hrun & Htc & Hfile & Hgpu & Hcase).
  unfold outcome in Hout. rewrite Hrun in Hout. injection Hout as ->.
  split; [exact Htc|]. split; [exact Hfile|]. split; [exact Hgpu|].
  cbn [ticks start] in Hcase.
  destruct (subprocess_run (timeout self) (execute w (cmd_of self tc) (env_of w gpu)))
    as [e|c].
  - destruct Hcase as (Hs & He & Hd). rewrite Hs, He.
    split; [split; discriminate|]. split.
    + split; [discriminate|]. intros (c & size & H & _). discriminate.
    + exists 1. split; [lia|exact Hd].
  - destruct (returncode c =? 0)%Z eqn:Erc.
    + apply Z.eqb_eq in Erc.
      destruct (getsize w (output_file_of self tc)) as [msg|size].
      * destruct Hcase as (Hs & He & Hd). rewrite Hs, He.
        split; [split; discriminate|]. split.
        -- split; [discriminate|]. intros (c' & size & _ & _ & H). discriminate.
        -- exists 2. split; [lia|exact Hd].
      * destruct Hcase as (Hs & He & Hd). rewrite Hs, He.
        split; [split; reflexivity|]. split.
        -- split; [|reflexivity]. intros _. exists c, size. auto.
        -- exists 1. split; [lia|exact Hd].
    + apply Z.eqb_neq in Erc.
      destruct Hcase as (Hs & He & Hd). rewrite Hs, He.
      split; [split; discriminate|]. split.
      * split; [discriminate|]. intros (c' & size & H & H0 & _).
        injection H as <-. contradiction.
      * exists 1. split; [lia|exact Hd].
Qed.

(** X4. A trial succeeds exactly when the tool exits with status zero within
    the time-out and the size of its artifact can be read; a result has an
    error text exactly when it is a failure. When the clock does not run
    backwards, no duration is negative. *)
Theorem a_result_is_a_success_exactly_when_the_artifact_is_there
    (self : OpenSplatTester) (w : world) (tc : TestCase) (gpu : Z) :
  (forall a b, a <= b -> (clock w a <= clock w b)%Q) ->
  exists r,
    outcome self w tc gpu = inr r /\
    (success r = true <->
     exists c size,
       subprocess_run (timeout self) (execute w (cmd_of self tc) (env_of w gpu)) = inr c /\
       returncode c = 0%Z /\
       getsize w (output_file_of self tc) = inr size) /\
    (success r = true <-> error_msg r = None) /\
    (0 <= duration r)%Q.
Proof.
  intros Hclock.
  destruct (outcome_returns self w tc gpu) as (r & Hr & _).
  destruct (outcome_facts self w tc gpu r Hr) as (_ & _ & _ & Herr & Hok & (k & Hk & Hd)).
  exists r. split; [exact Hr|]. split; [exact Hok|]. split; [exact Herr|].
  rewrite Hd.
  assert (H : (clock w 0 <= clock w k)%Q) by (apply Hclock; lia).
  unfold Qminus. rewrite <- (Qplus_opp_r (clock w 0)).
  apply Qplus_le_compat; [exact H|apply Qle_refl].
Qed.

Lemma a_result_is_a_success_exactly_when_the_artifact_is_there_witness :
  (forall a b, a <= b -> (clock (Samples.exits 0 "") a <= clock (Samples.exits 0 "") b)%Q) /\
  exists r,
    outcome (Samples.tester 1) (Samples.exits 0 "") Samples.baseline 0 = inr r /\
    success r = true /\ (0 <= duration r)%Q.
Proof.
  assert (H : forall a b, a <= b ->
                (clock (Samples.exits 0 "") a <= clock (Samples.exits 0 "") b)%Q).
  { intros a b Hab. cbn [clock Samples.exits]. unfold Samples.seconds.
    rewrite <- Zle_Qle. lia. }
  split; [exact H|].
  destruct (a_result_is_a_success_exactly_when_the_artifact_is_there
              (Samples.tester 1) (Samples.exits 0 "") Samples.baseline 0 H)
    as (r & Hr & Hok & _ & Hd).
  exists r. split; [exact Hr|]. split; [|exact Hd].
  apply Hok. do 2 eexists. repeat split.
Defined.




(** X6. Any [W] trials that follow each other in the input get [W]
    different slots: two trials share a slot only if their positions differ
    by a multiple of [W]. With at most [W] trials, no two share a slot. *)
Theorem neighbouring_trials_get_different_slots (W : Z) (n i j : nat) :
  (1 <= W)%Z ->
  i < j < n ->
  nth i (gpu_assignments W n) 0%Z = nth j (gpu_assignments W n) 0%Z ->
  (W <= Z.of_nat (j - i))%Z /\ (Z.of_nat (j - i) mod W = 0)%Z.
Proof.
  intros HW Hij Heq.
  rewrite !nth_gpu_assignments in Heq by lia.
  assert (Hmod : (Z.of_nat (j - i) mod W = 0)%Z).
  { replace (Z.of_nat (j - i)) with (Z.of_nat j - Z.of_nat i)%Z by lia.
    rewrite Zminus_mod, Heq, Z.sub_diag. apply Z.mod_0_l. lia. }
  split; [|exact Hmod].
  apply Z.mod_divide in Hmod; [|lia].
  destruct Hmod as (q & Hq).
  assert (0 < q)%Z by nia. nia.
Qed.

Lemma neighbouring_trials_get_different_slots_witness :
  (1 <= 2)%Z /\ 0 < 2 < 3 /\
  nth 0 (gpu_assignments 2 3) 0%Z = nth 2 (gpu_assignments 2 3) 0%Z /\
  (2 <= Z.of_nat (2 - 0))%Z.
Proof.
  split; [lia|]. split; [lia|]. split; [reflexivity|].
  exact (proj1 (neighbouring_trials_get_different_slots 2 3 0 2
                  ltac:(lia) ltac:(lia) eq_refl)).
Defined.

End ResultFacts.

(** ** Trials that run at the same time *)

Module SharingFacts.

Import Py Eff OS Pool ParamTest SchedulerFacts ResultFacts.

Section AnyWork.

Context {T R : Type}.
Variable work : T -> exception + R.

(** As long as workers are free, each [Start] moves the oldest queued task
    to the running ones. *)
Lemma run_starts (W : Z) (k : nat) (q a : list T)
    (f ys : list (future (T := T) (R := R))) :
  k <= List.length q ->
  (Z.of_nat (List.length a + k) <= W)%Z ->
  run work W (repeat Start k)
      {| queue := q; active := a; finished := f; yielded := ys |}
  = Some {| queue := skipn k q; active := a ++ firstn k q;
            finished := f; yielded := ys |}.
Proof.
  revert q a. induction k as [|k IH]; intros q a Hk HW.
  - cbn [repeat run skipn firstn]. rewrite app_nil_r. reflexivity.
  - destruct q as [|t q]; [simpl in Hk; lia|].
    cbn [repeat run step queue active finished yielded].
    destruct (Z.of_nat (List.length a) <? W)%Z eqn:E; [|apply Z.ltb_ge in E; lia].
    rewrite IH.
    + cbn [skipn firstn]. rewrite <- app_assoc. reflexivity.
    + simpl in Hk. lia.
    + rewrite length_app. cbn [List.length]. lia.
Qed.

End AnyWork.

Lemma skipn_nth_error {A : Type} (n : nat) (l : list A) (x : A) :
  nth_error l n = Some x -> exists q, skipn n l = x :: q.
Proof.
  revert l. induction n as [|m IH]; intros l Hl.
  - destruct l as [|t l]; [discriminate|]. simpl in Hl. injection Hl as ->.
    exists l. reflexivity.
  - destruct l as [|t l]; [discriminate|]. simpl in Hl. cbn [skipn].
    apply IH. exact Hl.
Qed.

(** X7. The slot of a trial is fixed by its position, not by the worker
    that runs it: with at least two workers and more trials than workers,
    the pool has a run in which the first trial and the trial at position
    [W] are running at the same time, both with slot 0. The run extends to a
    complete one. *)
Theorem two_running_trials_can_share_a_slot
    (exec : nat -> TestCase -> Z -> exception + TestResult)
    (W : Z) (tcs : list TestCase) :
  (2 <= W)%Z ->
  (W < Z.of_nat (List.length tcs))%Z ->
  exists es s tc tc' fs,
    run (work exec) W es (submit_all (submitted W tcs)) = Some s /\
    In (0, (tc, 0%Z)) (active s) /\
    In (Z.to_nat W, (tc', 0%Z)) (active s) /\
    as_completed (work exec) W (submitted W tcs) (es ++ drain s) = Some fs.
Proof.
  intros HW HN.
  set (n := Z.to_nat W).
  assert (Hn : 2 <= n < List.length tcs) by (unfold n; lia).
  assert (HnW : Z.of_nat n = W) by (unfold n; lia).
  set (tasks := submitted W tcs).
  assert (Hlen : List.length tasks = List.length tcs).
  { unfold tasks. rewrite submitted_slots, length_map. apply length_enumerate. }
  assert (Hnth : forall i tc, nth_error tcs i = Some tc ->
                   nth_error tasks i = Some (i, (tc, (Z.of_nat i mod W)%Z))).
  { intros i tc Hi. unfold tasks. rewrite submitted_slots, nth_error_map.
    rewrite (nth_error_enumerate _ _ _ Hi). reflexivity. }
  destruct (nth_error tcs 0) as [tc0|] eqn:E0;
    [|apply nth_error_None in E0; lia].
  destruct (nth_error tcs 1) as [tc1|] eqn:E1;
    [|apply nth_error_None in E1; lia].
  destruct (nth_error tcs n) as [tcn|] eqn:En;
    [|apply nth_error_None in En; lia].
  pose proof (Hnth _ _ E0) as H0. pose proof (Hnth _ _ E1) as H1.
  pose proof (Hnth _ _ En) as H2.
  rewrite Z.mod_0_l in H0 by lia.
  rewrite HnW, Z.mod_same in H2 by lia.
  (* the first [W] tasks and the rest *)
  assert (Hfirst : exists rest, firstn n tasks
                     = (0, (tc0, 0%Z)) :: (1, (tc1, (1 mod W)%Z)) :: rest /\
                     List.length rest = n - 2).
  { destruct tasks as [|t0 [|t1 ts]] eqn:Et; simpl in Hlen; try lia.
    simpl in H0, H1. injection H0 as ->. injection H1 as ->.
    destruct n as [|[|m]]; try lia. cbn [firstn].
    exists (firstn m ts). split; [reflexivity|].
    rewrite length_firstn. simpl in Hlen. lia. }
  destruct Hfirst as (rest & Hfirst & Hrest).
  assert (Hskip : exists q, skipn n tasks = (n, (tcn, 0%Z)) :: q).
  { apply skipn_nth_error. exact H2. }
  destruct Hskip as (q & Hskip).
  set (s := {| queue := q;
               active := ((0, (tc0, 0%Z)) :: rest) ++ [(n, (tcn, 0%Z))];
               finished := [settle (work exec) (1, (tc1, (1 mod W)%Z))];
               yielded := [] |}).
  assert (Hrun : run (work exec) W (repeat Start n ++ [Finish 1; Start])
                     (submit_all tasks) = Some s).
  { rewrite PoolFacts.run_app. unfold submit_all.
    rewrite run_starts by (cbn [List.length]; lia).
    rewrite Hfirst, Hskip.
    cbn [app run step queue active finished yielded take_nth List.length].
    unfold submission in *.
    match goal with
    | |- context [(?a <? W)%Z] => destruct (a <? W)%Z eqn:E
    end; [reflexivity|apply Z.ltb_ge in E; lia]. }
  destruct (PoolFacts.as_completed_extends (work exec) W tasks _ s ltac:(lia) Hrun)
    as (fs & Hfs).
  exists (repeat Start n ++ [Finish 1; Start]), s, tc0, tcn, fs.
  split; [exact Hrun|]. split; [|split; [|exact Hfs]].
  - left. reflexivity.
  - unfold s. cbn [active]. apply in_or_app. right. left. reflexivity.
Qed.

Lemma two_running_trials_can_share_a_slot_witness :
  (2 <= 2)%Z /\
  (2 < Z.of_nat (List.length [Samples.baseline; Samples.scale_2; Samples.sh_1]))%Z /\
  exists es s tc tc',
    run (work (executor (Samples.tester 2) (fun _ => Samples.hangs))) 2 es
        (submit_all (submitted 2 [Samples.baseline; Samples.scale_2; Samples.sh_1]))
    = Some s /\
    In (0, (tc, 0%Z)) (active s) /\ In (2, (tc', 0%Z)) (active s).
Proof.
  split; [lia|]. split; [simpl; lia|].
  destruct (two_running_trials_can_share_a_slot
              (executor (Samples.tester 2) (fun _ => Samples.hangs)) 2
              [Samples.baseline; Samples.scale_2; Samples.sh_1]
              ltac:(lia) ltac:(simpl; lia))
    as (es & s & tc & tc' & fs & Hrun & H0 & H2 & _).
  exists es, s, tc, tc'. split; [exact Hrun|]. split; [exact H0|exact H2].
Defined.

End SharingFacts.

(** ** The size of the pool *)

Module PoolSizeFacts.

Import Py Eff OS Pool ParamTest PoolFacts SchedulerFacts ResultFacts SharingFacts.

Section AnyWork.

Context {T R : Type}.
Variable work : T -> exception + R.


End AnyWork.


End PoolSizeFacts.

(** ** The report and [main] of the parameter benchmark *)

Module ReportFacts.

Import Py Eff OS ParamTest PyLib Report LibFacts SchedulerFacts ResultFacts.

Lemma replace_char_app (c : ascii) (by_ a b : string) :
  replace_char c by_ (a ++ b) = (replace_char c by_ a ++ replace_char c by_ b)%string.
Proof.
  induction a as [|x a IH]; [reflexivity|]. cbn [String.append replace_char].
  destruct (Ascii.eqb x c).
  - rewrite IH, append_assoc. reflexivity.
  - rewrite IH. reflexivity.
Qed.

Lemma escape_cons (c : ascii) (s : string) :
  escape (String c s)
  = if Ascii.eqb c "|" then String "\" (String "|" (escape s))
    else if Ascii.eqb c "010" then String " " (escape s)
    else String c (escape s).
Proof.
  unfold escape. cbn [replace_char].
  destruct (Ascii.eqb c "|") eqn:Eb.
  - reflexivity.
  - cbn [replace_char]. destruct (Ascii.eqb c "010"); reflexivity.
Qed.

Lemma concat_empty_cons (x : string) (l : list string) :
  String.concat "" (x :: l) = (x ++ String.concat "" l)%string.
Proof.
  destruct l as [|y l]; cbn [String.concat]; [rewrite append_nil_r|]; reflexivity.
Qed.

Lemma escape_app (a b : string) : escape (a ++ b) = (escape a ++ escape b)%string.
Proof. unfold escape. rewrite !replace_char_app. reflexivity. Qed.

(** X8. The escaping of [generate_report] rewrites a cell character by
    character: it writes a backslash before every bar and a blank for every
    line feed, and keeps every other character, backslashes and carriage
    returns included. So the cell has no line feed and every bar in it
    directly follows a backslash; a backslash that stood before a bar is
    not escaped itself, and the bar then follows two backslashes. *)
Theorem escaping_writes_a_backslash_before_each_bar (s a b : string) :
  escape s
  = String.concat ""
      (map (fun c : ascii =>
              if Ascii.eqb c "|" then "\|"
              else if Ascii.eqb c "010" then " "
              else String c "")
           (list_ascii_of_string s)) /\
  has_char "010" (escape s) = false /\
  (forall after_backslash, bare_bar after_backslash (escape s) = false) /\
  has_char "013" (escape s) = has_char "013" s /\
  escape (a ++ "\|" ++ b) = (escape a ++ "\\|" ++ escape b)%string.
Proof.
  split; [|split; [|split; [|split]]].
  - induction s as [|c s IH]; [reflexivity|].
    rewrite escape_cons. cbn [list_ascii_of_string map].
    rewrite concat_empty_cons, <- IH.
    destruct (Ascii.eqb c "|"); [reflexivity|].
    destruct (Ascii.eqb c "010"); reflexivity.
  - induction s as [|c s IH]; [reflexivity|].
    rewrite escape_cons.
    destruct (Ascii.eqb c "|") eqn:Eb; [|destruct (Ascii.eqb c "010") eqn:En];
      cbn [has_char]; rewrite IH, ?En; reflexivity.
  - induction s as [|c s IH]; [reflexivity|].
    rewrite escape_cons. intros after.
    destruct (Ascii.eqb c "|") eqn:Eb; [|destruct (Ascii.eqb c "010") eqn:En].
    + cbn [bare_bar]. rewrite IH.
      change (Ascii.eqb "\" "|") with false.
      change (Ascii.eqb "\" "\") with true.
      change (Ascii.eqb "|" "|") with true. reflexivity.
    + cbn [bare_bar]. rewrite IH. reflexivity.
    + cbn [bare_bar]. rewrite IH, Eb. reflexivity.
  - induction s as [|c s IH]; [reflexivity|].
    rewrite escape_cons.
    destruct (Ascii.eqb c "|") eqn:Eb; [|destruct (Ascii.eqb c "010") eqn:En].
    + apply Ascii.eqb_eq in Eb. subst c. cbn [has_char]. rewrite IH. reflexivity.
    + apply Ascii.eqb_eq in En. subst c. cbn [has_char]. rewrite IH. reflexivity.
    + cbn [has_char]. rewrite IH. reflexivity.
  - rewrite !escape_app. reflexivity.
Qed.

(** *** [--only] *)

Lemma split_on_from_app (sep : ascii) (cur n rest : string) :
  has_char sep n = false ->
  split_on_from sep cur (n ++ rest) = split_on_from sep (cur ++ n) rest.
Proof.
  revert cur. induction n as [|c n IH]; intros cur H.
  - rewrite append_nil_r. reflexivity.
  - cbn [has_char] in H. apply orb_false_iff in H. destruct H as (Hc & Hn).
    cbn [String.append split_on_from]. rewrite Hc.
    rewrite (IH _ Hn), append_assoc. reflexivity.
Qed.

Lemma split_on_join (sep : ascii) (n : string) (ns : list string) :
  forallb (fun x => negb (has_char sep x)) (n :: ns) = true ->
  split_on sep (join (String sep "") (n :: ns)) = n :: ns.
Proof.
  unfold split_on, join. revert n. induction ns as [|m ns IH]; intros n H.
  - cbn [forallb] in H. rewrite andb_true_r in H. apply negb_true_iff in H.
    cbn [concat]. rewrite <- (append_nil_r n) at 1.
    rewrite split_on_from_app by exact H. reflexivity.
  - cbn [forallb] in H. apply andb_true_iff in H. destruct H as (Hn & H).
    apply negb_true_iff in Hn.
    change (concat (String sep "") (n :: m :: ns))
      with (n ++ String sep (concat (String sep "") (m :: ns)))%string.
    rewrite split_on_from_app by exact Hn.
    cbn [split_on_from]. rewrite Ascii.eqb_refl. cbn [String.append].
    rewrite (IH m H). reflexivity.
Qed.

Lemma existsb_eqb_In (x : string) (l : list string) :
  existsb (String.eqb x) l = true <-> In x l.
Proof.
  rewrite existsb_exists. split.
  - intros (y & Hy & E). apply String.eqb_eq in E. subst. exact Hy.
  - intros H. exists x. split; [exact H|apply String.eqb_refl].
Qed.

(** X9. [--only n1,...,nk] keeps the test cases of the plan whose name is
    one of the given names with the blanks around it removed, each once and
    in the order of the plan, whatever the order and the repetitions in the
    option; when no name of the plan is given, [main] exits with status 1
    instead of running the whole plan. *)
Theorem only_keeps_the_named_tests_in_plan_order
    (n : string) (ns : list string) (all : list TestCase) :
  forallb (fun x => negb (has_char "," x)) (n :: ns) = true ->
  join "," (n :: ns) <> "" ->
  match selection (Some (join "," (n :: ns))) all with
  | inr chosen =>
      chosen = filter (named_in (map strip (n :: ns))) all /\
      chosen <> [] /\
      (forall tc, In tc chosen <->
                  In tc all /\ exists x, In x (n :: ns) /\ name tc = strip x)
  | inl code =>
      code = 1%Z /\
      (forall tc x, In tc all -> In x (n :: ns) -> name tc <> strip x)
  end.
Proof.
  intros Hcomma Hne. unfold selection.
  destruct (join "," (n :: ns)) as [|c text] eqn:E; [contradiction|].
  rewrite <- E. unfold only_names. rewrite (split_on_join "," n ns Hcomma).
  assert (Hin : forall tc, In tc (filter (named_in (map strip (n :: ns))) all) <->
                  In tc all /\ exists x, In x (n :: ns) /\ name tc = strip x).
  { intros tc. rewrite filter_In. unfold named_in. rewrite existsb_eqb_In, in_map_iff.
    split; intros (H1 & x & H2 & H3); (split; [exact H1|exists x; auto]). }
  destruct (filter (named_in (map strip (n :: ns))) all) as [|tc0 chosen] eqn:F.
  - split; [reflexivity|]. intros tc x Htc Hx Heq.
    apply (proj2 (Hin tc)). split; [exact Htc|]. exists x. auto.
  - split; [reflexivity|]. split; [discriminate|exact Hin].
Qed.

Lemma only_keeps_the_named_tests_in_plan_order_witness :
  forallb (fun x => negb (has_char "," x)) ["sh_1"; " baseline "; "sh_1"] = true /\
  join "," ["sh_1"; " baseline "; "sh_1"] <> "" /\
  selection (Some "sh_1, baseline ,sh_1") [Samples.baseline; Samples.scale_2; Samples.sh_1]
  = inr [Samples.baseline; Samples.sh_1].
Proof.
  split; [reflexivity|]. split; [discriminate|].
  pose proof (only_keeps_the_named_tests_in_plan_order "sh_1" [" baseline "; "sh_1"]
                [Samples.baseline; Samples.scale_2; Samples.sh_1]
                eq_refl ltac:(discriminate)) as H.
  change (join "," ["sh_1"; " baseline "; "sh_1"]) with "sh_1, baseline ,sh_1" in H.
  destruct (selection (Some "sh_1, baseline ,sh_1")
              [Samples.baseline; Samples.scale_2; Samples.sh_1]) as [code|chosen].
  - exfalso. destruct H as (_ & H).
    exact (H Samples.sh_1 "sh_1" (or_intror (or_intror (or_introl eq_refl)))
             (or_introl eq_refl) eq_refl).
  - destruct H as (H & _). rewrite H. reflexivity.
Defined.

(** *** [main] *)

Lemma results_of_run_all_tests (self : OpenSplatTester) (worlds : nat -> world)
    (sched : list Pool.event) (tcs : list TestCase) (results : list TestResult) :
  run_all_tests self worlds sched tcs = Some (inr results) ->
  Permutation (map test_case results) tcs /\
  Forall (fun r => output_file r = output_file_of self (test_case r)) results.
Proof.
  intros Hrun.
  destruct (run_all_tests_results _ _ _ _ _ Hrun)
    as (results' & rs & Heq & Hperm & _ & Hrs).
  injection Heq as <-.
  assert (H : map test_case rs = tcs /\
              Forall (fun r => output_file r = output_file_of self (test_case r)) rs).
  { split.
    - rewrite (proj1 (results_line_up _ _ _ _ _ Hrs)).
      apply map_snd_combine_seq.
    - clear Hperm. induction Hrs as [|[i tc] r ps rs0 Hr _ IH]; constructor.
      + cbn [fst snd] in Hr.
        destruct (outcome_facts _ _ _ _ _ Hr) as (Htc & Hfile & _).
        rewrite Htc. exact Hfile.
      + exact IH. }
  destruct H as (H1 & H2). split.
  - rewrite <- H1. apply Permutation_map. exact Hperm.
  - apply Forall_forall. intros r Hin. rewrite Forall_forall in H2.
    apply H2. apply (Permutation_in _ Hperm). exact Hin.
Qed.

Lemma length_report_failures (results : list TestResult) :
  List.length (filter success results) + List.length (report_failures results)
  = List.length results.
Proof.
  unfold report_failures. rewrite length_map.
  induction results as [|r results IH]; [reflexivity|].
  cbn [filter]. destruct (success r); cbn [negb List.length]; lia.
Qed.

(** X10. When [main] gets to its closing lines, the tool and the data were
    found, the output directory could be made, and the user agreed unless
    [--yes] was given; the results are those of the selected test cases, one
    each, the table of the report has one row per result in the order of the
    results, and the successes counted at the end and the failures listed in
    the report add up to the number of selected test cases. *)
Theorem main_reports_every_selected_test
    (around : surroundings) (args : arguments) (worlds : nat -> world)
    (sched : list Pool.event) (results : list TestResult)
    (report : list row * list (string * string)) (closing : nat * Q * option Q) :
  main around args worlds sched = Some (Done results report closing) ->
  present around "./opensplat" = true /\
  present around "./banana" = true /\
  makedirs around (output args) = None /\
  (yes args = false -> exists text, typed around = inr text /\ declines text = false) /\
  exists test_cases,
    selection (only args) Plan.define_test_cases = inr test_cases /\
    Permutation (map test_case results) test_cases /\
    map row_name (fst report) = map (fun r => name (test_case r)) results /\
    fst (fst closing) + List.length (snd report) = List.length test_cases.
Proof.
  unfold main, init.
  destruct (present around "./opensplat"); [|discriminate].
  destruct (present around "./banana"); [|discriminate].
  cbn [negb].
  destruct (makedirs around (output args)) as [msg|]; [discriminate|].
  destruct (selection (only args) Plan.define_test_cases) as [code|tcs]; [discriminate|].
  set (tester := {| opensplat_path := "./opensplat"; data_path := "./banana";
                    output_dir := output args; max_workers := parallel args;
                    timeout := timeout_seconds args |}).
  intros H.
  assert (Hgo : (yes args = false ->
                 exists text, typed around = inr text /\ declines text = false) /\
                match run_all_tests tester worlds sched tcs with
                | None => None
                | Some (inl e) => Some (Uncaught e)
                | Some (inr results) =>
                    match writable around (path_join (output_dir tester) "report.md") with
                    | Some msg => Some (Uncaught (error msg))
                    | None =>
                        match summary results (total_duration around) with
                        | inl e => Some (Uncaught e)
                        | inr closing =>
                            Some (Done results (generate_report results) closing)
                        end
                    end
                end = Some (Done results report closing)).
  { destruct (yes args).
    - split; [discriminate|exact H].
    - destruct (typed around) as [e|text]; [discriminate|].
      destruct (declines text) eqn:D; [discriminate|].
      split; [|exact H]. intros _. exists text. split; [reflexivity|exact D]. }
  clear H. destruct Hgo as (Hyes & H).
  destruct (run_all_tests tester worlds sched tcs) as [[e|rs]|] eqn:Hrun;
    try discriminate.
  destruct (writable around (path_join (output_dir tester) "report.md"));
    [discriminate|].
  destruct (summary rs (total_duration around)) as [e|cl] eqn:Hsum; [discriminate|].
  injection H as -> <- ->.
  destruct (results_of_run_all_tests _ _ _ _ _ Hrun) as (Hperm & _).
  repeat (split; [reflexivity|]). split; [exact Hyes|].
  exists tcs. split; [reflexivity|]. split; [exact Hperm|]. split.
  - unfold generate_report. cbn [fst]. rewrite map_map. reflexivity.
  - assert (Hc : fst (fst closing) = List.length (filter success results)).
    { unfold summary in Hsum.
      destruct (negb (Qle_bool (total_of results) (total_duration around)));
        [destruct (Qeq_bool (total_duration around) 0); [discriminate|]|];
        injection Hsum as <-; reflexivity. }
    rewrite Hc. unfold generate_report. cbn [snd].
    rewrite length_report_failures.
    rewrite <- (length_map test_case). apply Permutation_length. exact Hperm.
Qed.

Lemma main_reports_every_selected_test_witness :
  exists results report closing,
    main Scenes.ready Scenes.one_test (fun _ => Samples.exits 0 "") []
    = Some (Done results report closing) /\
    fst (fst closing) + List.length (snd report) = 1.
Proof.
  assert (E : exists results report closing,
                main Scenes.ready Scenes.one_test (fun _ => Samples.exits 0 "") []
                = Some (Done results report closing)).
  { eexists. eexists. eexists. vm_compute. reflexivity. }
  destruct E as (results & report & closing & E).
  exists results, report, closing. split; [exact E|].
  destruct (main_reports_every_selected_test _ _ _ _ _ _ _ E)
    as (_ & _ & _ & _ & tcs & Hsel & _ & _ & Hcount).
  vm_compute in Hsel. injection Hsel as <-. exact Hcount.
Defined.



End ReportFacts.

(** ** The runs of the quick test *)

Module QuickFacts.

Import Py Eff OS QuickTest QuickRun SchedulerFacts ResultFacts.

(** The serial loop, from any position on: it returns when every call
    returns, and ends as the first call that does not. *)
Lemma run_serial_from_cases (OUTPUT_DIR : string) (worlds : nat -> world)
    (cases : list entry) (i : nat) (acc : list result) :
  match run_serial_from OUTPUT_DIR worlds i cases acc with
  | Returns results =>
      exists rs,
        results = acc ++ rs /\
        Forall2 (fun p r => attempt OUTPUT_DIR (worlds (fst p)) (snd p) 0%Z = Returns r)
                (combine (seq i (List.length cases)) cases) rs
  | Raises x =>
      exists k e,
        nth_error cases k = Some e /\
        attempt OUTPUT_DIR (worlds (i + k)) e 0%Z = Raises x /\
        forall j e', j < k -> nth_error cases j = Some e' ->
                     exists r, attempt OUTPUT_DIR (worlds (i + j)) e' 0%Z = Returns r
  | NeverReturns =>
      exists k e,
        nth_error cases k = Some e /\
        attempt OUTPUT_DIR (worlds (i + k)) e 0%Z = NeverReturns /\
        forall j e', j < k -> nth_error cases j = Some e' ->
                     exists r, attempt OUTPUT_DIR (worlds (i + j)) e' 0%Z = Returns r
  end.
Proof.
  revert i acc. induction cases as [|e cases IH]; intros i acc.
  - cbn [run_serial_from]. exists []. split; [rewrite app_nil_r; reflexivity|constructor].
  - cbn [run_serial_from].
    destruct (attempt OUTPUT_DIR (worlds i) e 0%Z) as [|x|r] eqn:E.
    + exists 0, e. rewrite Nat.add_0_r. split; [reflexivity|]. split; [exact E|].
      intros j e' Hj. lia.
    + exists 0, e. rewrite Nat.add_0_r. split; [reflexivity|]. split; [exact E|].
      intros j e' Hj. lia.
    + specialize (IH (S i) (acc ++ [r])).
      destruct (run_serial_from OUTPUT_DIR worlds (S i) cases (acc ++ [r]))
        as [|x|results].
      * destruct IH as (k & e0 & Hk & Ha & Hbefore).
        exists (S k), e0. split; [exact Hk|].
        replace (i + S k) with (S i + k) by lia. split; [exact Ha|].
        intros [|j] e' Hj Hn.
        -- simpl in Hn. injection Hn as <-. rewrite Nat.add_0_r. exists r. exact E.
        -- replace (i + S j) with (S i + j) by lia.
           apply (Hbefore j e'); [lia|exact Hn].
      * destruct IH as (k & e0 & Hk & Ha & Hbefore).
        exists (S k), e0. split; [exact Hk|].
        replace (i + S k) with (S i + k) by lia. split; [exact Ha|].
        intros [|j] e' Hj Hn.
        -- simpl in Hn. injection Hn as <-. rewrite Nat.add_0_r. exists r. exact E.
        -- replace (i + S j) with (S i + j) by lia.
           apply (Hbefore j e'); [lia|exact Hn].
      * destruct IH as (rs & Hrs & Hall).
        exists (r :: rs). split; [rewrite Hrs, <- app_assoc; reflexivity|].
        cbn [List.length seq combine]. constructor; [exact E|exact Hall].
Qed.

(** X12. The serial run of the quick test has no handler and no time-out:
    it returns, with one tuple per entry in the order of [TEST_CASES], only
    when every call of [run_test] returns; otherwise it ends as the first
    call that does not return, with the exception that call raised (a tool
    that cannot be launched, an artifact that cannot be measured after a
    zero status), or never, and the tuples collected so far are not
    returned. *)
Theorem the_quick_serial_run_ends_as_its_first_failing_call
    (OUTPUT_DIR : string) (worlds : nat -> world) :
  match run_serial OUTPUT_DIR worlds with
  | Returns results =>
      Forall2 (fun p r => attempt OUTPUT_DIR (worlds (fst p)) (snd p) 0%Z = Returns r)
              (ParamTest.enumerate TEST_CASES) results
  | Raises x =>
      exists k e,
        nth_error TEST_CASES k = Some e /\
        attempt OUTPUT_DIR (worlds k) e 0%Z = Raises x /\
        forall j e', j < k -> nth_error TEST_CASES j = Some e' ->
                     exists r, attempt OUTPUT_DIR (worlds j) e' 0%Z = Returns r
  | NeverReturns =>
      exists k e,
        nth_error TEST_CASES k = Some e /\
        attempt OUTPUT_DIR (worlds k) e 0%Z = NeverReturns /\
        forall j e', j < k -> nth_error TEST_CASES j = Some e' ->
                     exists r, attempt OUTPUT_DIR (worlds j) e' 0%Z = Returns r
  end.
Proof.
  unfold run_serial.
  pose proof (run_serial_from_cases OUTPUT_DIR worlds TEST_CASES 0 []) as H.
  destruct (run_serial_from OUTPUT_DIR worlds 0 TEST_CASES []) as [|x|results].
  - exact H.
  - exact H.
  - destruct H as (rs & -> & Hall). exact Hall.
Qed.

(** *** The parallel run *)

Lemma gpu_assignments_nonzero (W : Z) :
  W <> 0%Z ->
  QuickTest.gpu_assignments W
  = inr (ParamTest.gpu_assignments W (List.length TEST_CASES)).
Proof.
  intros HW. unfold QuickTest.gpu_assignments.
  destruct (W =? 0)%Z eqn:E; [apply Z.eqb_eq in E; contradiction|reflexivity].
Qed.

Lemma tasks_slots (W : Z) :
  ParamTest.enumerate
    (combine TEST_CASES (ParamTest.gpu_assignments W (List.length TEST_CASES)))
  = map (fun p : nat * entry => (fst p, (snd p, (Z.of_nat (fst p) mod W)%Z)))
        (ParamTest.enumerate TEST_CASES).
Proof.
  unfold ParamTest.enumerate, ParamTest.gpu_assignments.
  rewrite length_combine, length_map, length_seq, Nat.min_id.
  apply (combine_with_slots (fun i : nat => (Z.of_nat i mod W)%Z)).
Qed.

Lemma collect_settle (OUTPUT_DIR : string) (worlds : nat -> world) (W : Z)
    (i : nat) (e : entry) :
  nth_error TEST_CASES i = Some e ->
  hangs OUTPUT_DIR worlds (i, (e, (Z.of_nat i mod W)%Z)) = false ->
  collect (ParamTest.gpu_assignments W (List.length TEST_CASES))
          (Pool.settle (work OUTPUT_DIR worlds) (i, (e, (Z.of_nat i mod W)%Z)))
  = recorded OUTPUT_DIR worlds W (i, e).
Proof.
  intros Hi Hh. destruct e as [[[name desc] params] unused].
  unfold Pool.settle, collect, work, recorded, hangs, attempt_of in *.
  destruct (attempt OUTPUT_DIR (worlds i) (name, desc, params, unused)
                    (Z.of_nat i mod W)%Z) as [|x|r].
  - discriminate.
  - rewrite Hi. rewrite nth_gpu_assignments; [reflexivity|].
    apply nth_error_Some. rewrite Hi. discriminate.
  - reflexivity.
Qed.

(** X13. The parallel run of the quick test, for every pool size of at
    least one and every order in which the calls complete: if the tool of
    some test never exits the run never returns, since [run_test] waits
    without a time-out; otherwise it returns one tuple per entry of
    [TEST_CASES], namely what [run_test] returned for it with the device
    [i mod W], and for a call that raised a failure with duration and size
    zero. An exception that ends the serial run is a line of the summary
    here. *)
Theorem the_quick_parallel_run_records_exceptions_as_failures
    (OUTPUT_DIR : string) (worlds : nat -> world) (W : Z)
    (schedule : list Pool.event) (b : behaviour (list result)) :
  (1 <= W)%Z ->
  run_parallel OUTPUT_DIR worlds W schedule = Some b ->
  match b with
  | Returns results =>
      Permutation results
        (map (recorded OUTPUT_DIR worlds W) (ParamTest.enumerate TEST_CASES)) /\
      (forall i e gpu, nth_error TEST_CASES i = Some e ->
                       gpu = (Z.of_nat i mod W)%Z ->
                       attempt OUTPUT_DIR (worlds i) e gpu <> NeverReturns)
  | NeverReturns =>
      exists i e, nth_error TEST_CASES i = Some e /\
                  attempt OUTPUT_DIR (worlds i) e (Z.of_nat i mod W)%Z = NeverReturns
  | Raises _ => False
  end.
Proof.
  intros HW. unfold run_parallel, Pool.create.
  rewrite gpu_assignments_nonzero by lia.
  destruct (W <=? 0)%Z eqn:E; [apply Z.leb_le in E; lia|].
  rewrite tasks_slots.
  set (tasks := map (fun p : nat * entry => (fst p, (snd p, (Z.of_nat (fst p) mod W)%Z)))
                    (ParamTest.enumerate TEST_CASES)).
  destruct (existsb (hangs OUTPUT_DIR worlds) tasks) eqn:Hh.
  - intros H. injection H as <-.
    apply existsb_exists in Hh. destruct Hh as (t & Hin & Ht).
    unfold tasks in Hin. apply in_map_iff in Hin.
    destruct Hin as ([i e] & <- & Hin). apply in_enumerate in Hin.
    exists i, e. split; [exact Hin|].
    unfold hangs, attempt_of in Ht. cbn [fst snd] in Ht.
    destruct (attempt OUTPUT_DIR (worlds i) e (Z.of_nat i mod W)%Z);
      [reflexivity|discriminate|discriminate].
  - destruct (Pool.as_completed (work OUTPUT_DIR worlds) W tasks schedule)
      as [futures|] eqn:Hf; [|discriminate].
    intros H. injection H as <-.
    assert (Hno : forall i e, nth_error TEST_CASES i = Some e ->
                    hangs OUTPUT_DIR worlds (i, (e, (Z.of_nat i mod W)%Z)) = false).
    { intros i e Hi.
      destruct (hangs OUTPUT_DIR worlds (i, (e, (Z.of_nat i mod W)%Z))) eqn:Hi';
        [|reflexivity].
      assert (Hex : existsb (hangs OUTPUT_DIR worlds) tasks = true).
      { apply existsb_exists. exists (i, (e, (Z.of_nat i mod W)%Z)).
        split; [|exact Hi'].
        unfold tasks. apply in_map_iff. exists (i, e).
        split; [reflexivity|]. apply in_enumerate. exact Hi. }
      rewrite Hex in Hh. discriminate. }
    split.
    + apply PoolFacts.as_completed_perm in Hf.
      apply (Permutation_map
               (collect (ParamTest.gpu_assignments W (List.length TEST_CASES)))) in Hf.
      eapply Permutation_trans; [exact Hf|].
      unfold tasks. rewrite !map_map.
      erewrite map_ext_in; [apply Permutation_refl|].
      intros [i e] Hin. apply in_enumerate in Hin. cbn [fst snd].
      apply collect_settle; [exact Hin|apply Hno; exact Hin].
    + intros i e gpu Hi -> Hn. specialize (Hno i e Hi).
      unfold hangs, attempt_of in Hno. rewrite Hn in Hno. discriminate.
Qed.

Lemma the_quick_parallel_run_records_exceptions_as_failures_witness :
  (1 <= 2)%Z /\
  exists results,
    run_parallel "./output_quick" (fun _ => Samples.missing_tool) 2 (Pool.fifo 7)
    = Some (Returns results) /\
    run_serial "./output_quick" (fun _ => Samples.missing_tool)
    = Raises (error "[Errno 2] No such file or directory: './opensplat'") /\
    Permutation results
      (map (recorded "./output_quick" (fun _ => Samples.missing_tool) 2)
           (ParamTest.enumerate TEST_CASES)).
Proof.
  split; [lia|].
  assert (E : exists results,
                run_parallel "./output_quick" (fun _ => Samples.missing_tool) 2
                  (Pool.fifo 7) = Some (Returns results)).
  { eexists. vm_compute. reflexivity. }
  destruct E as (results & E). exists results.
  split; [exact E|]. split; [vm_compute; reflexivity|].
  exact (proj1 (the_quick_parallel_run_records_exceptions_as_failures
                  "./output_quick" (fun _ => Samples.missing_tool) 2 (Pool.fifo 7)
                  (Returns results) ltac:(lia) E)).
Defined.

End QuickFacts.

(** ** Sorting and extrema *)

Module OrderFacts.

Import PyLib.

Section Ordering.

Context {A : Type}.
Variable leb : A -> A -> bool.

Lemma insert_perm (x : A) (l : list A) : Permutation (insert leb x l) (x :: l).
Proof.
  induction l as [|y l IH]; [apply Permutation_refl|].
  cbn [insert]. destruct (leb x y); [apply Permutation_refl|].
  eapply Permutation_trans; [apply perm_skip; exact IH|apply perm_swap].
Qed.

Lemma sorted_perm (l : list A) : Permutation (sorted leb l) l.
Proof.
  induction l as [|x l IH]; [apply Permutation_refl|].
  unfold sorted in *. cbn [fold_right].
  eapply Permutation_trans; [apply insert_perm|apply perm_skip; exact IH].
Qed.

Lemma max_from_In (best : A) (l : list A) : In (max_from leb best l) (best :: l).
Proof.
  revert best. induction l as [|x l IH]; intros best; [left; reflexivity|].
  cbn [max_from]. specialize (IH (if leb x best then best else x)).
  destruct IH as [H|H].
  - destruct (leb x best); [left; exact H|right; left; exact H].
  - right. right. exact H.
Qed.

Lemma min_from_In (best : A) (l : list A) : In (min_from leb best l) (best :: l).
Proof.
  revert best. induction l as [|x l IH]; intros best; [left; reflexivity|].
  cbn [min_from]. specialize (IH (if leb best x then best else x)).
  destruct IH as [H|H].
  - destruct (leb best x); [left; exact H|right; left; exact H].
  - right. right. exact H.
Qed.

Hypothesis leb_total : forall a b, leb a b = true \/ leb b a = true.

Lemma insert_Sorted (x : A) (l : list A) :
  Sorted (fun a b => leb a b = true) l ->
  Sorted (fun a b => leb a b = true) (insert leb x l).
Proof.
  induction 1 as [|y l Hs IH Hd]; [repeat constructor|].
  cbn [insert]. destruct (leb x y) eqn:E.
  - constructor; [constructor; assumption|constructor; exact E].
  - constructor; [exact IH|].
    destruct l as [|z l]; cbn [insert].
    + constructor. destruct (leb_total x y) as [H|H]; [congruence|exact H].
    + destruct (leb x z).
      * constructor. destruct (leb_total x y) as [H|H]; [congruence|exact H].
      * inversion Hd; subst. constructor. assumption.
Qed.

Lemma sorted_Sorted (l : list A) : Sorted (fun a b => leb a b = true) (sorted leb l).
Proof.
  induction l as [|x l IH]; [constructor|].
  unfold sorted in *. cbn [fold_right]. apply insert_Sorted. exact IH.
Qed.

Hypothesis leb_trans : forall a b c, leb a b = true -> leb b c = true -> leb a c = true.

Lemma leb_refl (a : A) : leb a a = true.
Proof. destruct (leb_total a a); assumption. Qed.

Lemma max_from_upper (best : A) (l : list A) :
  Forall (fun x => leb x (max_from leb best l) = true) (best :: l).
Proof.
  revert best. induction l as [|x l IH]; intros best.
  - constructor; [apply leb_refl|constructor].
  - cbn [max_from]. specialize (IH (if leb x best then best else x)).
    inversion IH as [|b' l' Hb Hl]; subst.
    destruct (leb x best) eqn:E.
    + constructor; [exact Hb|]. constructor; [|exact Hl].
      eapply leb_trans; [exact E|exact Hb].
    + constructor; [|constructor; [exact Hb|exact Hl]].
      destruct (leb_total x best) as [H|H]; [congruence|].
      eapply leb_trans; [exact H|exact Hb].
Qed.

Lemma min_from_lower (best : A) (l : list A) :
  Forall (fun x => leb (min_from leb best l) x = true) (best :: l).
Proof.
  revert best. induction l as [|x l IH]; intros best.
  - constructor; [apply leb_refl|constructor].
  - cbn [min_from]. specialize (IH (if leb best x then best else x)).
    inversion IH as [|b' l' Hb Hl]; subst.
    destruct (leb best x) eqn:E.
    + constructor; [exact Hb|]. constructor; [|exact Hl].
      eapply leb_trans; [exact Hb|exact E].
    + constructor; [|constructor; [exact Hb|exact Hl]].
      destruct (leb_total best x) as [H|H]; [congruence|].
      eapply leb_trans; [exact Hb|exact H].
Qed.

End Ordering.

End OrderFacts.

(** ** The analysis of the artifacts *)

Module AnalysisFacts.

Import Py Eff PyLib CompareResults Analysis LibFacts OrderFacts HeaderFacts GroupingFacts.

Lemma smaller_total (a b : ModelInfo) : smaller a b = true \/ smaller b a = true.
Proof.
  unfold smaller. rewrite !Qle_bool_iff.
  destruct (Qlt_le_dec (size_mb b) (size_mb a)) as [H|H];
    [right; apply Qlt_le_weak; exact H|left; exact H].
Qed.

Lemma smaller_trans (a b c : ModelInfo) :
  smaller a b = true -> smaller b c = true -> smaller a c = true.
Proof. unfold smaller. rewrite !Qle_bool_iff. apply Qle_trans. Qed.

Lemma megabytes_positive (n : N) : (0 < n)%N -> (0 < megabytes n)%Q.
Proof.
  intros H. unfold megabytes, Qdiv, Qlt. simpl. lia.
Qed.



(** What the loop of [analyze_results] appends. *)
Lemma analyze_each_models (fuel : nat) (fs : files) (paths : list string)
    (acc models : list ModelInfo) :
  analyze_each fuel fs paths acc = Some (inr models) ->
  exists new,
    models = acc ++ new /\
    map file_path new = paths /\
    Forall (fun m =>
              name m = fst (splitext (basename (file_path m))) /\
              (exists size,
                  size_of fs (file_path m) = inr size /\
                  size_mb m = megabytes size) /\
              parse_ply_header fuel (opened fs (file_path m)) = Some (num_points m))
           new.
Proof.
  revert acc. induction paths as [|p paths IH]; intros acc.
  - cbn [analyze_each]. intros H. injection H as <-.
    exists []. rewrite app_nil_r. repeat split. constructor.
  - cbn [analyze_each].
    destruct (size_of fs p) as [msg|size] eqn:Ep; [discriminate|].
    destruct (parse_ply_header fuel (opened fs p)) as [n|] eqn:En; [|discriminate].
    intros H. destruct (IH _ H) as (new & Hm & Hp & Hall).
    eexists (_ :: new). split; [rewrite Hm, <- app_assoc; reflexivity|].
    split; [cbn [map file_path]; rewrite Hp; reflexivity|].
    constructor; [|exact Hall].
    cbn [name file_path size_mb num_points]. split; [reflexivity|].
    split; [exists size; split; [exact Ep|reflexivity]|exact En].
Qed.

(** X14. When [analyze_results] returns, it returns one model per path that
    [glob] found, in ascending order of the paths; each model has, as its
    name, the file name without directory and extension, as its size what
    [os.path.getsize] answered, in mebibytes, and as its count what
    [parse_ply_header] returned for that path, which is 0 for a file that
    has a size and cannot be opened. *)
Theorem analyze_results_lists_the_artifacts_in_path_order
    (fuel : nat) (ply_files : list string) (fs : files) (models : list ModelInfo) :
  analyze_results fuel ply_files fs = Some (inr models) ->
  Permutation (map file_path models) ply_files /\
  Sorted (fun a b => String.leb a b = true) (map file_path models) /\
  Forall (fun m =>
            name m = fst (splitext (basename (file_path m))) /\
            (exists size,
                size_of fs (file_path m) = inr size /\
                size_mb m = megabytes size) /\
            parse_ply_header fuel (opened fs (file_path m)) = Some (num_points m) /\
            (opened fs (file_path m) = None -> num_points m = 0%Z))
         models.
Proof.
  unfold analyze_results. intros H.
  destruct (analyze_each_models _ _ _ _ _ H) as (new & -> & Hp & Hall).
  cbn [app]. rewrite Hp. split; [apply sorted_perm|].
  split; [apply sorted_Sorted; apply String.leb_total|].
  eapply Forall_impl; [|exact Hall].
  intros m (Hname & Hsize & Hparse).
  split; [exact Hname|]. split; [exact Hsize|]. split; [exact Hparse|].
  intros Hopen. rewrite Hopen in Hparse. cbn in Hparse. congruence.
Qed.

Lemma analyze_results_lists_the_artifacts_in_path_order_witness :
  exists models,
    analyze_results 100 ("./output/scale_2.ply" :: Scenes.found) Scenes.unreadable
    = Some (inr models) /\
    map file_path models
    = ["./output/baseline.ply"; "./output/scale_2.ply"; "./output/sh_1.ply"] /\
    map num_points models = [12345%Z; 0%Z; 7%Z] /\
    Permutation (map file_path models) ("./output/scale_2.ply" :: Scenes.found).
Proof.
  assert (E : exists models,
                analyze_results 100 ("./output/scale_2.ply" :: Scenes.found)
                  Scenes.unreadable = Some (inr models) /\
                map file_path models
                = ["./output/baseline.ply"; "./output/scale_2.ply"; "./output/sh_1.ply"] /\
                map num_points models = [12345%Z; 0%Z; 7%Z]).
  { eexists. split; [|split]; vm_compute; reflexivity. }
  destruct E as (models & E & Hp & Hn). exists models.
  split; [exact E|]. split; [exact Hp|]. split; [exact Hn|].
  exact (proj1 (analyze_results_lists_the_artifacts_in_path_order
                  100 ("./output/scale_2.ply" :: Scenes.found) Scenes.unreadable
                  models E)).
Defined.

(** X15. The comparison finds each test again under its own name: for a
    test case whose name has no slash and is not made of dots only, the
    model that [analyze_results] builds from the artifact of the test case
    has the name of the test case, whatever the output directory. *)
Theorem the_comparison_names_a_model_after_its_test
    (self : ParamTest.OpenSplatTester) (tc : ParamTest.TestCase)
    (fuel : nat) (ply_files : list string) (fs : files) (models : list ModelInfo) :
  has_char "/" (ParamTest.name tc) = false ->
  only_dots (ParamTest.name tc) = false ->
  In (ParamTest.output_file_of self tc) ply_files ->
  analyze_results fuel ply_files fs = Some (inr models) ->
  exists m,
    In m models /\
    file_path m = ParamTest.output_file_of self tc /\
    name m = ParamTest.name tc.
Proof.
  intros Hslash Hdots Hin H. unfold analyze_results in H.
  destruct (analyze_each_models _ _ _ _ _ H) as (new & -> & Hp & Hall).
  cbn [app].
  assert (Hin' : In (ParamTest.output_file_of self tc) (map file_path new)).
  { rewrite Hp. apply (Permutation_in _ (Permutation_sym (sorted_perm _ _))). exact Hin. }
  apply in_map_iff in Hin'. destruct Hin' as (m & Hm & Hmin).
  exists m. split; [exact Hmin|]. split; [exact Hm|].
  rewrite Forall_forall in Hall. destruct (Hall m Hmin) as (Hname & _).
  rewrite Hname, Hm. unfold ParamTest.output_file_of.
  rewrite basename_path_join.
  - rewrite splitext_ply by exact Hslash. rewrite Hdots. reflexivity.
  - rewrite has_char_app, Hslash. reflexivity.
Qed.

Lemma the_comparison_names_a_model_after_its_test_witness :
  has_char "/" (ParamTest.name Samples.sh_1) = false /\
  only_dots (ParamTest.name Samples.sh_1) = false /\
  In (ParamTest.output_file_of (Samples.tester 2) Samples.sh_1) Scenes.found /\
  exists models m,
    analyze_results 100 Scenes.found Scenes.artifacts = Some (inr models) /\
    In m models /\ name m = "sh_1".
Proof.
  split; [reflexivity|]. split; [reflexivity|].
  assert (Hin : In (ParamTest.output_file_of (Samples.tester 2) Samples.sh_1) Scenes.found)
    by (left; reflexivity).
  split; [exact Hin|].
  assert (E : exists models,
                analyze_results 100 Scenes.found Scenes.artifacts = Some (inr models)).
  { eexists. vm_compute. reflexivity. }
  destruct E as (models & E).
  destruct (the_comparison_names_a_model_after_its_test (Samples.tester 2) Samples.sh_1
              100 Scenes.found Scenes.artifacts models eq_refl eq_refl Hin E)
    as (m & Hm & _ & Hname).
  exists models, m. split; [exact E|]. split; [exact Hm|exact Hname].
Defined.

(** *** Extrema *)

(** X16. The extremal analysis names a largest and a smallest model of the
    list: both are models of the list, every model has a size between
    theirs, and the ratio shown is the quotient of their sizes, at least one
    when the sizes are positive. *)
Theorem the_extremes_bound_every_model
    (models : list ModelInfo) (largest smallest : ModelInfo) (ratio : Q) :
  extremes models = inr (Some (largest, smallest, ratio)) ->
  In largest models /\ In smallest models /\
  Forall (fun m => (size_mb smallest <= size_mb m <= size_mb largest)%Q) models /\
  ratio = (size_mb largest / size_mb smallest)%Q /\
  ((0 < size_mb smallest)%Q -> (1 <= ratio)%Q).
Proof.
  unfold extremes, float_div. destruct models as [|m rest]; [discriminate|].
  destruct (Qeq_bool (size_mb (min_from smaller m rest)) 0) eqn:Ez; [discriminate|].
  intros H. injection H as <- <- <-.
  pose proof (max_from_upper smaller smaller_total smaller_trans m rest) as Hup.
  pose proof (min_from_lower smaller smaller_total smaller_trans m rest) as Hlow.
  split; [apply max_from_In|]. split; [apply min_from_In|].
  assert (Hall : Forall (fun x => (size_mb (min_from smaller m rest) <= size_mb x
                                   <= size_mb (max_from smaller m rest))%Q) (m :: rest)).
  { rewrite Forall_forall in *. intros x Hx. split.
    - apply Qle_bool_iff. exact (Hlow x Hx).
    - apply Qle_bool_iff. exact (Hup x Hx). }
  split; [exact Hall|]. split; [reflexivity|].
  intros Hpos.
  rewrite Forall_forall in Hall.
  destruct (Hall _ (min_from_In smaller m rest)) as (_ & Hle).
  apply Qle_shift_div_l; [exact Hpos|]. rewrite Qmult_1_l. exact Hle.
Qed.

Lemma the_extremes_bound_every_model_witness :
  exists largest smallest ratio,
    extremes Samples.varied = inr (Some (largest, smallest, ratio)) /\
    In largest Samples.varied /\ (1 <= ratio)%Q.
Proof.
  assert (E : exists largest smallest ratio,
                extremes Samples.varied = inr (Some (largest, smallest, ratio)) /\
                (0 < size_mb smallest)%Q).
  { eexists. eexists. eexists. split; vm_compute; reflexivity. }
  destruct E as (largest & smallest & ratio & E & Hpos).
  exists largest, smallest, ratio. split; [exact E|].
  destruct (the_extremes_bound_every_model Samples.varied largest smallest ratio E)
    as (Hl & _ & _ & _ & Hr).
  split; [exact Hl|exact (Hr Hpos)].
Defined.

(** *** The tables *)

Lemma Sorted_by_size (l : list ModelInfo) :
  Sorted (fun a b => smaller a b = true) l ->
  Sorted (fun a b => (size_mb a <= size_mb b)%Q) l.
Proof.
  induction 1 as [|x l Hs IH Hd]; constructor; [exact IH|].
  destruct Hd as [|y l Hxy]; constructor. apply Qle_bool_iff. exact Hxy.
Qed.

Lemma groups_members (models : list ModelInfo) (gm : group * list object) :
  In gm (groups models) -> snd gm = members models (fst gm).
Proof.
  unfold groups. intros H. apply in_app_or in H. destruct H as [H|[<-|[]]].
  - unfold named in H. apply in_map_iff in H. destruct H as (g & <- & Hg).
    cbn [fst snd]. rewrite members_named by exact Hg. reflexivity.
  - cbn [fst snd]. rewrite members_others. reflexivity.
Qed.

Lemma members_in_groups (models : list ModelInfo) (g : group) :
  In (g, members models g) (groups models).
Proof.
  unfold groups. apply in_or_app.
  destruct (group_cases g) as [Hg| ->].
  - left. unfold named. apply in_map_iff. exists g.
    rewrite members_named by exact Hg. split; [reflexivity|exact Hg].
  - right. left. rewrite members_others. reflexivity.
Qed.

Lemma shown_table (models : list ModelInfo) (g : group) (ms : list ModelInfo) :
  In (g, ms) (shown_groups models) ->
  ms <> [] /\
  Permutation ms (map snd (members models g)) /\
  Sorted (fun a b => (size_mb a <= size_mb b)%Q) ms.
Proof.
  unfold shown_groups. intros H. apply filter_In in H. destruct H as (H & Hne).
  apply in_map_iff in H. destruct H as (gm & Heq & Hgm).
  injection Heq as <- <-. cbn [snd] in Hne.
  rewrite (groups_members _ _ Hgm) in *.
  split; [|split].
  - intros E. rewrite E in Hne. discriminate.
  - apply sorted_perm.
  - apply Sorted_by_size. apply sorted_Sorted. apply smaller_total.
Qed.

Lemma group_with_members_is_shown (models : list ModelInfo) (g : group) :
  members models g <> [] ->
  In (g, sorted smaller (map snd (members models g))) (shown_groups models).
Proof.
  intros Hne. unfold shown_groups. apply filter_In. split.
  - apply in_map_iff. exists (g, members models g).
    split; [reflexivity|apply members_in_groups].
  - cbn [snd].
    destruct (sorted smaller (map snd (members models g))) as [|x l] eqn:E;
      [|reflexivity].
    exfalso. apply Hne.
    pose proof (sorted_perm smaller (map snd (members models g))) as Hp.
    rewrite E in Hp. apply Permutation_nil in Hp.
    destruct (members models g); [reflexivity|discriminate].
Qed.

(** *** How the comparison ends *)


(** *** The divisions *)

Lemma overflow_bound_positive : (0 < overflow_bound)%Z.
Proof. reflexivity. Qed.

Lemma quotient_at_least (B n d : Z) :
  (0 < d)%Z ->
  Qle_bool (inject_Z B) (inject_Z n / inject_Z d) = true <-> (B * d <= n)%Z.
Proof.
  intros Hd. rewrite Qle_bool_iff. destruct d as [|d|d]; try lia.
  unfold Qle, Qdiv, Qmult, Qinv, inject_Z. cbn [Qnum Qden].
  rewrite Pos.mul_1_l. lia.
Qed.

Lemma quotient_at_most (C n d : Z) :
  (0 < d)%Z ->
  Qle_bool (inject_Z n / inject_Z d) (inject_Z C) = true <-> (n <= C * d)%Z.
Proof.
  intros Hd. rewrite Qle_bool_iff. destruct d as [|d|d]; try lia.
  unfold Qle, Qdiv, Qmult, Qinv, inject_Z. cbn [Qnum Qden].
  rewrite Pos.mul_1_l. lia.
Qed.

Lemma quotient_is_zero (n d : Z) :
  (0 < d)%Z -> Qeq_bool (inject_Z n / inject_Z d) 0 = true -> n = 0%Z.
Proof.
  intros Hd H. apply Qeq_bool_iff in H. destruct d as [|d|d]; try lia.
  unfold Qeq, Qdiv, Qmult, Qinv, inject_Z in H. cbn [Qnum Qden] in H. lia.
Qed.

(** What a division of two integers does, for a positive divisor. *)
Lemma int_div_cases (n d : Z) :
  (0 < d)%Z ->
  match int_div n d with
  | inl e =>
      message e = "integer division result too large for a float" /\
      (overflow_bound * d <= n \/ n <= - overflow_bound * d)%Z
  | inr q =>
      q = (inject_Z n / inject_Z d)%Q /\
      (- overflow_bound * d < n < overflow_bound * d)%Z
  end.
Proof.
  intros Hd. unfold int_div.
  destruct (d =? 0)%Z eqn:E0; [apply Z.eqb_eq in E0; lia|].
  destruct (Qle_bool (inject_Z overflow_bound) (inject_Z n / inject_Z d)) eqn:E1.
  - cbn [orb]. split; [reflexivity|]. left. apply quotient_at_least in E1; assumption.
  - destruct (Qle_bool (inject_Z n / inject_Z d) (inject_Z (- overflow_bound))) eqn:E2.
    + cbn [orb]. split; [reflexivity|]. right.
      apply quotient_at_most in E2; assumption.
    + cbn [orb]. split; [reflexivity|].
      split.
      * destruct (Z_lt_le_dec (- overflow_bound * d) n) as [H|H]; [exact H|].
        apply (quotient_at_most _ _ _ Hd) in H. congruence.
      * destruct (Z_lt_le_dec n (overflow_bound * d)) as [H|H]; [exact H|].
        apply (quotient_at_least _ _ _ Hd) in H. congruence.
Qed.

(** The efficiency of a row raises exactly for a count of points that is
    too large to be divided, and then with [OverflowError]. *)
Lemma efficiency_cases (m : ModelInfo) :
  match efficiency m with
  | inl e =>
      message e = "integer division result too large for a float" /\
      (overflow_bound * 10000 <= num_points m)%Z
  | inr _ => (num_points m < overflow_bound * 10000)%Z
  end.
Proof.
  pose proof overflow_bound_positive as HB.
  unfold efficiency. destruct (0 <? num_points m)%Z eqn:Hpos.
  - apply Z.ltb_lt in Hpos.
    pose proof (int_div_cases (num_points m) 10000 ltac:(lia)) as H.
    destruct (int_div (num_points m) 10000) as [e|q].
    + destruct H as (Hm & [H|H]); [split; assumption|lia].
    + destruct H as (-> & _ & H). unfold float_div.
      destruct (Qeq_bool (inject_Z (num_points m) / inject_Z 10000) 0) eqn:Ez.
      * apply quotient_is_zero in Ez; lia.
      * exact H.
  - apply Z.ltb_ge in Hpos. lia.
Qed.

Lemma table_rows_cases (ms : list ModelInfo) :
  match table_rows ms with
  | inl e => exists m, In m ms /\ efficiency m = inl e
  | inr rows => map fst rows = ms /\ Forall (fun m => exists q, efficiency m = inr q) ms
  end.
Proof.
  induction ms as [|m ms IH]; [split; constructor|].
  cbn [table_rows]. destruct (efficiency m) as [e|q] eqn:E.
  - exists m. split; [left; reflexivity|exact E].
  - destruct (table_rows ms) as [e|rows].
    + destruct IH as (m' & Hin & He). exists m'. split; [right; exact Hin|exact He].
    + destruct IH as (Hrows & Hall). split; [cbn [map fst]; rewrite Hrows; reflexivity|].
      constructor; [exists q; exact E|exact Hall].
Qed.

Lemma tables_cases (shown : list (group * list ModelInfo)) :
  match tables shown with
  | inl e => exists g ms m, In (g, ms) shown /\ In m ms /\ efficiency m = inl e
  | inr _ =>
      forall g ms m, In (g, ms) shown -> In m ms -> exists q, efficiency m = inr q
  end.
Proof.
  induction shown as [|[g ms] shown IH]; [intros g ms m []|].
  cbn [tables]. pose proof (table_rows_cases ms) as Hrows.
  destruct (table_rows ms) as [e|rows].
  - destruct Hrows as (m & Hin & He). exists g, ms, m.
    split; [left; reflexivity|]. split; assumption.
  - destruct (tables shown) as [e|others].
    + destruct IH as (g' & ms' & m & Hin & Hm & He). exists g', ms', m.
      split; [right; exact Hin|]. split; assumption.
    + destruct Hrows as (_ & Hall). rewrite Forall_forall in Hall.
      intros g' ms' m [Heq|Hin] Hm.
      * injection Heq as <- <-. apply Hall. exact Hm.
      * apply (IH g' ms' m Hin Hm).
Qed.

(** The tables that are returned: one per group that is shown, in the same
    order, with one row per model and its efficiency. *)
Lemma table_rows_returned (ms : list ModelInfo) (rows : list (ModelInfo * Q)) :
  table_rows ms = inr rows ->
  map fst rows = ms /\ Forall (fun row => efficiency (fst row) = inr (snd row)) rows.
Proof.
  revert rows. induction ms as [|m ms IH]; intros rows.
  - cbn [table_rows]. intros H. injection H as <-. split; constructor.
  - cbn [table_rows]. destruct (efficiency m) as [e|q] eqn:E; [discriminate|].
    destruct (table_rows ms) as [e|rest]; [discriminate|].
    intros H. injection H as <-. destruct (IH rest eq_refl) as (Hm & Hall).
    split; [cbn [map fst]; rewrite Hm; reflexivity|].
    constructor; [exact E|exact Hall].
Qed.

Lemma tables_returned (sg : list (group * list ModelInfo))
    (shown : list (group * list (ModelInfo * Q))) :
  tables sg = inr shown ->
  Forall2 (fun gm t =>
             fst t = fst gm /\ map fst (snd t) = snd gm /\
             Forall (fun row => efficiency (fst row) = inr (snd row)) (snd t))
          sg shown.
Proof.
  revert shown. induction sg as [|[g ms] sg IH]; intros shown.
  - cbn [tables]. intros H. injection H as <-. constructor.
  - cbn [tables]. destruct (table_rows ms) as [e|rows] eqn:E; [discriminate|].
    destruct (tables sg) as [e|others]; [discriminate|].
    intros H. injection H as <-.
    destruct (table_rows_returned _ _ E) as (Hm & Hall).
    constructor; [|apply IH; reflexivity].
    cbn [fst snd]. split; [reflexivity|]. split; assumption.
Qed.

Lemma Forall2_in_r {A B : Type} (P : A -> B -> Prop) (l : list A) (l' : list B) (y : B) :
  Forall2 P l l' -> In y l' -> exists x, In x l /\ P x y.
Proof.
  induction 1 as [|a b l l' Hab _ IH]; intros Hin; [contradiction|].
  destruct Hin as [<-|Hin].
  - exists a. split; [left; reflexivity|exact Hab].
  - destruct (IH Hin) as (x & Hx & Hp). exists x. split; [right; exact Hx|exact Hp].
Qed.

Lemma Forall2_in_l {A B : Type} (P : A -> B -> Prop) (l : list A) (l' : list B) (x : A) :
  Forall2 P l l' -> In x l -> exists y, In y l' /\ P x y.
Proof.
  induction 1 as [|a b l l' Hab _ IH]; intros Hin; [contradiction|].
  destruct Hin as [<-|Hin].
  - exists b. split; [left; reflexivity|exact Hab].
  - destruct (IH Hin) as (y & Hy & Hp). exists y. split; [right; exact Hy|exact Hp].
Qed.

(** Every model is a row of some table, and every row is a model. *)
Lemma every_model_is_shown (models : list ModelInfo) (m : ModelInfo) :
  In m models -> exists g ms, In (g, ms) (shown_groups models) /\ In m ms.
Proof.
  intros Hin. apply In_nth_error in Hin. destruct Hin as (i & Hi).
  apply in_objects in Hi.
  assert (Hg : exists g, In (i, m) (members models g)).
  { destruct (existsb (Nat.eqb (fst (i, m))) (assigned models)) eqn:E.
    - apply (assigned_iff models (i, m) Hi) in E. destruct E as (g & Hg & Hr).
      exists g. rewrite members_named by exact Hg. apply filter_In. split; assumption.
    - exists Others. rewrite members_others. apply filter_In.
      split; [exact Hi|]. rewrite E. reflexivity. }
  destruct Hg as (g & Hg).
  exists g, (sorted smaller (map snd (members models g))). split.
  - apply group_with_members_is_shown. intros E. rewrite E in Hg. exact Hg.
  - apply (Permutation_in _ (Permutation_sym (sorted_perm _ _))).
    apply in_map_iff. exists (i, m). split; [reflexivity|exact Hg].
Qed.






(** X17. When [print_comparison] returns, it has printed a table for
    exactly the groups that have a member, and each table lists the members
    of its group, each once, by ascending size, every row with the
    efficiency computed for its model. *)
Theorem every_table_lists_its_group_by_ascending_size
    (models : list ModelInfo) (shown : list (group * list (ModelInfo * Q)))
    (stats : option statistics) (found : option (ModelInfo * ModelInfo * Q)) :
  print_comparison models = inr (shown, stats, found) ->
  (forall g rows,
      In (g, rows) shown ->
      rows <> [] /\
      Permutation (map fst rows) (map snd (members models g)) /\
      Sorted (fun a b => (size_mb a <= size_mb b)%Q) (map fst rows) /\
      Forall (fun row => efficiency (fst row) = inr (snd row)) rows) /\
  (forall g, members models g <> [] -> exists rows, In (g, rows) shown).
Proof.
  unfold print_comparison.
  destruct (tables (shown_groups models)) as [e|shown'] eqn:Et; [discriminate|].
  destruct (overall models) as [e|stats']; [discriminate|].
  destruct (extremes models) as [e|found']; [discriminate|].
  intros H. injection H as <- <- <-.
  pose proof (tables_returned _ _ Et) as Hall.
  split.
  - intros g rows Hin.
    destruct (Forall2_in_r _ _ _ _ Hall Hin) as ([g' ms] & Hgm & Hg & Hms & Heff).
    cbn [fst snd] in Hg, Hms, Heff. subst g'.
    destruct (shown_table _ _ _ Hgm) as (Hne & Hperm & Hsorted).
    rewrite Hms. split; [|split; [exact Hperm|split; [exact Hsorted|exact Heff]]].
    intros E. subst rows. cbn [map] in Hms. congruence.
  - intros g Hne.
    destruct (Forall2_in_l _ _ _ _ Hall (group_with_members_is_shown models g Hne))
      as ([g' rows] & Hin & Hg & _).
    cbn [fst] in Hg. subst g'. exists rows. exact Hin.
Qed.

Lemma every_table_lists_its_group_by_ascending_size_witness :
  exists shown stats found,
    print_comparison Samples.varied = inr (shown, stats, found) /\
    map fst shown = [Resolution; SphericalHarmonics; Combined; Others] /\
    exists rows, In (SphericalHarmonics, rows) shown.
Proof.
  assert (E : exists shown stats found,
                print_comparison Samples.varied = inr (shown, stats, found) /\
                map fst shown = [Resolution; SphericalHarmonics; Combined; Others]).
  { eexists. eexists. eexists. split; vm_compute; reflexivity. }
  destruct E as (shown & stats & found & E & Hg).
  exists shown, stats, found. split; [exact E|]. split; [exact Hg|].
  apply (proj2 (every_table_lists_its_group_by_ascending_size
                  Samples.varied shown stats found E) SphericalHarmonics).
  vm_compute. discriminate.
Defined.



(** X19. A header that declares a count of points of at least
    [(2^1024 - 2^970) * 10000] ends [print_comparison] in [OverflowError]:
    the table row of that model divides the count by 10000, and the
    quotient of two integers must fit a [float]. *)
Theorem a_huge_declared_count_ends_the_comparison
    (models : list ModelInfo) (m : ModelInfo) :
  In m models ->
  (overflow_bound * 10000 <= num_points m)%Z ->
  exists e,
    print_comparison models = inl e /\
    message e = "integer division result too large for a float".
Proof.
  intros Hm Hbig. unfold print_comparison.
  pose proof (tables_cases (shown_groups models)) as Ht.
  destruct (tables (shown_groups models)) as [x|shown].
  - exists x. split; [reflexivity|].
    destruct Ht as (g & ms & m' & _ & _ & He).
    pose proof (efficiency_cases m') as Hc. rewrite He in Hc. tauto.
  - exfalso.
    destruct (every_model_is_shown models m Hm) as (g & ms & Hg & Hin).
    destruct (Ht g ms m Hg Hin) as (q & Hq).
    pose proof (efficiency_cases m) as Hc. rewrite Hq in Hc. lia.
Qed.

Lemma a_huge_declared_count_ends_the_comparison_witness :
  In Scenes.huge [Samples.model "baseline"; Scenes.huge] /\
  (overflow_bound * 10000 <= num_points Scenes.huge)%Z /\
  exists e, print_comparison [Samples.model "baseline"; Scenes.huge] = inl e.
Proof.
  assert (Hin : In Scenes.huge [Samples.model "baseline"; Scenes.huge])
    by (right; left; reflexivity).
  assert (Hbig : (overflow_bound * 10000 <= num_points Scenes.huge)%Z)
    by (vm_compute; discriminate).
  split; [exact Hin|]. split; [exact Hbig|].
  destruct (a_huge_declared_count_ends_the_comparison _ _ Hin Hbig) as (e & He & _).
  exists e. exact He.
Defined.

Lemma analyze_each_hangs (fuel : nat) (fs : files) (paths : list string)
    (acc : list ModelInfo) (p : string) (content : list byte) :
  (forall q, In q paths -> exists size, size_of fs q = inr size) ->
  In p paths ->
  opened fs p = Some content ->
  parse_ply_header fuel (Some content) = None ->
  analyze_each fuel fs paths acc = None.
Proof.
  revert acc. induction paths as [|q paths IH]; intros acc Hall Hin Hp Hhang;
    [contradiction|].
  cbn [analyze_each].
  destruct (Hall q (or_introl eq_refl)) as (size & ->).
  destruct (parse_ply_header fuel (opened fs q)) as [n|] eqn:En; [|reflexivity].
  destruct Hin as [->|Hin].
  - rewrite Hp in En. congruence.
  - apply IH; [|exact Hin|exact Hp|exact Hhang].
    intros q' Hq'. apply Hall. right. exact Hq'.
Qed.

(** X20. One artifact of at most 10000 bytes without [end_header], such as
    the empty or truncated file an interrupted trial leaves behind, keeps
    the whole comparison from ending: when the size of every listed file can
    be read, [main] is still running after any number of iterations and
    shows nothing. *)
Theorem one_truncated_artifact_hangs_the_comparison
    (ply_files : list string) (fs : files) (p : string) (content : list byte) :
  (forall q, In q ply_files -> exists size, size_of fs q = inr size) ->
  In p ply_files ->
  opened fs p = Some content ->
  bytes_contains end_header content = false ->
  (Z.of_nat (List.length content) <= 10000)%Z ->
  forall fuel, main true fuel ply_files fs = None.
Proof.
  intros Hall Hin Hp Hno Hshort fuel. unfold main, analyze_results. cbn [negb].
  rewrite (analyze_each_hangs fuel fs (sorted String.leb ply_files) [] p content);
    [reflexivity| | |exact Hp|].
  - intros q Hq. apply Hall.
    apply (Permutation_in _ (sorted_perm String.leb ply_files)). exact Hq.
  - apply (Permutation_in _ (Permutation_sym (sorted_perm String.leb ply_files))).
    exact Hin.
  - apply parse_ply_header_hangs_on_short_file_without_terminator; assumption.
Qed.

Lemma one_truncated_artifact_hangs_the_comparison_witness :
  (forall q, In q ("./output/scale_2.ply" :: Scenes.found) ->
             exists size, Analysis.size_of Scenes.interrupted q = inr size) /\
  In "./output/scale_2.ply" ("./output/scale_2.ply" :: Scenes.found) /\
  Analysis.opened Scenes.interrupted "./output/scale_2.ply" = Some Samples.truncated /\
  bytes_contains end_header Samples.truncated = false /\
  (Z.of_nat (List.length Samples.truncated) <= 10000)%Z /\
  main true 1000 ("./output/scale_2.ply" :: Scenes.found) Scenes.interrupted = None.
Proof.
  assert (Hall : forall q, In q ("./output/scale_2.ply" :: Scenes.found) ->
                           exists size, Analysis.size_of Scenes.interrupted q = inr size).
  { intros q [<-|[<-|[<-|[]]]]; eexists; reflexivity. }
  assert (Hshort : (Z.of_nat (List.length Samples.truncated) <= 10000)%Z)
    by (vm_compute; discriminate).
  split; [exact Hall|]. split; [left; reflexivity|]. split; [reflexivity|].
  split; [reflexivity|]. split; [exact Hshort|].
  exact (one_truncated_artifact_hangs_the_comparison
           ("./output/scale_2.ply" :: Scenes.found) Scenes.interrupted
           "./output/scale_2.ply" Samples.truncated
           Hall (or_introl eq_refl) eq_refl eq_refl Hshort 1000).
Defined.

End AnalysisFacts.

(** ** When the header parser returns *)

Module TerminationFacts.

Import Py CompareResults HeaderFacts.

(** X21. [parse_ply_header] returns on a file it can open exactly when the
    file contains [end_header] or has more than 10000 bytes; on every other
    file, the empty one included, its loop never stops. When it returns, it
    has done so after at most one iteration per byte and one more. *)
Theorem the_header_parser_returns_exactly_when_the_loop_can_stop (f : list byte) :
  ((exists fuel n, parse_ply_header fuel (Some f) = Some n) <->
   bytes_contains end_header f = true \/ (10000 < Z.of_nat (List.length f))%Z) /\
  ((exists fuel n, parse_ply_header fuel (Some f) = Some n) ->
   exists n, parse_ply_header (S (List.length f)) (Some f) = Some n).
Proof.
  assert (Hstop : bytes_contains end_header f = true
                  \/ (10000 < Z.of_nat (List.length f))%Z ->
                  exists n, parse_ply_header (S (List.length f)) (Some f) = Some n).
  { intros H.
    destruct (read_header_stops (List.length f) f [] (le_n _) ltac:(simpl; lia) H)
      as (read & rest & before & line & _ & _ & _ & _ & _ & Hfuel).
    specialize (Hfuel (S (List.length f)) (Nat.le_succ_diag_r _)).
    unfold parse_ply_header, try_block. rewrite Hfuel.
    destruct (scan_lines (split_on "010" (decode_ascii_ignore ([] ++ read))))
      as [r|[n|]]; eexists; reflexivity. }
  assert (Hconv : (exists fuel n, parse_ply_header fuel (Some f) = Some n) ->
                  bytes_contains end_header f = true
                  \/ (10000 < Z.of_nat (List.length f))%Z).
  { intros (fuel & n & H).
    destruct (bytes_contains end_header f) eqn:E; [left; reflexivity|].
    right. destruct (Z.ltb_spec 10000 (Z.of_nat (List.length f))) as [Hl|Hl];
      [exact Hl|].
    rewrite parse_ply_header_hangs_on_short_file_without_terminator in H;
      [discriminate|exact E|exact Hl]. }
  split; [split|].
  - exact Hconv.
  - intros H. destruct (Hstop H) as (n & Hn). exists (S (List.length f)), n. exact Hn.
  - intros H. apply Hstop, Hconv, H.
Qed.

End TerminationFacts.

(** ** Reading back a declared count *)

Module RoundTripFacts.

Import Py PyLib CompareResults Ply LibFacts CommandFacts HeaderFacts ReportFacts.

(** *** Strings and their bytes *)

Lemma byte_of_ascii_inj (a b : ascii) : byte_of_ascii a = byte_of_ascii b -> a = b.
Proof.
  intros H. rewrite <- (ascii_of_byte_of_ascii a), <- (ascii_of_byte_of_ascii b), H.
  reflexivity.
Qed.

Lemma byte_eqb_of_ascii (a b : ascii) :
  Byte.eqb (byte_of_ascii a) (byte_of_ascii b) = Ascii.eqb a b.
Proof.
  destruct (Ascii.eqb a b) eqn:E.
  - apply Ascii.eqb_eq in E. subst. apply Byte.byte_dec_lb. reflexivity.
  - destruct (Byte.eqb (byte_of_ascii a) (byte_of_ascii b)) eqn:E'; [|reflexivity].
    apply Byte.byte_dec_bl, byte_of_ascii_inj in E'. subst.
    rewrite Ascii.eqb_refl in E. discriminate.
Qed.

Lemma list_byte_of_string_app (a b : string) :
  list_byte_of_string (a ++ b) = list_byte_of_string a ++ list_byte_of_string b.
Proof.
  unfold list_byte_of_string. rewrite list_ascii_of_string_app. apply map_app.
Qed.

Lemma string_of_list_byte_app (a b : list byte) :
  string_of_list_byte (a ++ b) = (string_of_list_byte a ++ string_of_list_byte b)%string.
Proof.
  unfold string_of_list_byte. rewrite map_app.
  generalize (map ascii_of_byte a) as x. generalize (map ascii_of_byte b) as y.
  intros y x. induction x as [|c x IH]; [reflexivity|].
  cbn [app string_of_list_ascii String.append]. rewrite IH. reflexivity.
Qed.

Lemma bytes_prefix_of_strings (p s : string) :
  bytes_prefix (list_byte_of_string p) (list_byte_of_string s) = String.prefix p s.
Proof.
  revert s. induction p as [|a p IH]; intros s.
  - destruct s; reflexivity.
  - destruct s as [|b s]; [reflexivity|].
    change (list_byte_of_string (String a p))
      with (byte_of_ascii a :: list_byte_of_string p).
    change (list_byte_of_string (String b s))
      with (byte_of_ascii b :: list_byte_of_string s).
    cbn [bytes_prefix String.prefix]. rewrite byte_eqb_of_ascii, IH.
    destruct (ascii_dec a b) as [->|Hne].
    + rewrite Ascii.eqb_refl. reflexivity.
    + destruct (Ascii.eqb a b) eqn:E; [apply Ascii.eqb_eq in E; contradiction|reflexivity].
Qed.

Lemma bytes_contains_of_strings (p s : string) :
  bytes_contains (list_byte_of_string p) (list_byte_of_string s) = contains p s.
Proof.
  induction s as [|b s IH].
  - cbn [contains]. change (list_byte_of_string "") with (@nil byte).
    cbn [bytes_contains]. rewrite <- bytes_prefix_of_strings. reflexivity.
  - change (list_byte_of_string (String b s))
      with (byte_of_ascii b :: list_byte_of_string s).
    cbn [bytes_contains contains].
    change (byte_of_ascii b :: list_byte_of_string s)
      with (list_byte_of_string (String b s)).
    rewrite bytes_prefix_of_strings, IH. reflexivity.
Qed.

Lemma in_newline_has_char (s : string) :
  has_char "010" s = false -> ~ In newline (list_byte_of_string s).
Proof.
  induction s as [|c s IH]; [intros _ []|].
  cbn [has_char]. intros H. apply orb_false_iff in H. destruct H as (Hc & Hs).
  change (list_byte_of_string (String c s))
    with (byte_of_ascii c :: list_byte_of_string s).
  intros [E|E]; [|exact (IH Hs E)].
  change newline with (byte_of_ascii "010") in E.
  apply byte_of_ascii_inj in E. subst. discriminate.
Qed.

Lemma ascii_bytes_are_kept (s : string) :
  forallb (fun c => Nat.ltb (nat_of_ascii c) 128) (list_ascii_of_string s) = true ->
  filter (fun b => (Byte.to_N b <? 128)%N) (list_byte_of_string s)
  = list_byte_of_string s.
Proof.
  unfold list_byte_of_string.
  induction (list_ascii_of_string s) as [|c l IH]; [reflexivity|].
  cbn [forallb map filter]. intros H. apply andb_true_iff in H. destruct H as (Hc & Hl).
  assert (Hn : Byte.to_N (byte_of_ascii c) = N_of_ascii c).
  { apply Byte.to_of_N. symmetry. apply byte_of_ascii_via_N. }
  rewrite Hn.
  assert (Hlt : (N_of_ascii c <? 128)%N = true).
  { apply Nat.ltb_lt in Hc. apply N.ltb_lt. unfold nat_of_ascii in Hc. lia. }
  rewrite Hlt, (IH Hl). reflexivity.
Qed.

(** *** The loop on a header made of lines *)

Lemma readline_line (body rest : list byte) :
  ~ In newline body -> readline (body ++ newline :: rest) = (body ++ [newline], rest).
Proof.
  induction body as [|b body IH]; intros H.
  - reflexivity.
  - cbn [app readline].
    destruct (Byte.eqb b newline) eqn:E.
    + apply Byte.byte_dec_bl in E. exfalso. apply H. left. exact E.
    + rewrite IH; [reflexivity|]. intros Hin. apply H. right. exact Hin.
Qed.

Lemma bytes_prefix_before_newline (pat body : list byte) :
  ~ In newline pat ->
  bytes_prefix pat (body ++ [newline]) = bytes_prefix pat body.
Proof.
  revert body. induction pat as [|p pat IH]; intros body H.
  - destruct body; reflexivity.
  - destruct body as [|b body].
    + cbn [app bytes_prefix].
      destruct (Byte.eqb p newline) eqn:E; [|reflexivity].
      apply Byte.byte_dec_bl in E. exfalso. apply H. left. exact E.
    + cbn [app bytes_prefix]. rewrite IH; [reflexivity|].
      intros Hin. apply H. right. exact Hin.
Qed.

Lemma bytes_contains_before_newline (pat body : list byte) :
  ~ In newline pat -> pat <> [] ->
  bytes_contains pat (body ++ [newline]) = bytes_contains pat body.
Proof.
  intros Hn Hne. induction body as [|b body IH].
  - destruct pat as [|p pat]; [congruence|].
    cbn [app bytes_contains bytes_prefix].
    destruct (Byte.eqb p newline) eqn:E; [|reflexivity].
    apply Byte.byte_dec_bl in E. exfalso. apply Hn. left. exact E.
  - change ((b :: body) ++ [newline]) with (b :: (body ++ [newline])).
    cbn [bytes_contains].
    change (b :: (body ++ [newline])) with ((b :: body) ++ [newline]).
    rewrite bytes_prefix_before_newline by exact Hn. rewrite IH. reflexivity.
Qed.

(** A line that is plain is read whole and does not end the loop. *)
Lemma plain_line (l : string) :
  plain l = true ->
  ~ In newline (list_byte_of_string l) /\
  bytes_contains end_header (line l) = false /\
  decode_ascii_ignore (line l) = (l ++ String "010" "")%string /\
  has_char "010" l = false.
Proof.
  unfold plain. intros H. apply andb_true_iff in H. destruct H as (H & Hend).
  apply andb_true_iff in H. destruct H as (Hascii & Hnl).
  apply negb_true_iff in Hnl, Hend.
  split; [apply in_newline_has_char; exact Hnl|]. split; [|split; [|exact Hnl]].
  - unfold line.
    rewrite bytes_contains_before_newline
      by (apply end_header_has_no_newline || apply end_header_not_empty).
    unfold end_header. rewrite bytes_contains_of_strings. exact Hend.
  - unfold decode_ascii_ignore, line. rewrite filter_app, (ascii_bytes_are_kept l Hascii).
    rewrite string_of_list_byte_app, string_of_list_byte_of_string. reflexivity.
Qed.

Lemma read_header_lines (ls : list string) (rest h : list byte) (fuel : nat) :
  forallb plain ls = true ->
  (Z.of_nat (List.length (h ++ List.concat (map line ls))) <= 10000)%Z ->
  List.length ls < fuel ->
  read_header fuel (List.concat (map line ls) ++ line "end_header" ++ rest) h
  = Some (h ++ List.concat (map line ls) ++ line "end_header").
Proof.
  revert h fuel. induction ls as [|l ls IH]; intros h fuel Hplain Hlen Hfuel.
  - destruct fuel as [|fuel]; [simpl in Hfuel; lia|].
    cbn [map List.concat app]. unfold line at 1.
    cbn [read_header]. rewrite <- app_assoc. cbn [app].
    rewrite readline_line by (apply in_newline_has_char; reflexivity).
    change (list_byte_of_string "end_header" ++ [newline]) with (line "end_header").
    replace (bytes_contains end_header (line "end_header")) with true by reflexivity.
    reflexivity.
  - destruct fuel as [|fuel]; [simpl in Hfuel; lia|].
    cbn [forallb] in Hplain. apply andb_true_iff in Hplain. destruct Hplain as (Hl & Hls).
    destruct (plain_line l Hl) as (Hnl & Hend & _ & _).
    cbn [map List.concat]. rewrite <- !app_assoc. unfold line at 1.
    cbn [read_header]. rewrite <- app_assoc. cbn [app].
    rewrite readline_line by exact Hnl.
    change (list_byte_of_string l ++ [newline]) with (line l).
    rewrite Hend.
    cbn [map List.concat] in Hlen. rewrite app_assoc in Hlen.
    destruct (10000 <? Z.of_nat (List.length (h ++ line l)))%Z eqn:E.
    + apply Z.ltb_lt in E. rewrite length_app in Hlen. lia.
    + rewrite (IH (h ++ line l) fuel Hls Hlen) by (simpl in Hfuel; lia).
      rewrite <- !app_assoc. reflexivity.
Qed.

(** *** The text of the header *)

Lemma decode_ascii_ignore_app (a b : list byte) :
  decode_ascii_ignore (a ++ b)
  = (decode_ascii_ignore a ++ decode_ascii_ignore b)%string.
Proof.
  unfold decode_ascii_ignore. rewrite filter_app. apply string_of_list_byte_app.
Qed.

Lemma split_on_lines (ls : list string) (tail : string) :
  forallb plain ls = true ->
  split_on "010" (decode_ascii_ignore (List.concat (map line ls)) ++ tail)
  = ls ++ split_on "010" tail.
Proof.
  unfold split_on. induction ls as [|l ls IH]; intros H; [reflexivity|].
  cbn [forallb] in H. apply andb_true_iff in H. destruct H as (Hl & Hls).
  destruct (plain_line l Hl) as (_ & _ & Hdec & Hnl).
  cbn [map List.concat]. rewrite decode_ascii_ignore_app, Hdec, !append_assoc.
  rewrite split_on_from_app by exact Hnl.
  cbn [String.append split_on_from]. rewrite Ascii.eqb_refl.
  cbn [String.append app]. rewrite (IH Hls). reflexivity.
Qed.

(** *** The declaration *)

Lemma numeral_chars (d : Decimal.uint) :
  Forall (fun c => Nat.leb 48 (nat_of_ascii c) && Nat.leb (nat_of_ascii c) 57 = true)
         (list_ascii_of_string (NilEmpty.string_of_uint d)).
Proof.
  induction d; cbn [NilEmpty.string_of_uint list_ascii_of_string];
    constructor; try reflexivity; assumption.
Qed.

(** The characters of [str(n)] are digits, after a minus sign if any. *)
Lemma str_of_int_chars (z : Z) :
  str_of_int z <> "" /\
  Forall (fun c => c = "-"%char \/
                   Nat.leb 48 (nat_of_ascii c) && Nat.leb (nat_of_ascii c) 57 = true)
         (list_ascii_of_string (str_of_int z)).
Proof.
  assert (Hd : forall p,
             NilZero.string_of_uint (Pos.to_uint p) <> "" /\
             Forall (fun c => c = "-"%char \/
                              Nat.leb 48 (nat_of_ascii c) && Nat.leb (nat_of_ascii c) 57 = true)
                    (list_ascii_of_string (NilZero.string_of_uint (Pos.to_uint p)))).
  { intros p. destruct (numeral_of_positive p) as (Hne & ->). split.
    - destruct (Pos.to_uint p); [congruence| ..]; discriminate.
    - eapply Forall_impl; [|apply numeral_chars]. intros c Hc. right. exact Hc. }
  unfold str_of_int. destruct z as [|p|p].
  - split; [discriminate|]. constructor; [right; reflexivity|constructor].
  - cbn [Z.to_int NilZero.string_of_int]. apply Hd.
  - cbn [Z.to_int NilZero.string_of_int]. split; [discriminate|].
    cbn [list_ascii_of_string]. constructor; [left; reflexivity|apply Hd].
Qed.

Lemma str_of_int_plain (z : Z) :
  word (str_of_int z) = true /\
  forallb (fun c => Nat.ltb (nat_of_ascii c) 128) (list_ascii_of_string (str_of_int z))
  = true /\
  has_char "010" (str_of_int z) = false /\
  has_char "_" (str_of_int z) = false.
Proof.
  destruct (str_of_int_chars z) as (Hne & Hall).
  assert (H : forall c,
             c = "-"%char \/
             Nat.leb 48 (nat_of_ascii c) && Nat.leb (nat_of_ascii c) 57 = true ->
             negb (is_space c) = true /\ Nat.ltb (nat_of_ascii c) 128 = true /\
             Ascii.eqb c "010" = false /\ Ascii.eqb c "_" = false).
  { intros c [->|Hc]; [repeat split|].
    apply andb_true_iff in Hc. destruct Hc as (H1 & H2).
    apply Nat.leb_le in H1, H2.
    split; [|split; [|split]].
    - unfold is_space. cbv zeta.
      assert (E1 : Nat.leb (nat_of_ascii c) 13 = false) by (apply Nat.leb_gt; lia).
      assert (E2 : Nat.leb (nat_of_ascii c) 32 = false) by (apply Nat.leb_gt; lia).
      assert (E3 : Nat.eqb (nat_of_ascii c) 133 = false) by (apply Nat.eqb_neq; lia).
      assert (E4 : Nat.eqb (nat_of_ascii c) 160 = false) by (apply Nat.eqb_neq; lia).
      rewrite E1, E2, E3, E4, !andb_false_r. reflexivity.
    - apply Nat.ltb_lt. lia.
    - apply Ascii.eqb_neq. intros ->.
      change (nat_of_ascii "010") with 10 in H1. lia.
    - apply Ascii.eqb_neq. intros ->.
      change (nat_of_ascii "_") with 95 in H2. lia. }
  unfold word.
  generalize dependent (str_of_int z). intros s Hne Hall.
  assert (Hs : String.eqb s "" = false) by (apply String.eqb_neq; exact Hne).
  rewrite Hs. cbn [negb andb]. clear Hne Hs.
  induction s as [|c s IH]; [repeat split|].
  cbn [list_ascii_of_string] in Hall. inversion Hall as [|c' l Hc Hrest]; subst.
  destruct (H c Hc) as (H1 & H2 & H3 & H4). destruct (IH Hrest) as (I1 & I2 & I3 & I4).
  cbn [list_ascii_of_string forallb has_char].
  rewrite H1, H2, H3, H4, I1, I2, I3, I4. repeat split.
Qed.

Lemma prefix_has_char (c : ascii) (p s : string) :
  String.prefix p s = true -> has_char c p = true -> has_char c s = true.
Proof.
  revert s. induction p as [|a p IH]; intros s Hp Hc; [discriminate|].
  destruct s as [|b s]; [discriminate|].
  cbn [String.prefix] in Hp. destruct (ascii_dec a b) as [->|]; [|discriminate].
  cbn [has_char] in *. destruct (Ascii.eqb b c); [reflexivity|].
  cbn [orb] in *. apply (IH s Hp Hc).
Qed.

Lemma contains_has_char (c : ascii) (p s : string) :
  contains p s = true -> has_char c p = true -> has_char c s = true.
Proof.
  intros H Hc. induction s as [|b s IH].
  - cbn [contains] in H. rewrite orb_false_r in H. apply (prefix_has_char c p _ H Hc).
  - cbn [contains] in H. apply orb_true_iff in H. destruct H as [H|H].
    + apply (prefix_has_char c p _ H Hc).
    + cbn [has_char]. rewrite (IH H). apply orb_true_r.
Qed.

Lemma element_vertex_plain (count : Z) : plain (element_vertex count) = true.
Proof.
  destruct (str_of_int_plain count) as (_ & Hascii & Hnl & Hu).
  unfold plain, element_vertex.
  rewrite list_ascii_of_string_app, forallb_app, Hascii, has_char_app, Hnl.
  destruct (contains "end_header" ("element vertex " ++ str_of_int count)) eqn:E;
    [|reflexivity].
  apply (contains_has_char "_") in E; [|reflexivity].
  rewrite has_char_app, Hu in E. discriminate.
Qed.

Lemma element_vertex_words (count : Z) :
  startswith "element vertex" (element_vertex count) = true /\
  split_ws (element_vertex count) = ["element"; "vertex"; str_of_int count].
Proof.
  split; [reflexivity|].
  destruct (str_of_int_plain count) as (Hw & _).
  unfold element_vertex.
  change ("element vertex " ++ str_of_int count)%string
    with ("element" ++ String " " ("vertex" ++ String " " (str_of_int count)))%string.
  rewrite !split_ws_blank, (split_ws_word _ Hw). reflexivity.
Qed.

Lemma scan_lines_finds_the_declaration (before later : list string) (count : Z) :
  py_int (str_of_int count) = Some count ->
  forallb (fun l => negb (startswith "element vertex" l)) before = true ->
  scan_lines (before ++ element_vertex count :: later) = inr (Some count).
Proof.
  intros Hint. induction before as [|l before IH]; intros H.
  - cbn [app scan_lines]. destruct (element_vertex_words count) as (-> & ->).
    cbn [nth_error]. rewrite Hint. reflexivity.
  - cbn [forallb] in H. apply andb_true_iff in H. destruct H as (Hl & Hb).
    apply negb_true_iff in Hl. cbn [app scan_lines]. rewrite Hl. apply IH. exact Hb.
Qed.

(** X22. The count a well-formed header declares is the count
    [parse_ply_header] returns: for a header of at most 10000 bytes made of
    plain lines, the line [element vertex n] with [n] in decimal, more plain
    lines and the line [end_header], whatever bytes follow the header, the
    parser stops after one iteration per line and returns [n]. The count
    has at most 4300 digits, the most that [int] converts. *)
Theorem a_declared_count_is_read_back
    (before after : list string) (count : Z) (body : list byte) (fuel : nat) :
  well_formed before after = true ->
  (Z.abs count < 10 ^ 4300)%Z ->
  (Z.of_nat (List.length (header before count after)) <= 10000)%Z ->
  List.length before + List.length after + 1 < fuel ->
  parse_ply_header fuel (Some (header before count after ++ body)) = Some count.
Proof.
  unfold well_formed. intros Hwf Hdigits Hlen Hfuel.
  apply andb_true_iff in Hwf. destruct Hwf as (Hwf & Hstart).
  apply andb_true_iff in Hwf. destruct Hwf as (Hb & Ha).
  set (ls := before ++ element_vertex count :: after).
  assert (Hplain : forallb plain ls = true).
  { unfold ls. rewrite forallb_app. cbn [forallb].
    rewrite Hb, Ha, element_vertex_plain. reflexivity. }
  unfold header in *. fold ls in Hlen |- *.
  unfold parse_ply_header, try_block.
  rewrite <- app_assoc.
  rewrite (read_header_lines ls body [] fuel Hplain).
  - cbn [app]. rewrite decode_ascii_ignore_app.
    rewrite (split_on_lines ls _ Hplain).
    unfold ls. rewrite <- app_assoc. cbn [app].
    rewrite (scan_lines_finds_the_declaration _ _ _
               (py_int_str_of_int count Hdigits) Hstart).
    reflexivity.
  - cbn [app]. rewrite length_app in Hlen. lia.
  - unfold ls. rewrite length_app. cbn [List.length]. lia.
Qed.

Lemma a_declared_count_is_read_back_witness :
  well_formed ["ply"; "format binary_little_endian 1.0"] ["property float x"] = true /\
  (Z.of_nat (List.length (header ["ply"; "format binary_little_endian 1.0"] 12345
                                 ["property float x"])) <= 10000)%Z /\
  header ["ply"; "format binary_little_endian 1.0"] 12345 ["property float x"]
    ++ list_byte_of_string "...." = Samples.well_formed /\
  parse_ply_header 5 (Some Samples.well_formed) = Some 12345%Z.
Proof.
  assert (Hlen : (Z.of_nat (List.length (header ["ply"; "format binary_little_endian 1.0"]
                                                12345 ["property float x"])) <= 10000)%Z)
    by (vm_compute; discriminate).
  split; [reflexivity|]. split; [exact Hlen|]. split; [reflexivity|].
  exact (a_declared_count_is_read_back
           ["ply"; "format binary_little_endian 1.0"] ["property float x"] 12345%Z
           (list_byte_of_string "....") 5 eq_refl eq_refl Hlen ltac:(simpl; lia)).
Defined.

End RoundTripFacts.

(** ** What the header parser returns *)

Module ParserFacts.

Import Py PyLib CompareResults Ply LibFacts CommandFacts HeaderFacts RoundTripFacts.

(** Without a line that starts with [element vertex] the scan finds
    nothing. *)
Lemma scan_lines_without_declaration (lines : list string) :
  Forall (fun l => startswith "element vertex" l = false) lines ->
  scan_lines lines = inr None.
Proof.
  induction 1 as [|l lines Hl _ IH]; [reflexivity|].
  cbn [scan_lines]. rewrite Hl. exact IH.
Qed.

(** The scan stops at the first line that starts with [element vertex] and
    converts its third field. *)
Lemma scan_lines_at_first_declaration (pre : list string) (l : string)
    (post : list string) :
  Forall (fun l' => startswith "element vertex" l' = false) pre ->
  startswith "element vertex" l = true ->
  scan_lines (pre ++ l :: post)
  = match nth_error (split_ws l) 2 with
    | None => inl IndexError
    | Some tok =>
        match py_int tok with
        | None => inl ValueError
        | Some n => inr (Some n)
        end
    end.
Proof.
  intros Hpre Hl. induction Hpre as [|l' pre Hl' _ IH].
  - cbn [app scan_lines]. rewrite Hl. reflexivity.
  - cbn [app scan_lines]. rewrite Hl'. exact IH.
Qed.

(** C4, as the code has it. A file that cannot be opened yields 0. Every
    well-formed header of at most 10000 bytes that declares
    [element vertex 12345] before the terminator yields 12345, whatever
    lines surround the declaration and whatever follows the header. A file
    that has the terminator somewhere, or is longer than 10000 bytes, makes
    the loop stop after at most as many iterations as the file has bytes: it
    has read whole lines, up to and including the first line that contains
    the terminator or that brings the header above 10000 bytes, so that all
    but the last line read fit the budget and the last line is read whole,
    however long. The parser then returns without raising. What it returns
    is 0 when no line of what was read starts with [element vertex];
    otherwise it is decided by the first such line alone: the integer in its
    third field, and 0 when that field is missing or is not an integer that
    [int] converts. *)
Theorem parse_ply_header_returns_when_the_loop_can_stop :
  (forall fuel, parse_ply_header fuel None = Some 0%Z) /\
  (forall before after body fuel,
      well_formed before after = true ->
      (Z.of_nat (List.length (header before 12345 after)) <= 10000)%Z ->
      List.length before + List.length after + 1 < fuel ->
      parse_ply_header fuel (Some (header before 12345 after ++ body))
      = Some 12345%Z) /\
  (forall f : list byte,
      bytes_contains end_header f = true \/ (10000 < Z.of_nat (List.length f))%Z ->
      exists read rest before line,
        f = read ++ rest /\
        read = before ++ line /\
        (Z.of_nat (List.length before) <= 10000)%Z /\
        readline (line ++ rest) = (line, rest) /\
        (bytes_contains end_header line = true
         \/ (10000 < Z.of_nat (List.length read))%Z) /\
        forall fuel,
          List.length f <= fuel ->
          read_header fuel f [] = Some read /\
          exists count,
            parse_ply_header fuel (Some f) = Some count /\
            (Forall (fun l => startswith "element vertex" l = false)
                    (split_on "010"%char (decode_ascii_ignore read)) ->
             count = 0%Z) /\
            (forall pre l post,
                split_on "010"%char (decode_ascii_ignore read) = pre ++ l :: post ->
                Forall (fun l' => startswith "element vertex" l' = false) pre ->
                startswith "element vertex" l = true ->
                count = match nth_error (split_ws l) 2 with
                        | Some tok =>
                            match py_int tok with
                            | Some n => n
                            | None => 0%Z
                            end
                        | None => 0%Z
                        end)).
Proof.
  split; [reflexivity|]. split.
  - intros before after body fuel Hwf Hlen Hfuel.
    unfold well_formed in Hwf.
    apply andb_true_iff in Hwf. destruct Hwf as (Hwf & Hstart).
    apply andb_true_iff in Hwf. destruct Hwf as (Hb & Ha).
    set (ls := before ++ element_vertex 12345 :: after).
    assert (Hplain : forallb plain ls = true).
    { unfold ls. rewrite forallb_app. cbn [forallb].
      rewrite Hb, Ha, element_vertex_plain. reflexivity. }
    unfold header in *. fold ls in Hlen |- *.
    unfold parse_ply_header, try_block.
    rewrite <- app_assoc.
    rewrite (read_header_lines ls body [] fuel Hplain).
    + cbn [app]. rewrite decode_ascii_ignore_app.
      rewrite (split_on_lines ls _ Hplain).
      unfold ls. rewrite <- app_assoc. cbn [app].
      rewrite (scan_lines_finds_the_declaration _ _ 12345 eq_refl Hstart).
      reflexivity.
    + cbn [app]. rewrite length_app in Hlen. lia.
    + unfold ls. rewrite length_app. cbn [List.length]. lia.
  - intros f Hstop.
    destruct (read_header_stops (List.length f) f [])
      as (read & rest & before & line & Hf & Hhead & Hb & Hr & Hend & Hrun);
      [lia|simpl; lia|simpl; exact Hstop|].
    simpl in Hhead, Hrun.
    exists read, rest, before, line.
    split; [exact Hf|]. split; [exact Hhead|]. split; [exact Hb|].
    split; [exact Hr|]. split; [rewrite Hhead; exact Hend|].
    intros fuel Hfuel. split; [apply Hrun; exact Hfuel|].
    unfold parse_ply_header, try_block. rewrite (Hrun fuel Hfuel).
    set (lines := split_on "010"%char (decode_ascii_ignore read)).
    exists (match scan_lines lines with inr (Some n) => n | _ => 0%Z end).
    split; [destruct (scan_lines lines) as [e|[n|]]; reflexivity|]. split.
    + intros Hnone. rewrite (scan_lines_without_declaration _ Hnone). reflexivity.
    + intros pre l post Hlines Hpre Hl.
      rewrite Hlines, (scan_lines_at_first_declaration _ _ _ Hpre Hl).
      destruct (nth_error (split_ws l) 2) as [tok|]; [|reflexivity].
      destruct (py_int tok); reflexivity.
Qed.

Lemma parse_ply_header_returns_when_the_loop_can_stop_witness :
  (bytes_contains end_header Samples.well_formed = true
   \/ (10000 < Z.of_nat (List.length Samples.well_formed))%Z) /\
  exists read count,
    read_header (List.length Samples.well_formed) Samples.well_formed [] = Some read /\
    parse_ply_header (List.length Samples.well_formed) (Some Samples.well_formed)
    = Some count.
Proof.
  assert (H : bytes_contains end_header Samples.well_formed = true
              \/ (10000 < Z.of_nat (List.length Samples.well_formed))%Z)
    by (left; vm_compute; reflexivity).
  split; [exact H|].
  destruct parse_ply_header_returns_when_the_loop_can_stop as (_ & _ & Hstops).
  destruct (Hstops Samples.well_formed H)
    as (read & rest & before & line & _ & _ & _ & _ & _ & Hrun).
  destruct (Hrun (List.length Samples.well_formed) (le_n _)) as (Hread & count & Hcount & _).
  exists read, count. split; [exact Hread|exact Hcount].
Defined.

End ParserFacts.
